(** * moor: rendering, search and terminal core

    A shallow embedding of three parts of the pager:
    - [Twin]: the terminal engine of [twin] (the second half of
      [internal/screenLines.go]): background-colour response parsing, input
      event decoding, the cell grid and row serialisation;
    - [Search]: the chunked line search of [internal/search.go];
    - [Pager]: row decoration ([internal/screenLines.go]) and the search
      scrolling operations of [internal/search.go].

    Go's [int] is modelled by [Z]; every integer below is a line count, a
    column or a byte length, far from the 64-bit limits.  A Go [string] that is
    decoded rune by rune is modelled as the list of its code points (the main
    loop only hands valid UTF-8 to the decoder); a byte slice compared and
    sliced bytewise is modelled by [String.string]. *)

From Stdlib Require Import ZArith List Bool Lia String Ascii Permutation DecimalString.
Import ListNotations.
Open Scope Z_scope.

(* ================================================================== *)
(** * Part I: the embedding                                            *)
(* ================================================================== *)

Module Twin.

(** ** Bytes and strings *)

Definition ESC : ascii := "027"%char.
Definition BEL : ascii := "007"%char.

Definition str1 (c : ascii) : string := String c EmptyString.

(** [len(s)] *)
Definition len (s : string) : Z := Z.of_nat (String.length s).

(** [strings.HasPrefix(s, prefix)] *)
Definition HasPrefix (s prefix : string) : bool := String.prefix prefix s.

(** [strings.TrimPrefix(s, prefix)] *)
Definition TrimPrefix (s prefix : string) : string :=
  if HasPrefix s prefix
  then substring (String.length prefix) (String.length s - String.length prefix) s
  else s.

(** [strings.HasSuffix(s, suffix)] *)
Definition HasSuffix (s suffix : string) : bool :=
  (String.length suffix <=? String.length s)%nat &&
  String.eqb
    (substring (String.length s - String.length suffix) (String.length suffix) s)
    suffix.

(** [strings.TrimSuffix(s, suffix)] *)
Definition TrimSuffix (s suffix : string) : string :=
  if HasSuffix s suffix
  then substring 0 (String.length s - String.length suffix) s
  else s.

(** [s[lo:hi]] *)
Definition slice (s : string) (lo hi : nat) : string := substring lo (hi - lo) s.

Definition hexDigit (c : ascii) : option Z :=
  let n := Z.of_nat (nat_of_ascii c) in
  if (48 <=? n) && (n <=? 57) then Some (n - 48)
  else if (97 <=? n) && (n <=? 102) then Some (n - 97 + 10)
  else if (65 <=? n) && (n <=? 70) then Some (n - 65 + 10)
  else None.

Fixpoint parseHexFrom (acc : Z) (s : string) : option Z :=
  match s with
  | EmptyString => Some acc
  | String c rest =>
      match hexDigit c with
      | Some d => parseHexFrom (acc * 16 + d) rest
      | None => None
      end
  end.

(** [strconv.ParseUint(s, 16, 16)]: [None] stands for a non-nil [err]
    (empty input, a character that is no hex digit, or a value that does not
    fit 16 bits). *)
Definition ParseUint_16_16 (s : string) : option Z :=
  match s with
  | EmptyString => None
  | _ =>
      match parseHexFrom 0 s with
      | Some v => if v <? 65536 then Some v else None
      | None => None
      end
  end.

(** ** Colours and styles *)

(** Modelled from the spec: [twin.Color] is declared in [twin/colors.go],
    which is not among the sources; the wire protocol section lists the
    default colour and the 16-colour, 256-colour and 24-bit palettes. *)
Inductive Color : Type :=
| ColorDefault
| Color16 (index : Z)
| Color256 (index : Z)
| Color24Bit (red green blue : Z).

(** Modelled from the spec: the constructors of [twin/colors.go] for a
    colour of the 16-colour palette and for a 24-bit colour. *)
Definition NewColor16 (index : Z) : Color := Color16 index.
Definition NewColor24Bit (red green blue : Z) : Color := Color24Bit red green blue.

(** [uint8(x)] *)
Definition uint8 (x : Z) : Z := x mod 256.

(** Go's [==] on two colours. *)
Definition Color_eqb (a b : Color) : bool :=
  match a, b with
  | ColorDefault, ColorDefault => true
  | Color16 x, Color16 y => x =? y
  | Color256 x, Color256 y => x =? y
  | Color24Bit r g b, Color24Bit r' g' b' => (r =? r') && (g =? g') && (b =? b')
  | _, _ => false
  end.

(** ** parseTerminalBgColorResponse *)

(** The result pair is Go's pair of a colour pointer and a flag: the colour
    when one was parsed,
    and whether the bytes received so far are still a valid response. *)
Definition parseTerminalBgColorResponse (responseBytes : string) : option Color * bool :=
  let prefix := (str1 ESC ++ "]11;rgb:")%string in
  let suffix1 := str1 BEL in
  let suffix2 := (str1 ESC ++ "\")%string in
  let sampleResponse1 := (prefix ++ "0000/0000/0000" ++ suffix1)%string in
  let sampleResponse2 := (prefix ++ "0000/0000/0000" ++ suffix2)%string in
  let response := responseBytes in
  if negb (HasPrefix response prefix) then (None, false) (* Invalid *)
  else
    let response := TrimPrefix response prefix in
    let isComplete := HasSuffix response suffix1 || HasSuffix response suffix2 in
    if negb isComplete &&
       ((len responseBytes <? len sampleResponse1) || (len responseBytes <? len sampleResponse2))
    then (None, true) (* Incomplete but valid *)
    else if negb isComplete then (None, false) (* Invalid *)
    else
      let response := TrimSuffix response suffix1 in
      let response := TrimSuffix response suffix2 in
      if negb (len response =? 14) then (None, false) (* Invalid *)
      else
        (* response is now "RRRR/GGGG/BBBB" *)
        match ParseUint_16_16 (slice response 0 4) with
        | None => (None, false)
        | Some red =>
            match ParseUint_16_16 (slice response 5 9) with
            | None => (None, false)
            | Some green =>
                match ParseUint_16_16 (slice response 10 14) with
                | None => (None, false)
                | Some blue =>
                    (Some (NewColor24Bit (uint8 (red / 256)) (uint8 (green / 256)) (uint8 (blue / 256))),
                     true)
                end
            end
        end.

(** The response of the spec's example, [ESC ]11;rgb:1234/5678/9abc BEL]. *)
Definition sampleBgResponse : string :=
  (str1 ESC ++ "]11;rgb:1234/5678/9abc" ++ str1 BEL)%string.

(** [responseBytes[:n]] *)
Definition firstBytes (n : nat) (s : string) : string := substring 0 n s.

(** ** Input events *)

(** A code point. *)
Definition rune : Type := Z.

(** A Go [string] read rune by rune: the list of its code points. *)
Definition runes : Type := list rune.

Definition runeESC : rune := 27.
Definition runeCR : rune := 13.
Definition runeSpace : rune := 32.

(** The code points of an ASCII literal. *)
Fixpoint runesOf (s : string) : runes :=
  match s with
  | EmptyString => []
  | String c rest => Z.of_nat (nat_of_ascii c) :: runesOf rest
  end.

Fixpoint runes_eqb (a b : runes) : bool :=
  match a, b with
  | [], [] => true
  | x :: a', y :: b' => (x =? y) && runes_eqb a' b'
  | _, _ => false
  end.

(** [strings.HasPrefix] on decoded strings. *)
Fixpoint hasPrefix (s prefix : runes) {struct prefix} : bool :=
  match prefix, s with
  | [], _ => true
  | p :: prefix', c :: s' => (p =? c) && hasPrefix s' prefix'
  | _ :: _, [] => false
  end.

(** [strings.TrimPrefix] on decoded strings. *)
Definition trimPrefix (s prefix : runes) : runes :=
  if hasPrefix s prefix then skipn (List.length prefix) s else s.

(** Modelled from the spec: [KeyCode] is declared in [twin/keys.go], which is
    not among the sources; the event surface names the Escape and Enter
    key-codes next to arrows, function keys and the like. *)
Inductive KeyCode : Type :=
| KeyEscape
| KeyEnter
| KeyOther (code : Z).

(** Modelled from the spec: the events of [twin/events.go], which is not
    among the sources; the event surface lists key-codes, runes, mouse
    wheel moves, resizes and the exit event. *)
Inductive MouseButtonMask : Type :=
| MouseWheelUp
| MouseWheelDown.

Inductive Event : Type :=
| EventKeyCode (keyCode : KeyCode)
| EventRune (r : rune)
| EventMouse (buttons : MouseButtonMask)
| EventResize
| EventExit.

Definition isDigit (c : rune) : bool := (48 <=? c) && (c <=? 57).

(** The longest run of digits at the start of [s], and what follows it. *)
Fixpoint spanDigits (s : runes) : runes * runes :=
  match s with
  | c :: rest =>
      if isDigit c
      then let '(digits, after) := spanDigits rest in (c :: digits, after)
      else ([], s)
  | [] => ([], [])
  end.

(** [mouseEventRegex.FindStringSubmatch], for the pattern
    [^ESC\[<([0-9]+);([0-9]+);([0-9]+)M]: the whole match and the three
    groups, or [None] for Go's nil.  None of the separators is a digit, so
    every group is a maximal run of digits. *)
Definition mouseEventRegex_FindStringSubmatch (s : runes) : option (runes * runes * runes * runes) :=
  match s with
  | 27 :: 91 :: 60 :: s1 =>
      let '(button, s2) := spanDigits s1 in
      match button, s2 with
      | _ :: _, 59 :: s3 =>
          let '(column, s4) := spanDigits s3 in
          match column, s4 with
          | _ :: _, 59 :: s5 =>
              let '(row, s6) := spanDigits s5 in
              match row, s6 with
              | _ :: _, 77 :: _ =>
                  Some ([27; 91; 60] ++ button ++ [59] ++ column ++ [59] ++ row ++ [77],
                        button, column, row)
              | _, _ => None
              end
          | _, _ => None
          end
      | _, _ => None
      end
  | _ => None
  end.

(** The [range] loop over the [escapeSequenceToKeyCode] map: the first entry,
    in the order this iteration visits them, that is a prefix of the input.
    The table itself lives in [twin/keys.go]; it is an argument here, listed
    in iteration order. *)
Fixpoint lookupKeyCode (table : list (runes * KeyCode)) (encodedEventSequences : runes)
  : option (runes * KeyCode) :=
  match table with
  | [] => None
  | (singleKeyCodeSequence, keyCode) :: rest =>
      if negb (hasPrefix encodedEventSequences singleKeyCodeSequence)
      then lookupKeyCode rest encodedEventSequences
      else Some (singleKeyCodeSequence, keyCode)
  end.

(** Consume the initial key code from the sequence of encoded key codes:
    the (possibly absent) event to post and the remainder of the input. *)
Definition consumeEncodedEvent (escapeSequenceToKeyCode : list (runes * KeyCode))
  (encodedEventSequences : runes) : option Event * runes :=
  match lookupKeyCode escapeSequenceToKeyCode encodedEventSequences with
  | Some (singleKeyCodeSequence, keyCode) =>
      (Some (EventKeyCode keyCode), trimPrefix encodedEventSequences singleKeyCodeSequence)
  | None =>
      match mouseEventRegex_FindStringSubmatch encodedEventSequences with
      | Some (whole, button, _, _) =>
          if runes_eqb button (runesOf "64")
          then (Some (EventMouse MouseWheelUp), trimPrefix encodedEventSequences whole)
          else if runes_eqb button (runesOf "65")
          then (Some (EventMouse MouseWheelDown), trimPrefix encodedEventSequences whole)
          else (None, [])
      | None =>
          (* No escape sequence prefix matched *)
          match encodedEventSequences with
          | [] => (None, [])
          | first :: rest =>
              if first =? runeESC then
                if negb (Z.of_nat (List.length encodedEventSequences) =? 1)
                then (None, []) (* everything is marked as consumed *)
                else (Some (EventKeyCode KeyEscape), rest)
              else if first =? runeCR then (Some (EventKeyCode KeyEnter), rest)
              else (Some (EventRune first), rest)
          end
      end
  end.

(** ** Styled cells *)

Definition AttrMask : Type := Z.

(** Modelled from the spec: [attr.has(attrs)] of [twin/styles.go], the
    attributes being flags of a bit mask: the masks share a bit. *)
Definition has (attr attrs : AttrMask) : bool := negb (Z.land attr attrs =? 0).

(** Modelled from the spec: [twin.Style] is declared in [twin/styles.go],
    which is not among the sources; a style is a foreground and a background
    colour, the bold/underline/reverse attributes and an optional hyperlink
    target. *)
Record Style : Type := mkStyle {
  fg : Color;
  bg : Color;
  attrs : AttrMask;
  hyperlinkURL : option string
}.

(** Modelled from the spec: the default style and the two setters of
    [twin/styles.go] that [renderLine] uses. *)
Definition StyleDefault : Style := mkStyle ColorDefault ColorDefault 0 None.

Definition WithBackground (style : Style) (color : Color) : Style :=
  mkStyle (fg style) color (attrs style) (hyperlinkURL style).

Definition WithHyperlink (style : Style) (url : option string) : Style :=
  mkStyle (fg style) (bg style) (attrs style) url.

Definition hyperlink_eqb (a b : option string) : bool :=
  match a, b with
  | None, None => true
  | Some x, Some y => String.eqb x y
  | _, _ => false
  end.

(** Go's [==] on two styles, hyperlink targets compared as texts. *)
Definition Style_eqb (a b : Style) : bool :=
  Color_eqb (fg a) (fg b) && Color_eqb (bg a) (bg b) &&
  (attrs a =? attrs b) && hyperlink_eqb (hyperlinkURL a) (hyperlinkURL b).

(** Modelled from the spec: [twin.StyledRune] of [twin/styledRune.go], a
    rune with its style. *)
Record StyledRune : Type := NewStyledRune {
  Rune : rune;
  Style_ : Style
}.

(** Modelled from the spec: [twin.ColorCount] of [twin/colors.go], the
    palette the terminal supports. *)
Inductive ColorCount : Type :=
| ColorCount8
| ColorCount16
| ColorCount256
| ColorCount24bit.

(** What running a piece of the program can do: return a value, panic, or
    never return (loop or block forever). *)
Inductive Result (A : Type) : Type :=
| Ok (a : A)
| Panic
| Loops.
Arguments Ok {A} a.
Arguments Panic {A}.
Arguments Loops {A}.

Definition andThen {A B : Type} (r : Result A) (k : A -> Result B) : Result B :=
  match r with
  | Ok a => k a
  | Panic => Panic
  | Loops => Loops
  end.

Notation "'let!' x ':=' r 'in' k" := (andThen r (fun x => k))
  (at level 10, x pattern, r at level 200, k at level 200).

(** One write into a [strings.Builder].  The escape sequence that
    [style.RenderUpdateFrom(lastStyle, colorCount)] returns is produced in
    [twin/styles.go], which is not among the sources: the write records the
    call. *)
Inductive Write : Type :=
| WriteString (s : string)
| WriteRune (r : rune)
| WriteStyleUpdate (style lastStyle : Style) (colorCount : ColorCount).

(** Clear to end of line, [ESC [K]. *)
Definition clearToEOL : string := (str1 ESC ++ "[K")%string.

(** ** The screen *)

Record UnixScreen : Type := mkUnixScreen {
  widthAccessFromSizeOnly : Z;
  heightAccessFromSizeOnly : Z;
  cells : list (list StyledRune);
  (** whether a notification waits in the one-slot [sigwinch] channel *)
  sigwinch : bool;
  (** what [term.GetSize] answers: the window's size (two counts, never
      negative), or an error *)
  termGetSize : option (Z * Z);
  terminalColorCount : ColorCount
}.

Definition zeroStyledRune : StyledRune := NewStyledRune 0 StyleDefault.

(** [make([][]StyledRune, height)] with every row [make([]StyledRune, width)] *)
Definition newCells (width height : Z) : list (list StyledRune) :=
  repeat (repeat zeroStyledRune (Z.to_nat width)) (Z.to_nat height).

(** Screen width and height.  A pending resize notification is consumed; when
    the window really changed, the grid is reallocated. *)
Definition Size (screen : UnixScreen) : Result (Z * Z * UnixScreen) :=
  if negb (sigwinch screen) then
    (* No resize, go with the existing values *)
    if (widthAccessFromSizeOnly screen =? 0) || (heightAccessFromSizeOnly screen =? 0)
    then Panic
    else Ok (widthAccessFromSizeOnly screen, heightAccessFromSizeOnly screen, screen)
  else
    (* Window was resized *)
    let screen :=
      mkUnixScreen (widthAccessFromSizeOnly screen) (heightAccessFromSizeOnly screen)
        (cells screen) false (termGetSize screen) (terminalColorCount screen) in
    match termGetSize screen with
    | None => Panic
    | Some (width, height) =>
        if (width =? 0) || (height =? 0) then Panic
        else if (widthAccessFromSizeOnly screen =? width) && (heightAccessFromSizeOnly screen =? height)
        then Ok (widthAccessFromSizeOnly screen, heightAccessFromSizeOnly screen, screen)
        else
          Ok (width, height,
              mkUnixScreen width height (newCells width height) false
                (termGetSize screen) (terminalColorCount screen))
    end.

(** [row[column] = cell]; Go panics when the index is out of range. *)
Fixpoint storeAt {A : Type} (l : list A) (index : nat) (x : A) : Result (list A) :=
  match l, index with
  | [], _ => Panic
  | _ :: rest, O => Ok (x :: rest)
  | y :: rest, S index' =>
      let! rest' := storeAt rest index' x in
      Ok (y :: rest')
  end.

(** [screen.cells[row][column] = cell] *)
Definition storeCell (screen : UnixScreen) (row column : Z) (cell : StyledRune) : Result UnixScreen :=
  match nth_error (cells screen) (Z.to_nat row) with
  | None => Panic
  | Some line =>
      let! line' := storeAt line (Z.to_nat column) cell in
      let! cells' := storeAt (cells screen) (Z.to_nat row) line' in
      Ok (mkUnixScreen (widthAccessFromSizeOnly screen) (heightAccessFromSizeOnly screen)
            cells' (sigwinch screen) (termGetSize screen) (terminalColorCount screen))
  end.

Section WithRuneWidth.

(** [StyledRune.Width()] asks the rune-width table of [twin/styledRune.go]
    (not among the sources) for the number of columns a rune takes. *)
Variable runeWidth : rune -> Z.

(** [unicode.IsPrint]-like test of [twin.Printable], not among the sources. *)
Variable Printable : rune -> bool.

(** The attribute bits of [twin/styles.go], not among the sources. *)
Variable AttrBold : AttrMask.
Variable AttrReverse : AttrMask.

Definition Width (styledRune : StyledRune) : Z := runeWidth (Rune styledRune).

Definition SetCell (column row : Z) (styledRune : StyledRune) (screen : UnixScreen)
  : Result (Z * UnixScreen) :=
  if column <? 0 then Ok (Width styledRune, screen)
  else if row <? 0 then Ok (Width styledRune, screen)
  else
    let! (width, height, screen) := Size screen in
    if column >=? width then Ok (Width styledRune, screen)
    else if row >=? height then Ok (Width styledRune, screen)
    else if column + Width styledRune >? width then
      (* This cell is too wide for the screen, write a space instead *)
      let! screen := storeCell screen row column (NewStyledRune runeSpace (Style_ styledRune)) in
      Ok (Width styledRune, screen)
    else
      let! screen := storeCell screen row column styledRune in
      Ok (Width styledRune, screen).

(** A cell is hidden when the cell before it holds a wide rune.  [previous]
    is [runes[i-1]], absent for [i = 0]. *)
Fixpoint withoutHiddenRunesFrom (previous : option StyledRune) (row : list StyledRune)
  : list StyledRune :=
  match row with
  | [] => []
  | current :: rest =>
      let hidden :=
        match previous with
        | Some before => Width before =? 2
        | None => false
        end in
      if hidden
      then withoutHiddenRunesFrom (Some current) rest
      else current :: withoutHiddenRunesFrom (Some current) rest
  end.

Definition withoutHiddenRunes (row : list StyledRune) : list StyledRune :=
  withoutHiddenRunesFrom None row.

(** The strip-trailing-whitespace loop of [renderLine], walking the row from
    its last cell: what is left of the (reversed) row, and the background of
    the stripped run. *)
Fixpoint stripTrailingWhitespace (reversedRow : list StyledRune) (trailerBg : Color)
  (trailerBgSet : bool) : list StyledRune * Color :=
  match reversedRow with
  | [] => ([], trailerBg)
  | lastCell :: before =>
      if negb (Rune lastCell =? runeSpace) then (reversedRow, trailerBg)
      else
        let whiteSpaceBg :=
          if has (attrs (Style_ lastCell)) AttrReverse
          then
            (* Style is inverted, take the foreground color instead *)
            if Color_eqb (fg (Style_ lastCell)) ColorDefault then None
            else Some (fg (Style_ lastCell))
          else Some (bg (Style_ lastCell)) in
        match whiteSpaceBg with
        | None => (reversedRow, trailerBg)
        | Some whiteSpaceBg =>
            let trailerBg := if trailerBgSet then trailerBg else whiteSpaceBg in
            if negb (Color_eqb whiteSpaceBg trailerBg) then (reversedRow, trailerBg)
            else stripTrailingWhitespace before trailerBg true
        end
  end.

(** The cell loop of [renderLine]: the writes for the cells, and the style in
    force after the last one. *)
Fixpoint renderCells (row : list StyledRune) (lastStyle : Style) (colorCount : ColorCount)
  : list Write * Style :=
  match row with
  | [] => ([], lastStyle)
  | cell :: rest =>
      let '(style, runeToWrite) :=
        if negb (Printable (Rune cell))
        then (mkStyle (NewColor16 7) (NewColor16 1) AttrBold None, 63)
        else (Style_ cell, Rune cell) in
      let update :=
        if negb (Style_eqb style lastStyle)
        then [WriteStyleUpdate style lastStyle colorCount]
        else [] in
      let '(writes, finalStyle) := renderCells rest style colorCount in
      (update ++ WriteRune runeToWrite :: writes, finalStyle)
  end.

(** The rendered line, plus how many information carrying cells went into
    it. *)
Definition renderLine (row : list StyledRune) (width : Z) (colorCount : ColorCount)
  : list Write * Z :=
  let row := withoutHiddenRunes row in
  (* Strip trailing whitespace *)
  let '(reversedRow, trailerBg) := stripTrailingWhitespace (rev row) ColorDefault false in
  let row := rev reversedRow in
  (* Set initial line style to normal *)
  let start := [WriteString (str1 ESC ++ "[m")%string] in
  let '(cellWrites, lastStyle) := renderCells row StyleDefault colorCount in
  let lastStyleMinusHyperlink := WithHyperlink lastStyle None in
  let '(unlink, lastStyle) :=
    if negb (Style_eqb lastStyleMinusHyperlink lastStyle)
    then ([WriteStyleUpdate lastStyleMinusHyperlink lastStyle colorCount], lastStyleMinusHyperlink)
    else ([], lastStyle) in
  let clear :=
    if Z.of_nat (List.length row) <? width
    then [WriteStyleUpdate (WithBackground StyleDefault trailerBg) lastStyle colorCount;
          WriteString clearToEOL]
    else [] in
  (start ++ cellWrites ++ unlink ++ clear, Z.of_nat (List.length row)).

(** The row loop of [showNLines], from [row] on, [remaining] rows to go. *)
Fixpoint showRows (screen : UnixScreen) (width height : Z) (row : Z) (remaining : nat)
  : Result (list Write) :=
  match remaining with
  | O => Ok []
  | S remaining' =>
      match nth_error (cells screen) (Z.to_nat row) with
      | None => Panic
      | Some line =>
          let '(rendered, lineLength) := renderLine line width (terminalColorCount screen) in
          let wasLastLine := row =? height - 1 in
          let newline :=
            if (lineLength <=? Z.of_nat (List.length line)) && negb wasLastLine
            then [WriteString (String "013" (String "010" EmptyString))]
            else [] in
          let! rest := showRows screen width height (row + 1) remaining' in
          Ok (rendered ++ newline ++ rest)
      end
  end.

(** What [showNLines] hands to [screen.write]. *)
Definition showNLines (screen : UnixScreen) (width height : Z) (clearFirst : bool)
  : Result (list Write) :=
  let home :=
    if clearFirst then [WriteString (str1 ESC ++ "[1;1H")%string] else [] in
  let! rows := showRows screen width height 0 (Z.to_nat height) in
  Ok (home ++ rows).

(** [Show()]: render the whole grid. *)
Definition Show (screen : UnixScreen) : Result (list Write * UnixScreen) :=
  let! (width, height, screen) := Size screen in
  let! writes := showNLines screen width height true in
  Ok (writes, screen).

End WithRuneWidth.

(** ** Clearing the grid *)

(** The inner loop of [Clear]: [screen.cells[row][column] = empty] for the
    [remaining] columns from [column] on. *)
Fixpoint clearColumns (screen : UnixScreen) (empty : StyledRune) (row column : Z)
  (remaining : nat) : Result UnixScreen :=
  match remaining with
  | O => Ok screen
  | S remaining' =>
      let! screen := storeCell screen row column empty in
      clearColumns screen empty row (column + 1) remaining'
  end.

(** The outer loop of [Clear], over the [remaining] rows from [row] on. *)
Fixpoint clearRows (screen : UnixScreen) (empty : StyledRune) (width row : Z)
  (remaining : nat) : Result UnixScreen :=
  match remaining with
  | O => Ok screen
  | S remaining' =>
      let! screen := clearColumns screen empty row 0 (Z.to_nat width) in
      clearRows screen empty width (row + 1) remaining'
  end.

(** [screen.Clear()]: every cell of the grid becomes a space in the default
    style. *)
Definition Clear (screen : UnixScreen) : Result UnixScreen :=
  let empty := NewStyledRune runeSpace StyleDefault in
  let! (width, height, screen) := Size screen in
  clearRows screen empty width 0 (Z.to_nat height).

(** ** The decoding loop of the main loop *)

(** The [for len(encodedKeyCodeSequences) > 0] loop of [mainLoop]: the
    events it offers to the events channel, in order.  It stops at the end
    of the input or when no event comes out; [Loops] when [fuel] iterations
    were not enough. *)
Fixpoint decodeEvents (fuel : nat) (escapeSequenceToKeyCode : list (runes * KeyCode))
  (encodedKeyCodeSequences : runes) : Result (list Event) :=
  match encodedKeyCodeSequences with
  | [] => Ok []
  | _ =>
      match fuel with
      | O => Loops
      | S fuel' =>
          match consumeEncodedEvent escapeSequenceToKeyCode encodedKeyCodeSequences with
          | (None, _) => Ok [] (* No event, go wait for more *)
          | (Some event, rest) =>
              let! more := decodeEvents fuel' escapeSequenceToKeyCode rest in
              Ok (event :: more)
          end
      end
  end.

(** ** Logging helper *)

(** The digit of [fmt]'s lower-case hexadecimal for a value below 16. *)
Definition hexDigitRune (d : Z) : rune := if d <? 10 then 48 + d else 97 + (d - 10).

(** [fmt.Sprintf("<0x%2x>", char)] for a rune below 256: the hexadecimal
    number, padded with a space to two columns, between the brackets. *)
Definition sprintfHex2 (char : rune) : runes :=
  runesOf "<0x" ++
  (if char <? 16 then [runeSpace; hexDigitRune char]
   else [hexDigitRune (char / 16); hexDigitRune (char mod 16)]) ++
  runesOf ">".

(** Turn the low ASCII characters of a string into [<0xXX>], for logging. *)
Fixpoint humanizeLowASCII (withLowAsciis : runes) : runes :=
  match withLowAsciis with
  | [] => []
  | char :: rest =>
      if char <? runeSpace then sprintfHex2 char ++ humanizeLowASCII rest
      else char :: humanizeLowASCII rest
  end.

End Twin.

Module Search.

(** ** Lines and the reader *)

(** Modelled from the spec: [linemetadata.Index], of [internal/linemetadata]
    (not among the sources): the zero-based position of an input line. *)
Definition Index : Type := Z.

(** Modelled from the spec: [Index.NonWrappingAdd] is declared in
    [internal/linemetadata], which is not among the sources; index arithmetic
    is non-wrapping at zero: subtracting past zero clamps. *)
Definition NonWrappingAdd (i : Index) (offset : Z) : Index := Z.max 0 (i + offset).

(** A compiled pattern, as its [MatchString]. *)
Definition Regexp : Type := string -> bool.

(** An input line, as its [Plain()] text. *)
Record Line : Type := mkLine { Plain : string }.

(** Modelled from the spec: the [reader.Reader] interface is declared in
    [internal/reader], which is not among the sources; the line-source
    contract is a line count and, for an index, the line or its absence. *)
Definition Reader : Type := list Line.

Definition GetLineCount (reader : Reader) : Z := Z.of_nat (List.length reader).

(** Modelled from the spec: [reader.GetLine(index)], the line, or nil where
    the store has none. *)
Definition GetLine (reader : Reader) (index : Index) : option Line :=
  if index <? 0 then None else nth_error reader (Z.to_nat index).

(** ** _findFirstHit *)

(** What one chunk search produces: the hit (or nil), and the positions whose
    text it matched against the pattern, in scan order. *)
Definition Finding : Type := (option Index * list Index)%type.

Definition visit (position : Index) (finding : option Finding) : option Finding :=
  match finding with
  | Some (result, scanned) => Some (result, position :: scanned)
  | None => None
  end.

(** The [for] loop of [_findFirstHit].  [None] when [fuel] iterations were not
    enough. *)
Fixpoint _findFirstHit_loop (fuel : nat) (reader : Reader) (searchPosition : Index)
  (pattern : Regexp) (beforePosition : option Index) (backwards : bool) : option Finding :=
  match fuel with
  | O => None
  | S fuel' =>
      match GetLine reader searchPosition with
      | None => Some (None, []) (* No match, give up *)
      | Some line =>
          if pattern (Plain line) then Some (Some searchPosition, [searchPosition])
          else if backwards && (searchPosition =? 0)
          then Some (None, [searchPosition]) (* Reached the top without any match *)
          else
            let next :=
              if backwards then NonWrappingAdd searchPosition (-1)
              else NonWrappingAdd searchPosition 1 in
            let atBound :=
              match beforePosition with
              | Some before => next =? before
              | None => false
              end in
            if atBound then Some (None, [searchPosition]) (* No match, give up *)
            else visit searchPosition
                   (_findFirstHit_loop fuel' reader next pattern beforePosition backwards)
      end
  end.

(** Every iteration moves one line towards the end (or the top) of the store,
    so one more iteration than there are lines is enough. *)
Definition _findFirstHit (reader : Reader) (startPosition : Index) (pattern : Regexp)
  (beforePosition : option Index) (backwards : bool) : option Finding :=
  _findFirstHit_loop (S (List.length reader)) reader startPosition pattern beforePosition backwards.

(** ** findFirstHit *)

Definition linesCount (reader : Reader) (startPosition : Index)
  (beforePosition : option Index) (backwards : bool) : Z :=
  if backwards then
    match beforePosition with
    | Some before => startPosition - before
    | None => startPosition + 1
    end
  else
    match beforePosition with
    | Some before => before - startPosition
    | None => GetLineCount reader - startPosition
    end.

(** The number of chunks: one per core, or a single one when there are fewer
    lines than cores. *)
Definition chunkCount (numCPU : Z) (reader : Reader) (startPosition : Index)
  (beforePosition : option Index) (backwards : bool) : Z :=
  if linesCount reader startPosition beforePosition backwards <? numCPU then 1 else numCPU.

(** Go's [/] on [int] truncates towards zero. *)
Definition chunkSize (numCPU : Z) (reader : Reader) (startPosition : Index)
  (beforePosition : option Index) (backwards : bool) : Z :=
  Z.quot (linesCount reader startPosition beforePosition backwards)
         (chunkCount numCPU reader startPosition beforePosition backwards).

(** [0, 1, ..., n-1] *)
Definition upto (n : Z) : list Z := map Z.of_nat (seq 0 (Z.to_nat n)).

(** Each parallel search will start at one of these positions. *)
Definition searchStarts (numCPU : Z) (reader : Reader) (startPosition : Index)
  (beforePosition : option Index) (backwards : bool) : list Index :=
  let direction := if backwards then -1 else 1 in
  map (fun i =>
         NonWrappingAdd startPosition
           (i * direction * chunkSize numCPU reader startPosition beforePosition backwards))
      (upto (chunkCount numCPU reader startPosition beforePosition backwards)).

(** The exclusive end of chunk [i]: the start of the next chunk, or for the
    last chunk the caller's bound. *)
Definition chunkBefore (starts : list Index) (beforePosition : option Index) (i : nat)
  : option Index :=
  let searchEndIndex := S i in
  if (searchEndIndex <? List.length starts)%nat
  then nth_error starts searchEndIndex
  else beforePosition.

(** The goroutines, one per chunk: what each of them sends on its channel
    ([None] for one that never gets to send). *)
Fixpoint chunkWorkers (reader : Reader) (pattern : Regexp) (starts : list Index)
  (remainingStarts : list Index) (i : nat) (beforePosition : option Index)
  (backwards : bool) : list (option Finding) :=
  match remainingStarts with
  | [] => []
  | searchStart :: rest =>
      _findFirstHit reader searchStart pattern (chunkBefore starts beforePosition i) backwards
      :: chunkWorkers reader pattern starts rest (S i) beforePosition backwards
  end.

(** The channels that have a value to hand over once the workers have run, in
    the order in which the workers finished. *)
Fixpoint sent (workers : list (option Finding)) (completionOrder : list nat)
  : list (nat * Finding) :=
  match completionOrder with
  | [] => []
  | i :: later =>
      match nth_error workers i with
      | Some (Some finding) => (i, finding) :: sent workers later
      | _ => sent workers later
      end
  end.

(** [<-findings[i]]: the value sent on channel [i]; [None] when nothing is
    ever sent on it and the receive blocks. *)
Fixpoint receive (channels : list (nat * Finding)) (i : nat) : option Finding :=
  match channels with
  | [] => None
  | (j, finding) :: rest => if (j =? i)%nat then Some finding else receive rest i
  end.

(** Return the first non-nil result, reading the channels in chunk order. *)
Fixpoint firstNonNil (channels : list (nat * Finding)) (i : nat) (remaining : nat)
  : option (option Index) :=
  match remaining with
  | O => Some None
  | S remaining' =>
      match receive channels i with
      | None => None
      | Some (Some result, _) => Some (Some result)
      | Some (None, _) => firstNonNil channels (S i) remaining'
      end
  end.

Definition workersOf (numCPU : Z) (reader : Reader) (pattern : Regexp)
  (startPosition : Index) (beforePosition : option Index) (backwards : bool)
  : list (option Finding) :=
  let starts := searchStarts numCPU reader startPosition beforePosition backwards in
  chunkWorkers reader pattern starts starts 0 beforePosition backwards.

(** Search input lines, not screen lines.  [numCPU] is [runtime.NumCPU()],
    [completionOrder] the order in which the chunk workers finish.  The
    result is [None] when the caller never gets an answer. *)
Definition findFirstHit (numCPU : Z) (completionOrder : list nat) (reader : Reader)
  (pattern : Regexp) (startPosition : Index) (beforePosition : option Index)
  (backwards : bool) : option (option Index) :=
  let workers := workersOf numCPU reader pattern startPosition beforePosition backwards in
  firstNonNil (sent workers completionOrder) 0 (List.length workers).

(** Every position some chunk worker of one [findFirstHit] call matched
    against the pattern. *)
Definition linesScanned (numCPU : Z) (reader : Reader) (pattern : Regexp)
  (startPosition : Index) (beforePosition : option Index) (backwards : bool)
  : list Index :=
  flat_map (fun worker =>
              match worker with
              | Some (_, scanned) => scanned
              | None => []
              end)
           (workersOf numCPU reader pattern startPosition beforePosition backwards).

(** The chunk numbers of a call, [0 .. chunkCount-1]. *)
Definition chunkNumbers (numCPU : Z) (reader : Reader) (startPosition : Index)
  (beforePosition : option Index) (backwards : bool) : list nat :=
  seq 0 (Z.to_nat (chunkCount numCPU reader startPosition beforePosition backwards)).

End Search.

Module Pager.

Import Twin Search.

(** ** Cells, rows and the pager *)

(** Modelled from the spec: [textstyles.CellWithMetadata], declared in
    [internal/textstyles] outside the sources: a rune, its style, and the
    flag that marks the first cell of a search hit. *)
Record CellWithMetadata : Type := mkCell {
  cellRune : rune;
  cellStyle : Style;
  StartsSearchHit : bool
}.

(** The composite literal [CellWithMetadata{Rune: r, Style: style}]. *)
Definition plainCell (r : rune) (style : Style) : CellWithMetadata := mkCell r style false.

(** The zero value of [CellWithMetadata]. *)
Definition zeroCell : CellWithMetadata := mkCell 0 StyleDefault false.

(** Modelled from the spec: [linemetadata.Number], the number shown in the
    gutter. *)
Definition Number : Type := Z.

(** Modelled from the spec: [reader.NumberedLine], a line with its index
    and its number. *)
Record NumberedLine : Type := mkNumberedLine {
  lineIndexOf : Index;
  lineNumberOf : Number;
  lineOf : Line
}.

Record renderedLine : Type := mkRenderedLine {
  inputLineIndex : Index;
  wrapIndex : Z;
  cellsOf : list CellWithMetadata;
  trailer : Style
}.

Record renderedScreen : Type := mkRenderedScreen {
  lines : list renderedLine;
  inputLines : list NumberedLine;
  numberPrefixWidth : Z;
  statusText : string
}.

(** Modelled from the spec: the pager modes, declared outside the sources.
    The search operations tell Viewing and NotFound apart; every other
    implementation of the mode interface is [PagerModeOther]. *)
Inductive PagerMode : Type :=
| PagerModeViewing
| PagerModeNotFound
| PagerModeOther.

(** Modelled from the spec: [scrollPosition] is declared in
    [internal/scrollPosition.go], which is not among the sources; a scroll
    position is a line index with a sub-line delta, and carries the name of
    the place that made it. *)
Record scrollPosition : Type := mkScrollPosition {
  positionIndex : Index;
  positionDelta : Z;
  positionName : string
}.

(** Modelled from the spec: [NewScrollPositionFromIndex], of
    [scrollPosition.go]: the position with this line at the top of the
    screen. *)
Definition NewScrollPositionFromIndex (index : Index) (source : string) : scrollPosition :=
  mkScrollPosition index 0 source.

(** Modelled from the spec: [scrollPositionFromIndex], of
    [scrollPosition.go]: the same position, handed out behind a pointer and
    with the arguments the other way round. *)
Definition scrollPositionFromIndex (source : string) (index : Index) : scrollPosition :=
  NewScrollPositionFromIndex index source.

(** One call of [findFirstHit], as the search log keeps it. *)
Record SearchCall : Type := mkSearchCall {
  callStart : Index;
  callBefore : option Index;
  callBackwards : bool;
  callResult : option Index;
  callScanned : list Index
}.

(** Modelled from the spec: [Pager] is declared in [pager.go], which is not
    among the sources; these are the fields that rendering and searching
    read or write.  [searchLog] is a ghost field: the [findFirstHit] calls
    made so far, the latest first. *)
Record Pager : Type := mkPager {
  reader : Reader;
  searchPattern : option Regexp;
  mode : PagerMode;
  position : scrollPosition;
  leftColumnZeroBased : Z;
  showLineNumbers : bool;
  ShowLineNumbers : bool;
  WrapLongLines : bool;
  ScrollLeftHint : CellWithMetadata;
  ScrollRightHint : CellWithMetadata;
  longestLineLength : Z;
  TargetLine : option Index;
  searchLog : list SearchCall
}.

Definition setMode (m : PagerMode) (p : Pager) : Pager :=
  mkPager (reader p) (searchPattern p) m (position p) (leftColumnZeroBased p)
    (showLineNumbers p) (ShowLineNumbers p) (WrapLongLines p) (ScrollLeftHint p)
    (ScrollRightHint p) (longestLineLength p) (TargetLine p) (searchLog p).

Definition setScrollPosition (sp : scrollPosition) (p : Pager) : Pager :=
  mkPager (reader p) (searchPattern p) (mode p) sp (leftColumnZeroBased p)
    (showLineNumbers p) (ShowLineNumbers p) (WrapLongLines p) (ScrollLeftHint p)
    (ScrollRightHint p) (longestLineLength p) (TargetLine p) (searchLog p).

Definition setLeftColumn (column : Z) (p : Pager) : Pager :=
  mkPager (reader p) (searchPattern p) (mode p) (position p) column
    (showLineNumbers p) (ShowLineNumbers p) (WrapLongLines p) (ScrollLeftHint p)
    (ScrollRightHint p) (longestLineLength p) (TargetLine p) (searchLog p).

Definition setShowLineNumbers (b : bool) (p : Pager) : Pager :=
  mkPager (reader p) (searchPattern p) (mode p) (position p) (leftColumnZeroBased p)
    b (ShowLineNumbers p) (WrapLongLines p) (ScrollLeftHint p)
    (ScrollRightHint p) (longestLineLength p) (TargetLine p) (searchLog p).

Definition setLongestLineLength (n : Z) (p : Pager) : Pager :=
  mkPager (reader p) (searchPattern p) (mode p) (position p) (leftColumnZeroBased p)
    (showLineNumbers p) (ShowLineNumbers p) (WrapLongLines p) (ScrollLeftHint p)
    (ScrollRightHint p) n (TargetLine p) (searchLog p).

(** Modelled from the spec: [p.setTargetLine(nil)] of [pager.go], which is
    not among the sources: there is no line to keep in sight any more. *)
Definition clearTargetLine (p : Pager) : Pager :=
  mkPager (reader p) (searchPattern p) (mode p) (position p) (leftColumnZeroBased p)
    (showLineNumbers p) (ShowLineNumbers p) (WrapLongLines p) (ScrollLeftHint p)
    (ScrollRightHint p) (longestLineLength p) None (searchLog p).

Definition logSearch (call : SearchCall) (p : Pager) : Pager :=
  mkPager (reader p) (searchPattern p) (mode p) (position p) (leftColumnZeroBased p)
    (showLineNumbers p) (ShowLineNumbers p) (WrapLongLines p) (ScrollLeftHint p)
    (ScrollRightHint p) (longestLineLength p) (TargetLine p) (call :: searchLog p).

(** What the pager gets from its surroundings: the screen it draws on, the
    machine it runs on, and the functions of the packages and files that are
    not among the sources (the tokenizer, the line wrapper, the reader's
    [GetLines], the scroll position arithmetic of [scrollPosition.go]). *)
Record Environment : Type := mkEnvironment {
  (** the number of columns a rune takes, [CellWithMetadata.Width()] *)
  runeWidth : rune -> Z;
  (** [linemetadata.Number.Format()], an ASCII string *)
  formatNumber : Number -> runes;
  lineNumbersStyle : Style;
  (** [runtime.NumCPU()] *)
  numCPU : Z;
  (** the order in which the chunk workers of a [findFirstHit] call with
      these arguments finish *)
  completionOrder : Index -> option Index -> bool -> list nat;
  (** [p.screen.Size()] *)
  screenWidth : Z;
  screenHeight : Z;
  (** [p.Reader().GetLines(index, wanted)]: the lines and the status text *)
  GetLines : Reader -> Index -> Z -> list NumberedLine * string;
  (** [line.HighlightedTokens(..., searchPattern)]: the styled runes, search
      hits tagged, and the trailer style *)
  HighlightedTokens : NumberedLine -> option Regexp -> list CellWithMetadata * Style;
  (** [wrapLine(width, cells)] *)
  wrapLine : Z -> list CellWithMetadata -> list (list CellWithMetadata);
  (** [cells.WithoutSpaceRight()] *)
  WithoutSpaceRight : list CellWithMetadata -> list CellWithMetadata;
  (** [line.DisplayWidth()] *)
  DisplayWidth : NumberedLine -> Z;
  (** [p.lineIndex()], nil when there are no lines *)
  lineIndex : Pager -> option Index;
  (** [p.deltaScreenLines()] *)
  deltaScreenLines : Pager -> Z;
  (** [p.visibleHeight()] *)
  visibleHeight : Pager -> Z;
  (** [p.getLineNumberPrefixLength(number)] *)
  getLineNumberPrefixLength : Pager -> Number -> Z;
  (** [p.isScrolledToEnd()] *)
  isScrolledToEnd : Pager -> bool;
  (** [*p.getLastVisiblePosition().NextLine(1).lineIndex(p)]: the first line
      below the bottom of the screen *)
  firstLineBelowScreen : Pager -> Index;
  (** [*p.scrollPosition.PreviousLine(1).lineIndex(p)]: the first line above
      the top of the screen *)
  firstLineAboveScreen : Pager -> Index
}.

Section Decoration.

Variable env : Environment.

Definition cellWidth (cell : CellWithMetadata) : Z := runeWidth env (cellRune cell).

(** [fmt.Sprintf("%*s ", width, text)]: [text] padded with spaces on the
    left to [width] runes, then a space. *)
Definition sprintfPadded (width : Z) (text : runes) : runes :=
  repeat runeSpace (Z.to_nat (width - Z.of_nat (List.length text))) ++ text ++ [runeSpace].

(** Generate a line number prefix of the given length. *)
Definition createLinePrefix (lineNumber : option Number) (numberPrefixLength : Z)
  : Result (list CellWithMetadata) :=
  if numberPrefixLength =? 0 then Ok []
  else if numberPrefixLength <? 0 then Panic (* make: cap out of range *)
  else
    match lineNumber with
    | None => Ok (repeat (plainCell runeSpace StyleDefault) (Z.to_nat numberPrefixLength))
    | Some number =>
        let lineNumberString := sprintfPadded (numberPrefixLength - 1) (formatNumber env number) in
        if Z.of_nat (List.length lineNumberString) >? numberPrefixLength then Panic
        else
          Ok (map (fun digit => plainCell digit (lineNumbersStyle env))
                  (firstn (Z.to_nat numberPrefixLength) lineNumberString))
    end.

(** The variables of the loop of [decorateLine] that finds the first and last
    fully visible runes. *)
Record Visible : Type := mkVisible {
  firstVisibleRuneIndex : option nat;
  lastVisibleRuneIndex : Z;
  screenColumn : Z;
  cutOffRuneToTheLeft : bool;
  cutOffRuneToTheRight : bool;
  canScrollRight : bool
}.

(** The loop itself, at rune [i]; [previous] is [contents[i-1]]. *)
Fixpoint findVisible (leftColumnZeroBased lastVisibleScreenColumn : Z)
  (previous : option CellWithMetadata) (i : nat) (contents : list CellWithMetadata)
  (v : Visible) : Visible :=
  match contents with
  | [] => v
  | char :: rest =>
      let v :=
        match firstVisibleRuneIndex v with
        | None =>
            if screenColumn v >=? leftColumnZeroBased then
              (* Found the first fully visible rune *)
              let cut :=
                match previous with
                | Some before =>
                    (screenColumn v >? leftColumnZeroBased) && (cellWidth before >? 1)
                | None => false
                end in
              mkVisible (Some i) (lastVisibleRuneIndex v) (screenColumn v)
                (if cut then true else cutOffRuneToTheLeft v)
                (cutOffRuneToTheRight v) (canScrollRight v)
            else v
        | Some _ => v
        end in
      let screenReached :=
        match firstVisibleRuneIndex v with Some _ => true | None => false end in
      let currentCharRightEdge := screenColumn v + cellWidth char - 1 in
      let beforeRightEdge := currentCharRightEdge <=? lastVisibleScreenColumn in
      if screenReached && negb beforeRightEdge then
        (* We're just outside the screen on the right; search done *)
        let currentCharLeftEdge := screenColumn v in
        mkVisible (firstVisibleRuneIndex v) (lastVisibleRuneIndex v) (screenColumn v)
          (cutOffRuneToTheLeft v)
          (if currentCharLeftEdge <=? lastVisibleScreenColumn then true
           else cutOffRuneToTheRight v)
          true
      else
        findVisible leftColumnZeroBased lastVisibleScreenColumn (Some char) (S i) rest
          (mkVisible (firstVisibleRuneIndex v)
             (if screenReached then Z.of_nat i else lastVisibleRuneIndex v)
             (screenColumn v + cellWidth char)
             (cutOffRuneToTheLeft v) (cutOffRuneToTheRight v) (canScrollRight v))
  end.

(** [contents[low:high]]; Go panics unless [0 <= low <= high <= len]. *)
Definition sliceCells (contents : list CellWithMetadata) (low high : Z)
  : Result (list CellWithMetadata) :=
  if (0 <=? low) && (low <=? high) && (high <=? Z.of_nat (List.length contents))
  then Ok (firstn (Z.to_nat (high - low)) (skipn (Z.to_nat low) contents))
  else Panic.

(** [line[len(line)-1] = cell] on a non-empty line. *)
Definition setLast (line : list CellWithMetadata) (cell : CellWithMetadata)
  : list CellWithMetadata :=
  removelast line ++ [cell].

(** Add the scroll left indicator. *)
Definition addScrollLeft (ScrollLeftHint : CellWithMetadata) (newLine : list CellWithMetadata)
  : list CellWithMetadata :=
  let newLine :=
    match newLine with
    | [] => [zeroCell] (* Make room for the scroll left indicator *)
    | _ => newLine
    end in
  match newLine with
  | [] => []
  | first :: rest =>
      if cellWidth first >? 1
      then
        (* Replace the first rune with two spaces, the leftmost of which then
           becomes the indicator *)
        ScrollLeftHint :: plainCell runeSpace (cellStyle ScrollLeftHint) :: rest
      else ScrollLeftHint :: rest
  end.

(** Add the scroll right indicator; [newLine[len(newLine)-1]] panics on an
    empty line. *)
Definition addScrollRight (ScrollRightHint : CellWithMetadata) (newLine : list CellWithMetadata)
  : Result (list CellWithMetadata) :=
  match newLine with
  | [] => Panic
  | _ =>
      if cellWidth (last newLine zeroCell) >? 1
      then
        Ok (setLast (setLast newLine (plainCell runeSpace (cellStyle ScrollRightHint))
                     ++ [plainCell runeSpace (cellStyle ScrollRightHint)])
                    ScrollRightHint)
      else Ok (setLast newLine ScrollRightHint)
  end.

(** Take a rendered line and decorate as needed: line number (or leading
    whitespace for wrapped lines), scroll left indicator, scroll right
    indicator.  [width] is the screen's width, the other arguments the
    pager's fields of the same names. *)
Definition decorateLine (width leftColumnZeroBased : Z)
  (ScrollLeftHint ScrollRightHint : CellWithMetadata)
  (lineNumberToShow : option Number) (numberPrefixLength : Z)
  (contents : list CellWithMetadata) : Result (list CellWithMetadata) :=
  if width <? 0 then Panic (* make: cap out of range *)
  else
  let! newLine := createLinePrefix lineNumberToShow numberPrefixLength in
      (* Find the first and last fully visible runes. *)
      let lastVisibleScreenColumn := leftColumnZeroBased + width - 1 in
      let v :=
        findVisible leftColumnZeroBased lastVisibleScreenColumn None 0 contents
          (mkVisible None (-1) numberPrefixLength false false false) in
      (* Prepend a space if we had to cut a rune in half at the start *)
      let newLine :=
        if cutOffRuneToTheLeft v
        then plainCell runeSpace (cellStyle ScrollLeftHint) :: newLine
        else newLine in
      (* Add the visible runes *)
      let visible :=
        match firstVisibleRuneIndex v with
        | Some first => sliceCells contents (Z.of_nat first) (lastVisibleRuneIndex v + 1)
        | None => Ok []
        end in
      let! visible := visible in
          let newLine := newLine ++ visible in
          (* Append a space if we had to cut a rune in half at the end *)
          let newLine :=
            if cutOffRuneToTheRight v
            then newLine ++ [plainCell runeSpace (cellStyle ScrollRightHint)]
            else newLine in
          (* Add scroll left indicator *)
          let canScrollLeft := leftColumnZeroBased >? 0 in
          let newLine :=
            if canScrollLeft && (Z.of_nat (List.length contents) >? 0)
            then addScrollLeft ScrollLeftHint newLine
            else newLine in
          (* Add scroll right indicator *)
          if canScrollRight v then addScrollRight ScrollRightHint newLine
          else Ok newLine.

(** The sum of the display widths of the cells of a row. *)
Definition rowWidth (row : list CellWithMetadata) : Z :=
  fold_right (fun cell total => cellWidth cell + total) 0 row.

End Decoration.

(** ** Rendering the screen, and scrolling to search hits *)

(** A pager method: it reads and writes the pager, and returns, panics or
    never returns. *)
Definition M (A : Type) : Type := Pager -> Result (A * Pager).

Section Scrolling.

Variable env : Environment.

(** The loop of [renderLine] over the wrapped parts of one input line. *)
Fixpoint decorateParts (p : Pager) (line : NumberedLine) (numberPrefixLength : Z)
  (wrapIndex : Z) (wrapped : list (list CellWithMetadata)) : Result (list renderedLine) :=
  match wrapped with
  | [] => Ok []
  | inputLinePart :: rest =>
      let visibleLineNumber :=
        if wrapIndex >? 0 then None else Some (lineNumberOf line) in
      let! decorated :=
        decorateLine env (screenWidth env) (leftColumnZeroBased p)
          (ScrollLeftHint p) (ScrollRightHint p)
          visibleLineNumber numberPrefixLength inputLinePart in
      let! more := decorateParts p line numberPrefixLength (wrapIndex + 1) rest in
      Ok (mkRenderedLine (lineIndexOf line) wrapIndex decorated StyleDefault :: more)
  end.

(** [rendered[len(rendered)-1].trailer = trailer] *)
Fixpoint setLastTrailer (rendered : list renderedLine) (style : Style)
  : Result (list renderedLine) :=
  match rendered with
  | [] => Panic
  | [r] => Ok [mkRenderedLine (inputLineIndex r) (wrapIndex r) (cellsOf r) style]
  | r :: rest =>
      let! rest' := setLastTrailer rest style in
      Ok (r :: rest')
  end.

(** Render one input line into one or more screen lines. *)
Definition renderLine (p : Pager) (line : NumberedLine) (numberPrefixLength : Z)
  : Result (list renderedLine) :=
  let '(styledRunes, highlightedTrailer) := HighlightedTokens env line (searchPattern p) in
  let wrapped :=
    if WrapLongLines p
    then wrapLine env (screenWidth env - numberPrefixLength) styledRunes
    else [styledRunes] (* All on one line *) in
  let! rendered := decorateParts p line numberPrefixLength 0 wrapped in
  if negb (Style_eqb highlightedTrailer StyleDefault)
  then setLastTrailer rendered highlightedTrailer
  else Ok rendered.

Definition maxZ (a b : Z) : Z := if b >? a then b else a.

(** The loop of [renderLines] over the input lines; it keeps
    [longestLineLength] up to date. *)
Fixpoint renderAll (inputLines : list NumberedLine) (numberPrefixLength : Z)
  : M (list renderedLine) := fun p =>
  match inputLines with
  | [] => Ok ([], p)
  | line :: rest =>
      let! rendering := renderLine p line numberPrefixLength in
      let onScreenLength :=
        fold_left
          (fun longest r =>
             maxZ longest (Z.of_nat (List.length (WithoutSpaceRight env (cellsOf r)))))
          rendering 0 in
      let displayLength := leftColumnZeroBased p + onScreenLength - 1 in
      let p :=
        if displayLength >=? longestLineLength p
        then setLongestLineLength displayLength p
        else p in
      let! (more, p) := renderAll rest numberPrefixLength p in
      Ok (rendering ++ more, p)
  end.

(** Which index in [allLines] the user wants to see at the top of the screen;
    [None] when there is none. *)
Fixpoint firstVisibleIndex (p : Pager) (allLines : list renderedLine) (index : nat)
  : option nat :=
  match allLines with
  | [] => None
  | line :: rest =>
      match lineIndex env p with
      | None => Some index (* Expected zero lines but got some anyway *)
      | Some wanted =>
          if (inputLineIndex line =? wanted) && (wrapIndex line =? deltaScreenLines env p)
          then Some index
          else firstVisibleIndex p rest (S index)
      end
  end.

(** Fill in the line trailer of one line. *)
Definition fillTrailer (line : renderedLine) : renderedLine :=
  if Style_eqb (trailer line) StyleDefault then line
  else
    mkRenderedLine (inputLineIndex line) (wrapIndex line)
      (cellsOf line ++
       repeat (plainCell runeSpace (trailer line))
              (Z.to_nat (screenWidth env - Z.of_nat (List.length (cellsOf line)))))
      (trailer line).

(** Render all lines that should go on the screen. *)
Definition renderLines : M renderedScreen := fun p =>
  let index := match lineIndex env p with Some i => i | None => 0 end in
  let '(numbered, status) := GetLines env (reader p) index (visibleHeight env p) in
  match numbered with
  | [] => Ok (mkRenderedScreen [] [] 0 status, p) (* Empty input, empty output *)
  | _ =>
      let lastVisibleLineNumber := lineNumberOf (last numbered (mkNumberedLine 0 0 (mkLine ""))) in
      let numberPrefixLength := getLineNumberPrefixLength env p lastVisibleLineNumber in
      let! (allLines, p) := renderAll numbered numberPrefixLength p in
      match firstVisibleIndex p allLines 0 with
      | None => Panic (* scrollPosition not found in allLines *)
      | Some first =>
          (* Drop the lines that should go above the screen *)
          let allLines := skipn first allLines in
          (* Drop the lines that would have gone below the screen *)
          let wantedLineCount := visibleHeight env p in
          let! allLines :=
            if Z.of_nat (List.length allLines) >? wantedLineCount
            then (if wantedLineCount <? 0 then Panic
                  else Ok (firstn (Z.to_nat wantedLineCount) allLines))
            else Ok allLines in
          Ok (mkRenderedScreen (map fillTrailer allLines) numbered numberPrefixLength status, p)
      end
  end.

(** Whether some cell of some row starts a search hit. *)
Definition anyStartsSearchHit (rows : list renderedLine) : bool :=
  existsb (fun row => existsb StartsSearchHit (cellsOf row)) rows.

(** Return true if any search hit is currently visible on screen. *)
Definition searchHitIsVisible : M bool := fun p =>
  let! (rendered, p) := renderLines p in
  match lines rendered with
  | [] => Ok (false, p) (* No lines on screen, no hits *)
  | contentLines => Ok (anyStartsSearchHit contentLines, p)
  end.

(** The [for] loop of [scrollRightToSearchHits]; [Loops] when [fuel]
    iterations were not enough. *)
Fixpoint scrollRightLoop (fuel : nat) (screenWidth maxLeftmostColumn numberPrefixWidth : Z)
  (restoreShowLineNumbers : bool) (restoreLeftColumn : Z) : M bool := fun p =>
  if leftColumnZeroBased p <? maxLeftmostColumn then
    match fuel with
    | O => Loops
    | S fuel' =>
        let firstNotVisibleColumn :=
          leftColumnZeroBased p + screenWidth - numberPrefixWidth - 1 in
        if firstNotVisibleColumn <? 0 then
          (* Screen is narrower than number prefix length *)
          Ok (false, setLeftColumn restoreLeftColumn (setShowLineNumbers restoreShowLineNumbers p))
        else
          let scrollToColumn :=
            if firstNotVisibleColumn >? maxLeftmostColumn then maxLeftmostColumn
            else firstNotVisibleColumn in
          let p := setLeftColumn scrollToColumn (setShowLineNumbers false p) in
          let! (visible, p) := searchHitIsVisible p in
          if visible then Ok (true, p) (* Found it! *)
          else scrollRightLoop fuel' screenWidth maxLeftmostColumn numberPrefixWidth
                 restoreShowLineNumbers restoreLeftColumn p
    end
  else
    (* Can't scroll right, pretend nothing happened *)
    Ok (false, setLeftColumn restoreLeftColumn (setShowLineNumbers restoreShowLineNumbers p)).

(** How many iterations the loop of [scrollRightToSearchHits] is followed
    for.  The loop has no bound of its own: on a screen one column wider than
    the gutter it scrolls nowhere, and goes round for as long as no hit
    shows. *)
Variable scrollFuel : nat.

(** Scroll right looking for search hits; true if one was found. *)
Definition scrollRightToSearchHits : M bool := fun p =>
  if WrapLongLines p then Ok (false, p) (* No horizontal scrolling when wrapping *)
  else
    let screenWidth := screenWidth env in
    let! (rendered, p) := renderLines p in
    let longestLineLength :=
      fold_left (fun longest inputLine => maxZ longest (DisplayWidth env inputLine))
                (inputLines rendered) 0 in
    let maxLeftmostColumn := longestLineLength - screenWidth in
    let restoreShowLineNumbers := showLineNumbers p in
    let restoreLeftColumn := leftColumnZeroBased p in
    scrollRightLoop scrollFuel
      screenWidth maxLeftmostColumn (numberPrefixWidth rendered)
      restoreShowLineNumbers restoreLeftColumn p.

(** [p.findFirstHit(startPosition, beforePosition, backwards)]: the chunked
    search over the pager's reader and pattern, entered into the search
    log. *)
Definition pagerFindFirstHit (startPosition : Index) (beforePosition : option Index)
  (backwards : bool) : M (option Index) := fun p =>
  match searchPattern p with
  | None => Panic (* nil pointer dereference *)
  | Some pattern =>
      match findFirstHit (numCPU env)
              (completionOrder env startPosition beforePosition backwards)
              (reader p) pattern startPosition beforePosition backwards with
      | None => Loops
      | Some result =>
          Ok (result,
              logSearch
                (mkSearchCall startPosition beforePosition backwards result
                   (linesScanned (numCPU env) (reader p) pattern
                      startPosition beforePosition backwards))
                p)
      end
  end.

(** After a hit: back to the left margin, and right again until the hit is
    on screen. *)
Definition showHit : M unit := fun p =>
  let p := setLeftColumn 0 p in
  let p := setShowLineNumbers (ShowLineNumbers p) p in
  let! (visible, p) := searchHitIsVisible p in
  if negb visible then
    let! (_, p) := scrollRightToSearchHits p in
    Ok (tt, p)
  else Ok (tt, p).

(** Scroll to the next search hit, while the user is typing the search
    string. *)
Definition scrollToSearchHits : M unit := fun p =>
  match searchPattern p with
  | None => Ok (tt, p) (* This is not a search *)
  | Some _ =>
      match lineIndex env p with
      | None => Ok (tt, p) (* No lines to search *)
      | Some lineIndex =>
          let! (visible, p) := searchHitIsVisible p in
          if visible then Ok (tt, p) (* Already on-screen *)
          else
            let! (found, p) := scrollRightToSearchHits p in
            if found then Ok (tt, p) (* Found it to the right, done! *)
            else
              let! (firstHitIndex, p) := pagerFindFirstHit lineIndex None false p in
              let! (firstHitIndex, p) :=
                match firstHitIndex with
                | Some _ => Ok (firstHitIndex, p)
                | None =>
                    let alreadyAtTheTop := lineIndex =? 0 in
                    if alreadyAtTheTop then Ok (None, p) (* No match, can't wrap, give up *)
                    else pagerFindFirstHit 0 (Some lineIndex) false p (* Try again from the top *)
                end in
              match firstHitIndex with
              | None => Ok (tt, p) (* No match, give up *)
              | Some hit =>
                  (* Found a match on some line *)
                  showHit (setScrollPosition (NewScrollPositionFromIndex hit "scrollToSearchHits") p)
              end
      end
  end.

Definition isViewing (p : Pager) : bool :=
  match mode p with PagerModeViewing => true | _ => false end.

Definition isNotFound (p : Pager) : bool :=
  match mode p with PagerModeNotFound => true | _ => false end.

(** Scroll to the next search hit, when the user presses 'n'. *)
Definition scrollToNextSearchHit : M unit := fun p =>
  match searchPattern p with
  | None => Ok (tt, p) (* Nothing to search for, never mind *)
  | Some _ =>
      if GetLineCount (reader p) =? 0 then Ok (tt, p) (* Nothing to search in *)
      else
        let! (found, p) := scrollRightToSearchHits p in
        if found then Ok (tt, p) (* Found it to the right, done! *)
        else if isViewing p && isScrolledToEnd env p
        then Ok (tt, setMode PagerModeNotFound p)
        else
          let! (firstSearchIndex, p) :=
            if isViewing p then
              (* Start searching on the first line below the bottom of the screen *)
              Ok (firstLineBelowScreen env p, p)
            else if isNotFound p then
              (* Restart searching from the top *)
              Ok (0, setMode PagerModeViewing p)
            else Panic (* Unknown search mode when finding next *) in
          let! (firstHitIndex, p) := pagerFindFirstHit firstSearchIndex None false p in
          match firstHitIndex with
          | None => Ok (tt, setMode PagerModeNotFound p)
          | Some hit =>
              let p := setScrollPosition (NewScrollPositionFromIndex hit "scrollToNextSearchHit") p in
              (* Don't let any search hit scroll out of sight *)
              let p := clearTargetLine p in
              showHit p
          end
  end.

(** Scroll backwards to the previous search hit, when the user presses 'N'. *)
Definition scrollToPreviousSearchHit : M unit := fun p =>
  match searchPattern p with
  | None => Ok (tt, p) (* Nothing to search for, never mind *)
  | Some _ =>
      if GetLineCount (reader p) =? 0 then Ok (tt, p) (* Nothing to search in *)
      else
        let! (firstSearchIndex, p) :=
          if isViewing p then
            (* Start searching on the first line above the top of the screen *)
            Ok (firstLineAboveScreen env p, p)
          else if isNotFound p then
            (* Restart searching from the bottom *)
            Ok (GetLineCount (reader p) - 1, setMode PagerModeViewing p)
          else Panic (* Unknown search mode when finding previous *) in
        let! (firstHitIndex, p) := pagerFindFirstHit firstSearchIndex None true p in
        match firstHitIndex with
        | None => Ok (tt, setMode PagerModeNotFound p)
        | Some hit =>
            let p :=
              setScrollPosition (scrollPositionFromIndex "scrollToPreviousSearchHit" hit) p in
            (* Don't let any search hit scroll out of sight *)
            Ok (tt, clearTargetLine p)
        end
  end.

(** The [for] loop of [scrollLeftToSearchHits]; [Loops] when [fuel]
    iterations were not enough. *)
Fixpoint scrollLeftLoop (fuel : nat) (screenWidth fullLeftRightmostVisibleColumn : Z)
  (restoreShowLineNumbers : bool) (restoreLeftColumn : Z) : M bool := fun p =>
  if (leftColumnZeroBased p >? 0) ||
     negb (Bool.eqb (showLineNumbers p) (ShowLineNumbers p))
  then
    match fuel with
    | O => Loops
    | S fuel' =>
        (* Pretend the current leftmost column is not visible, since it could
           be covered by scroll-left markers. *)
        let lastNotVisibleColumn := leftColumnZeroBased p in
        let p :=
          if lastNotVisibleColumn <=? fullLeftRightmostVisibleColumn
          then
            (* Going max left will show the column we want *)
            setLeftColumn 0 (setShowLineNumbers (ShowLineNumbers p) p)
          else
            (* Scroll left one screen *)
            let scrollToColumn := lastNotVisibleColumn - screenWidth + 1 in
            let scrollToColumn := if scrollToColumn <? 0 then 0 else scrollToColumn in
            setShowLineNumbers false (setLeftColumn scrollToColumn p) in
        let! (visible, p) := searchHitIsVisible p in
        if visible then Ok (true, p) (* Found it! *)
        else scrollLeftLoop fuel' screenWidth fullLeftRightmostVisibleColumn
               restoreShowLineNumbers restoreLeftColumn p
    end
  else
    (* Scrolling left didn't find anything, pretend nothing happened *)
    Ok (false, setLeftColumn restoreLeftColumn (setShowLineNumbers restoreShowLineNumbers p)).

(** Scroll left looking for search hits; true if one was found. *)
Definition scrollLeftToSearchHits : M bool := fun p =>
  if WrapLongLines p then Ok (false, p) (* No horizontal scrolling when wrapping *)
  else
    let restoreLeftColumn := leftColumnZeroBased p in
    let restoreShowLineNumbers := showLineNumbers p in
    let screenWidth := screenWidth env in
    (* If we go max left, which column will be the rightmost visible one? *)
    let p := setLeftColumn 0 (setShowLineNumbers (ShowLineNumbers p) p) in
    let! (rendered, p) := renderLines p in
    let fullLeftRightmostVisibleColumn := screenWidth - 2 - numberPrefixWidth rendered in
    let p := setShowLineNumbers restoreShowLineNumbers (setLeftColumn restoreLeftColumn p) in
    scrollLeftLoop scrollFuel screenWidth fullLeftRightmostVisibleColumn
      restoreShowLineNumbers restoreLeftColumn p.

End Scrolling.

(** ** Drawing the rendered lines *)

(** Modelled from the spec: [CellWithMetadata.ToStyledRune()], declared in
    [internal/textstyles] outside the sources: the rune of a cell in its
    style. *)
Definition ToStyledRune (cell : CellWithMetadata) : StyledRune :=
  NewStyledRune (cellRune cell) (cellStyle cell).

Section Drawing.

Variable env : Environment.

(** The loop of [redraw] over the cells of one row,
    [column += p.screen.SetCell(column, lastUpdatedScreenLineNumber, cell.ToStyledRune())];
    it returns [column]. *)
Fixpoint drawCells (screenLineNumber : Z) (cells : list CellWithMetadata) (column : Z)
  (screen : UnixScreen) : Result (Z * UnixScreen) :=
  match cells with
  | [] => Ok (column, screen)
  | cell :: rest =>
      let! (width, screen) :=
        SetCell (runeWidth env) column screenLineNumber (ToStyledRune cell) screen in
      drawCells screenLineNumber rest (column + width) screen
  end.

(** The loop of [redraw] over [renderedScreen.lines]; it returns
    [lastUpdatedScreenLineNumber]. *)
Fixpoint drawLines (screenLineNumber : Z) (lines : list renderedLine)
  (lastUpdatedScreenLineNumber : Z) (screen : UnixScreen) : Result (Z * UnixScreen) :=
  match lines with
  | [] => Ok (lastUpdatedScreenLineNumber, screen)
  | row :: rest =>
      let! (_, screen) := drawCells screenLineNumber (cellsOf row) 0 screen in
      drawLines (screenLineNumber + 1) rest screenLineNumber screen
  end.

End Drawing.

End Pager.

(* ================================================================== *)
(** * Part II: properties                                              *)
(* ================================================================== *)

Module TwinProps.

Import Twin.

(** ** Background colour response *)

(** C6. The sample response parses to the colour (0x12, 0x56, 0x9a), and
    every strict prefix that holds the whole header [ESC ]11;rgb:] (9 bytes
    or more) is reported incomplete but valid; the prefixes of 1 to 8 bytes,
    which stop inside the header, are reported invalid. *)
Theorem parseTerminalBgColorResponse_sample_and_prefixes :
  parseTerminalBgColorResponse sampleBgResponse = (Some (Color24Bit 18 86 154), true) /\
  Forall (fun n => parseTerminalBgColorResponse (firstBytes n sampleBgResponse) = (None, true))
         (seq 9 15) /\
  Forall (fun n => parseTerminalBgColorResponse (firstBytes n sampleBgResponse) = (None, false))
         (seq 1 8).
Proof.
  split; [vm_compute; reflexivity|].
  split; repeat (constructor; [vm_compute; reflexivity|]); constructor.
Qed.

(** ** Input decoding *)

Lemma lookupKeyCode_None_consume table s :
  lookupKeyCode table s = None ->
  consumeEncodedEvent table s =
  match mouseEventRegex_FindStringSubmatch s with
  | Some (whole, button, _, _) =>
      if runes_eqb button (runesOf "64")
      then (Some (EventMouse MouseWheelUp), trimPrefix s whole)
      else if runes_eqb button (runesOf "65")
      then (Some (EventMouse MouseWheelDown), trimPrefix s whole)
      else (None, [])
  | None =>
      match s with
      | [] => (None, [])
      | first :: rest =>
          if first =? runeESC then
            if negb (Z.of_nat (List.length s) =? 1)
            then (None, [])
            else (Some (EventKeyCode KeyEscape), rest)
          else if first =? runeCR then (Some (EventKeyCode KeyEnter), rest)
          else (Some (EventRune first), rest)
      end
  end.
Proof.
  intros H. unfold consumeEncodedEvent. rewrite H. reflexivity.
Qed.

Lemma hasPrefix_app s rest : hasPrefix (s ++ rest) s = true.
Proof.
  induction s as [|c s IH]; simpl; [reflexivity|].
  rewrite Z.eqb_refl, IH. reflexivity.
Qed.

Lemma trimPrefix_app s rest : trimPrefix (s ++ rest) s = rest.
Proof.
  unfold trimPrefix. rewrite hasPrefix_app.
  induction s as [|c s IH]; simpl; [reflexivity|exact IH].
Qed.

(** The mouse report of the spec's example, [ESC [<65;10;5M]. *)
Definition wheelReport65 : runes := runesOf (str1 ESC ++ "[<65;10;5M").

(** C7. A lone ESC decodes to the Escape key-code.  The report
    [ESC [<65;10;5M] is consumed exactly, the rest of the input is left
    untouched, but button 65 decodes to [MouseWheelDown]: wheel up is
    button 64. *)
Theorem consumeEncodedEvent_lone_escape_and_button_65 table rest :
  lookupKeyCode table [runeESC] = None ->
  lookupKeyCode table (wheelReport65 ++ rest) = None ->
  consumeEncodedEvent table [runeESC] = (Some (EventKeyCode KeyEscape), []) /\
  consumeEncodedEvent table (wheelReport65 ++ rest) = (Some (EventMouse MouseWheelDown), rest).
Proof.
  intros H1 H2. split.
  - rewrite (lookupKeyCode_None_consume _ _ H1). reflexivity.
  - rewrite (lookupKeyCode_None_consume _ _ H2).
    change (mouseEventRegex_FindStringSubmatch (wheelReport65 ++ rest))
      with (Some (wheelReport65, runesOf "65", runesOf "10", runesOf "5")).
    cbv beta iota. change (runes_eqb (runesOf "65") (runesOf "64")) with false.
    change (runes_eqb (runesOf "65") (runesOf "65")) with true.
    cbv iota. rewrite trimPrefix_app. reflexivity.
Qed.

(** A key table in the style of [twin/keys.go]: arrow up and page up. *)
Definition sampleKeyTable : list (runes * KeyCode) :=
  [ (runesOf (str1 ESC ++ "[A"), KeyOther 1); (runesOf (str1 ESC ++ "[5~"), KeyOther 2) ].

Lemma consumeEncodedEvent_lone_escape_and_button_65_witness :
  consumeEncodedEvent sampleKeyTable [runeESC] = (Some (EventKeyCode KeyEscape), []) /\
  consumeEncodedEvent sampleKeyTable (wheelReport65 ++ runesOf "q")
  = (Some (EventMouse MouseWheelDown), runesOf "q").
Proof.
  apply (consumeEncodedEvent_lone_escape_and_button_65 sampleKeyTable (runesOf "q"));
    reflexivity.
Defined.

(** C10. An input that starts with ESC, goes on, and is neither a known
    key sequence nor a handled mouse report yields no event and an empty
    remainder: all of it is dropped, whatever follows the unknown
    sequence. *)
Theorem consumeEncodedEvent_unknown_escape_drops_everything table c rest :
  lookupKeyCode table (runeESC :: c :: rest) = None ->
  (mouseEventRegex_FindStringSubmatch (runeESC :: c :: rest) = None \/
   exists whole button column row,
     mouseEventRegex_FindStringSubmatch (runeESC :: c :: rest)
     = Some (whole, button, column, row) /\
     runes_eqb button (runesOf "64") = false /\
     runes_eqb button (runesOf "65") = false) ->
  consumeEncodedEvent table (runeESC :: c :: rest) = (None, []).
Proof.
  intros Hkey Hmouse.
  rewrite (lookupKeyCode_None_consume _ _ Hkey).
  destruct Hmouse as [Hm | (whole & button & column & row & Hm & H64 & H65)].
  - rewrite Hm.
    assert (Hlen : (Z.of_nat (List.length (runeESC :: c :: rest)) =? 1) = false).
    { apply Z.eqb_neq. cbn [List.length]. lia. }
    rewrite Hlen. reflexivity.
  - rewrite Hm. rewrite H64, H65. reflexivity.
Qed.

(** An unknown sequence, [ESC [Z], followed by a well-formed wheel report. *)
Definition unknownThenWheel : runes :=
  runesOf (str1 ESC ++ "[Z" ++ str1 ESC ++ "[<64;1;1M").

Lemma consumeEncodedEvent_unknown_escape_drops_everything_witness :
  consumeEncodedEvent sampleKeyTable unknownThenWheel = (None, []).
Proof.
  apply (consumeEncodedEvent_unknown_escape_drops_everything sampleKeyTable 91
           (runesOf ("Z" ++ str1 ESC ++ "[<64;1;1M"))).
  - reflexivity.
  - left. reflexivity.
Defined.

(** ** The cell grid *)

(** The screen between two resizes: no notification pending, a size that is
    not zero, and a grid of that size. *)
Definition steady (screen : UnixScreen) : Prop :=
  sigwinch screen = false /\
  0 < widthAccessFromSizeOnly screen /\
  0 < heightAccessFromSizeOnly screen /\
  List.length (cells screen) = Z.to_nat (heightAccessFromSizeOnly screen) /\
  Forall (fun line => List.length line = Z.to_nat (widthAccessFromSizeOnly screen))
         (cells screen).

(** [screen.cells[row][column]], when there is such a cell. *)
Definition cellAt (screen : UnixScreen) (row column : Z) : option StyledRune :=
  if (row <? 0) || (column <? 0) then None
  else
    match nth_error (cells screen) (Z.to_nat row) with
    | Some line => nth_error line (Z.to_nat column)
    | None => None
    end.

Lemma storeAt_ok {A : Type} (l : list A) (i : nat) (x : A) :
  (i < List.length l)%nat ->
  exists l', storeAt l i x = Ok l' /\
    List.length l' = List.length l /\
    nth_error l' i = Some x /\
    (forall j, j <> i -> nth_error l' j = nth_error l j).
Proof.
  revert i. induction l as [|y l IH]; intros i Hi; simpl in Hi; [lia|].
  destruct i as [|i].
  - exists (x :: l). simpl. repeat split; try reflexivity.
    intros [|j] Hj; [congruence|reflexivity].
  - destruct (IH i ltac:(lia)) as (l' & Hs & Hl & Hn & Ho).
    exists (y :: l'). simpl. rewrite Hs. simpl. repeat split; auto.
    intros [|j] Hj; [reflexivity|]. simpl. apply Ho. congruence.
Qed.

Lemma Size_steady screen :
  steady screen ->
  Size screen = Ok (widthAccessFromSizeOnly screen, heightAccessFromSizeOnly screen, screen).
Proof.
  intros (Hs & Hw & Hh & _). unfold Size. rewrite Hs. simpl.
  destruct (Z.eqb_spec (widthAccessFromSizeOnly screen) 0); [lia|].
  destruct (Z.eqb_spec (heightAccessFromSizeOnly screen) 0); [lia|].
  reflexivity.
Qed.

Lemma storeCell_ok screen row column cell :
  steady screen ->
  0 <= row < heightAccessFromSizeOnly screen ->
  0 <= column < widthAccessFromSizeOnly screen ->
  exists screen', storeCell screen row column cell = Ok screen' /\
    widthAccessFromSizeOnly screen' = widthAccessFromSizeOnly screen /\
    heightAccessFromSizeOnly screen' = heightAccessFromSizeOnly screen /\
    cellAt screen' row column = Some cell /\
    (forall row' column', (row', column') <> (row, column) ->
       cellAt screen' row' column' = cellAt screen row' column').
Proof.
  intros (Hs & Hw & Hh & Hlen & Hrows) Hrow Hcol.
  unfold storeCell.
  assert (Hr : (Z.to_nat row < List.length (cells screen))%nat) by lia.
  destruct (nth_error (cells screen) (Z.to_nat row)) as [line|] eqn:Hline;
    [|apply nth_error_None in Hline; lia].
  assert (Hll : List.length line = Z.to_nat (widthAccessFromSizeOnly screen)).
  { rewrite Forall_forall in Hrows. apply Hrows. eapply nth_error_In; eauto. }
  destruct (storeAt_ok line (Z.to_nat column) cell ltac:(lia)) as (line' & H1 & Hl1 & Hn1 & Ho1).
  destruct (storeAt_ok (cells screen) (Z.to_nat row) line' Hr) as (cells' & H2 & Hl2 & Hn2 & Ho2).
  rewrite H1. simpl. rewrite H2. simpl.
  eexists. split; [reflexivity|]. simpl.
  repeat split.
  - unfold cellAt. simpl.
    destruct (Z.ltb_spec row 0); [lia|]. destruct (Z.ltb_spec column 0); [lia|]. simpl.
    rewrite Hn2. exact Hn1.
  - intros row' column' Hne. unfold cellAt. simpl.
    destruct (Z.ltb_spec row' 0); [reflexivity|].
    destruct (Z.ltb_spec column' 0); [reflexivity|]. simpl.
    destruct (Nat.eq_dec (Z.to_nat row') (Z.to_nat row)) as [Hrr | Hrr].
    + rewrite Hrr, Hn2, Hline. apply Ho1. intros Hcc.
      apply Hne. f_equal; lia.
    + rewrite (Ho2 _ Hrr). reflexivity.
Qed.

Section Grid.

Variable runeWidth : rune -> Z.



End Grid.

(** Runes from U+1100 on count as wide here: enough to tell [a] from a CJK
    ideograph. *)
Definition sampleWidth (r : rune) : Z := if r >=? 4352 then 2 else 1.

(** A 3 by 2 screen of zero cells, nothing pending. *)
Definition sampleScreen : UnixScreen :=
  mkUnixScreen 3 2 (newCells 3 2) false (Some (3, 2)) ColorCount24bit.

Lemma sampleScreen_steady : steady sampleScreen.
Proof.
  unfold steady, sampleScreen; simpl. repeat split; try lia.
  repeat constructor.
Qed.


(** ** Serialising a row *)

Lemma Color_eqb_eq a b : Color_eqb a b = true <-> a = b.
Proof.
  destruct a, b; simpl; split; intros H; try discriminate; try reflexivity;
    try (apply Z.eqb_eq in H; congruence);
    try (inversion H; subst; apply Z.eqb_refl).
  - apply andb_prop in H. destruct H as [H Hb]. apply andb_prop in H.
    destruct H as [Hr Hg].
    apply Z.eqb_eq in Hr, Hg, Hb. congruence.
  - inversion H; subst. rewrite !Z.eqb_refl. reflexivity.
Qed.

Section Serialising.

Variable runeWidth : rune -> Z.
Variable Printable : rune -> bool.
Variable AttrBold : AttrMask.
Variable AttrReverse : AttrMask.

(** A space that shows the background [color]: its own background, or for a
    reversed style its foreground, which then must not be the default. *)
Definition blankOn (color : Color) (cell : StyledRune) : Prop :=
  Rune cell = runeSpace /\
  if has (attrs (Style_ cell)) AttrReverse
  then fg (Style_ cell) = color /\ fg (Style_ cell) <> ColorDefault
  else bg (Style_ cell) = color.

(** The index-wise reading of "hidden": cell [i] follows a wide rune. *)
Definition hiddenAt (row : list StyledRune) (i : nat) : bool :=
  match i with
  | O => false
  | S before =>
      match nth_error row before with
      | Some cell => Width runeWidth cell =? 2
      | None => false
      end
  end.

(** The cells of [row] from index [i] on that are not hidden. *)
Fixpoint shownFrom (row : list StyledRune) (i : nat) (rest : list StyledRune)
  : list StyledRune :=
  match rest with
  | [] => []
  | cell :: rest' =>
      if hiddenAt row i then shownFrom row (S i) rest'
      else cell :: shownFrom row (S i) rest'
  end.

(** The runes of the [WriteRune] writes, in order. *)
Fixpoint writtenRunes (writes : list Write) : list rune :=
  match writes with
  | [] => []
  | WriteRune r :: rest => r :: writtenRunes rest
  | _ :: rest => writtenRunes rest
  end.

(** What [renderLine] writes for a cell's rune. *)
Definition shownRune (cell : StyledRune) : rune :=
  if Printable (Rune cell) then Rune cell else 63.

Lemma withoutHiddenRunesFrom_shown row :
  forall pre rest,
    row = pre ++ rest ->
    withoutHiddenRunesFrom runeWidth (last (map Some pre) None) rest
    = shownFrom row (List.length pre) rest.
Proof.
  intros pre rest. revert pre. induction rest as [|cell rest IH]; intros pre Hrow.
  - reflexivity.
  - simpl.
    assert (Hnext : withoutHiddenRunesFrom runeWidth (Some cell) rest
                    = shownFrom row (S (List.length pre)) rest).
    { specialize (IH (pre ++ [cell])).
      rewrite map_app in IH. change (map Some [cell]) with [Some cell] in IH.
      rewrite last_last, length_app in IH. simpl in IH.
      replace (List.length pre + 1)%nat with (S (List.length pre)) in IH by lia.
      apply IH. rewrite <- app_assoc. exact Hrow. }
    rewrite Hnext.
    assert (Hhid : match last (map Some pre) None with
                   | Some before => Width runeWidth before =? 2
                   | None => false
                   end = hiddenAt row (List.length pre)).
    { destruct pre as [|x pre'] using rev_ind; [reflexivity|].
      rewrite map_app. change (map Some [x]) with [Some x].
      rewrite last_last, length_app. simpl.
      replace (List.length pre' + 1)%nat with (S (List.length pre')) by lia.
      simpl. rewrite Hrow, <- app_assoc. simpl.
      rewrite nth_error_app2 by lia. rewrite Nat.sub_diag. reflexivity. }
    rewrite Hhid. reflexivity.
Qed.

Lemma withoutHiddenRunes_shown row :
  withoutHiddenRunes runeWidth row = shownFrom row 0 row.
Proof.
  exact (withoutHiddenRunesFrom_shown row [] row eq_refl).
Qed.

(** The cells that are kept are those at the indices that do not follow a
    wide rune, in order. *)
Lemma shownFrom_indices row :
  forall pre rest,
    row = pre ++ rest ->
    shownFrom row (List.length pre) rest
    = map (fun i => nth i row zeroStyledRune)
          (filter (fun i => negb (hiddenAt row i))
                  (seq (List.length pre) (List.length rest))).
Proof.
  intros pre rest. revert pre. induction rest as [|cell rest IH]; intros pre Hrow.
  - reflexivity.
  - cbn [shownFrom List.length seq filter].
    assert (Hnext : shownFrom row (S (List.length pre)) rest
                    = map (fun i => nth i row zeroStyledRune)
                          (filter (fun i => negb (hiddenAt row i))
                                  (seq (S (List.length pre)) (List.length rest)))).
    { specialize (IH (pre ++ [cell])). rewrite length_app in IH. cbn [List.length] in IH.
      replace (List.length pre + 1)%nat with (S (List.length pre)) in IH by lia.
      apply IH. rewrite <- app_assoc. exact Hrow. }
    rewrite Hnext.
    destruct (hiddenAt row (List.length pre)); cbn [negb map]; [reflexivity|].
    f_equal. rewrite Hrow, app_nth2, Nat.sub_diag by lia. reflexivity.
Qed.

Lemma withoutHiddenRunes_indices row :
  withoutHiddenRunes runeWidth row
  = map (fun i => nth i row zeroStyledRune)
        (filter (fun i => negb (hiddenAt row i)) (seq 0 (List.length row))).
Proof.
  rewrite withoutHiddenRunes_shown. exact (shownFrom_indices row [] row eq_refl).
Qed.

Lemma stripTrailingWhitespace_spec reversedRow :
  forall trailerBg trailerBgSet rest color,
    stripTrailingWhitespace AttrReverse reversedRow trailerBg trailerBgSet = (rest, color) ->
    exists stripped,
      reversedRow = stripped ++ rest /\
      Forall (blankOn color) stripped /\
      (trailerBgSet = true -> color = trailerBg) /\
      (stripped = [] -> color = trailerBg) /\
      (forall cell rest', rest = cell :: rest' -> ~ blankOn color cell).
Proof.
  induction reversedRow as [|lastCell before IH]; intros tb set rest color H.
  - simpl in H. inversion H; subst. exists []. repeat split; auto. discriminate.
  - simpl in H.
    destruct (Z.eqb_spec (Rune lastCell) runeSpace) as [Hsp|Hsp]; simpl in H.
    2:{ inversion H; subst. exists []. repeat split; auto.
        intros cell rest' Heq Hb. inversion Heq; subst. destruct Hb as [Hb _]. auto. }
    destruct (has (attrs (Style_ lastCell)) AttrReverse) eqn:Hrev.
    + destruct (Color_eqb (fg (Style_ lastCell)) ColorDefault) eqn:Hdef.
      * inversion H; subst. exists []. repeat split; auto.
        intros cell rest' Heq Hb. inversion Heq; subst.
        destruct Hb as [_ Hb]. rewrite Hrev in Hb. destruct Hb as [_ Hb].
        apply Color_eqb_eq in Hdef. auto.
      * destruct (Color_eqb (fg (Style_ lastCell)) (if set then tb else fg (Style_ lastCell)))
          eqn:Hsame; simpl in H.
        -- apply IH in H. destruct H as (stripped & Heq & Hall & Hset & _ & Hmax).
           specialize (Hset eq_refl). apply Color_eqb_eq in Hsame.
           exists (lastCell :: stripped). repeat split.
           ++ simpl. congruence.
           ++ constructor; [|exact Hall]. split; [exact Hsp|]. rewrite Hrev. split.
              ** congruence.
              ** intros Hd. apply Color_eqb_eq in Hd. congruence.
           ++ intros ->. congruence.
           ++ discriminate.
           ++ exact Hmax.
        -- destruct set.
           ++ inversion H; subst. exists []. repeat split; auto.
              intros cell rest' Heq Hb. inversion Heq; subst.
              destruct Hb as [_ Hb]. rewrite Hrev in Hb. destruct Hb as [Hb _].
              rewrite Hb in Hsame.
              assert (Color_eqb color color = true) by (apply Color_eqb_eq; reflexivity).
              congruence.
           ++ assert (Color_eqb (fg (Style_ lastCell)) (fg (Style_ lastCell)) = true)
                by (apply Color_eqb_eq; reflexivity).
              congruence.
    + destruct (Color_eqb (bg (Style_ lastCell)) (if set then tb else bg (Style_ lastCell)))
        eqn:Hsame; simpl in H.
      * apply IH in H. destruct H as (stripped & Heq & Hall & Hset & _ & Hmax).
        specialize (Hset eq_refl). apply Color_eqb_eq in Hsame.
        exists (lastCell :: stripped). repeat split.
        -- simpl. congruence.
        -- constructor; [|exact Hall]. split; [exact Hsp|]. rewrite Hrev. congruence.
        -- intros ->. congruence.
        -- discriminate.
        -- exact Hmax.
      * destruct set.
        -- inversion H; subst. exists []. repeat split; auto.
           intros cell rest' Heq Hb. inversion Heq; subst.
           destruct Hb as [_ Hb]. rewrite Hrev in Hb. rewrite Hb in Hsame.
           assert (Color_eqb color color = true) by (apply Color_eqb_eq; reflexivity).
           congruence.
        -- assert (Color_eqb (bg (Style_ lastCell)) (bg (Style_ lastCell)) = true)
             by (apply Color_eqb_eq; reflexivity).
           congruence.
Qed.

Lemma renderCells_writes cells :
  forall lastStyle colorCount writes finalStyle,
    renderCells Printable AttrBold cells lastStyle colorCount = (writes, finalStyle) ->
    writtenRunes writes = map shownRune cells /\
    forall s, ~ In (WriteString s) writes.
Proof.
  induction cells as [|cell rest IH]; intros lastStyle cc writes finalStyle H.
  - simpl in H. inversion H; subst. split; [reflexivity|]. intros s [].
  - simpl in H.
    destruct (if negb (Printable (Rune cell))
              then (mkStyle (NewColor16 7) (NewColor16 1) AttrBold None, 63)
              else (Style_ cell, Rune cell)) as [style runeToWrite] eqn:Hsub.
    destruct (renderCells Printable AttrBold rest style cc) as [writes' final'] eqn:Hrest.
    inversion H; subst. apply IH in Hrest. destruct Hrest as [Hrunes Hno].
    assert (Hr : runeToWrite = shownRune cell).
    { unfold shownRune. destruct (Printable (Rune cell)); simpl in Hsub;
        inversion Hsub; reflexivity. }
    split.
    + destruct (negb (Style_eqb style lastStyle)); simpl; rewrite Hrunes, Hr; reflexivity.
    + intros s Hin. apply in_app_or in Hin. destruct Hin as [Hin|Hin].
      * destruct (negb (Style_eqb style lastStyle)); simpl in Hin;
          [destruct Hin as [Hin|[]]; discriminate | contradiction].
      * destruct Hin as [Hin|Hin]; [discriminate|]. exact (Hno s Hin).
Qed.

Lemma writtenRunes_app a b : writtenRunes (a ++ b) = writtenRunes a ++ writtenRunes b.
Proof.
  induction a as [|w a IH]; [reflexivity|].
  destruct w; simpl; rewrite IH; reflexivity.
Qed.

Ltac noWriteString Hno Hin :=
  lazymatch type of Hin with
  | In _ [] => destruct Hin
  | In _ (_ :: _) => destruct Hin as [Hin|Hin]; [discriminate | noWriteString Hno Hin]
  | In _ (_ ++ _) =>
      apply in_app_or in Hin; destruct Hin as [Hin|Hin]; noWriteString Hno Hin
  | In _ _ => exact (Hno _ Hin)
  end.

(** What [renderLine] does to one row. *)
Lemma renderLine_spec row width colorCount writes n :
  renderLine runeWidth Printable AttrBold AttrReverse row width colorCount = (writes, n) ->
  exists kept trimmed color,
    shownFrom row 0 row = kept ++ trimmed /\
    n = Z.of_nat (List.length kept) /\
    Forall (blankOn color) trimmed /\
    (forall before cell, kept = before ++ [cell] -> ~ blankOn color cell) /\
    writtenRunes writes = map shownRune kept /\
    (n < width ->
     exists body lastStyle,
       writes = body ++ [WriteStyleUpdate (WithBackground StyleDefault color) lastStyle colorCount;
                         WriteString clearToEOL] /\
       ~ In (WriteString clearToEOL) body) /\
    (width <= n -> ~ In (WriteString clearToEOL) writes).
Proof.
  unfold renderLine. rewrite withoutHiddenRunes_shown.
  destruct (stripTrailingWhitespace AttrReverse (rev (shownFrom row 0 row)) ColorDefault false)
    as [reversedRow color] eqn:Hstrip.
  destruct (renderCells Printable AttrBold (rev reversedRow) StyleDefault colorCount)
    as [cellWrites lastStyle] eqn:Hcells.
  apply stripTrailingWhitespace_spec in Hstrip.
  destruct Hstrip as (stripped & Hrev & Hall & _ & _ & Hmax).
  apply renderCells_writes in Hcells. destruct Hcells as [Hrunes Hno].
  set (unlinked := WithHyperlink lastStyle None).
  assert (Hsplit : shownFrom row 0 row = rev reversedRow ++ rev stripped).
  { rewrite <- rev_app_distr, <- Hrev, rev_involutive. reflexivity. }
  assert (Hlast : forall before cell,
             rev reversedRow = before ++ [cell] -> ~ blankOn color cell).
  { intros before cell Hk. apply (Hmax cell (rev before)).
    rewrite <- (rev_involutive reversedRow), Hk, rev_app_distr. reflexivity. }
  assert (Hblank : Forall (blankOn color) (rev stripped)) by (apply Forall_rev; exact Hall).
  destruct (negb (Style_eqb unlinked lastStyle)) eqn:Hlink;
    destruct (Z.ltb_spec (Z.of_nat (List.length (rev reversedRow))) width) as [Hlt|Hge];
    intros H; inversion H; subst; clear H;
    exists (rev reversedRow), (rev stripped), color;
    (split; [exact Hsplit|]); (split; [reflexivity|]); (split; [exact Hblank|]);
    (split; [exact Hlast|]);
    (split; [cbn [app writtenRunes]; rewrite ?writtenRunes_app; cbn [app writtenRunes];
             rewrite Hrunes, ?app_nil_r; reflexivity|]).
  - split; [|intros Hw; lia]. intros _.
    exists (WriteString (str1 ESC ++ "[m") :: cellWrites ++
            [WriteStyleUpdate unlinked lastStyle colorCount]), unlinked.
    split.
    + cbn [app]. rewrite <- !app_assoc. reflexivity.
    + intros Hin. noWriteString Hno Hin.
  - split; [intros Hw; lia|]. intros _ Hin. noWriteString Hno Hin.
  - split; [|intros Hw; lia]. intros _.
    exists (WriteString (str1 ESC ++ "[m") :: cellWrites), lastStyle.
    split.
    + cbn [app]. reflexivity.
    + intros Hin. noWriteString Hno Hin.
  - split; [intros Hw; lia|]. intros _ Hin. noWriteString Hno Hin.
Qed.



End Serialising.

(** Every rune printable, bold and reverse the first and third attribute
    bits. *)
Definition allPrintable (r : rune) : bool := true.





End TwinProps.

Module SearchProps.

Import Search.

(** ** Scan order *)

(** Whether line [i] exists and matches. *)
Definition isHit (reader : Reader) (pattern : Regexp) (i : Index) : bool :=
  match GetLine reader i with
  | Some line => pattern (Plain line)
  | None => false
  end.

(** Walking a list of positions in order, up to the first hit: the hit, and
    the positions looked at. *)
Fixpoint scanList (reader : Reader) (pattern : Regexp) (positions : list Index) : Finding :=
  match positions with
  | [] => (None, [])
  | position :: rest =>
      if isHit reader pattern position then (Some position, [position])
      else
        let '(result, scanned) := scanList reader pattern rest in
        (result, position :: scanned)
  end.

(** [n] positions from [start] on, [d] apart. *)
Definition steps (d start : Z) (n : nat) : list Z :=
  map (fun k => start + d * Z.of_nat k) (seq 0 n).

(** The existing lines that a search from [start] is to look at, in scan
    order: downwards to the line before the bound or to the last line, or for
    a backwards search upwards to the line after the bound or to line 0. *)
Definition scanRange (reader : Reader) (start : Index) (before : option Index)
  (backwards : bool) : list Index :=
  if backwards then
    steps (-1) start (Z.to_nat (start - match before with Some b => b | None => -1 end))
  else
    steps 1 start
      (Z.to_nat (Z.min (match before with Some b => b | None => GetLineCount reader end)
                       (GetLineCount reader) - start)).

(** The caller's range is a range: a bound lies strictly beyond the start in
    scan direction, and a backwards search starts at an existing line. *)
Definition properRange (reader : Reader) (start : Index) (before : option Index)
  (backwards : bool) : Prop :=
  0 <= start /\
  (backwards = true -> start < GetLineCount reader) /\
  match before with
  | Some b => if backwards then 0 <= b < start else start < b
  | None => True
  end.

Lemma steps_S d start n :
  steps d start (S n) = start :: steps d (start + d) n.
Proof.
  unfold steps. simpl. f_equal; [lia|].
  rewrite <- seq_shift, map_map. apply map_ext. intros k. lia.
Qed.

Lemma steps_app d start n m :
  steps d start (n + m) = steps d start n ++ steps d (start + d * Z.of_nat n) m.
Proof.
  revert start. induction n as [|n IH]; intros start.
  - simpl. replace (start + d * 0) with start by lia. reflexivity.
  - replace (S n + m)%nat with (S (n + m)) by lia.
    rewrite !steps_S, IH. cbn [app]. do 3 f_equal.
    rewrite Nat2Z.inj_succ. lia.
Qed.

Lemma in_steps_up start n j :
  In j (steps 1 start n) <-> start <= j < start + Z.of_nat n.
Proof.
  unfold steps. rewrite in_map_iff. split.
  - intros (k & <- & Hk). apply in_seq in Hk. lia.
  - intros H. exists (Z.to_nat (j - start)). split; [lia|]. apply in_seq. lia.
Qed.

Lemma in_steps_down start n j :
  In j (steps (-1) start n) <-> start - Z.of_nat n < j <= start.
Proof.
  unfold steps. rewrite in_map_iff. split.
  - intros (k & <- & Hk). apply in_seq in Hk. lia.
  - intros H. exists (Z.to_nat (start - j)). split; [lia|]. apply in_seq. lia.
Qed.

Lemma NoDup_steps d start n : d <> 0 -> NoDup (steps d start n).
Proof.
  intros Hd. unfold steps.
  apply Finite.Injective_map_NoDup_in; [|apply seq_NoDup].
  intros x y _ _ H. nia.
Qed.

Lemma GetLine_Some reader i :
  0 <= i < GetLineCount reader -> exists line, GetLine reader i = Some line.
Proof.
  unfold GetLine, GetLineCount. intros H.
  destruct (Z.ltb_spec i 0); [lia|].
  destruct (nth_error reader (Z.to_nat i)) eqn:E; [eauto|].
  apply nth_error_None in E. lia.
Qed.

Lemma GetLine_None reader i :
  GetLineCount reader <= i -> GetLine reader i = None.
Proof.
  unfold GetLine, GetLineCount. intros H.
  destruct (Z.ltb_spec i 0); [reflexivity|].
  apply nth_error_None. lia.
Qed.

(** ** The chunk loop *)

Lemma GetLine_inside reader i line :
  GetLine reader i = Some line -> 0 <= i < GetLineCount reader.
Proof.
  unfold GetLine, GetLineCount.
  destruct (Z.ltb_spec i 0) as [Hneg|Hpos]; [discriminate|]. intros H.
  assert (Hlt : (Z.to_nat i < List.length reader)%nat)
    by (apply nth_error_Some; rewrite H; discriminate).
  lia.
Qed.

(** How many lines lie between a position and the end of the store (the top,
    when going backwards), the position's own line included. *)
Definition linesAhead (reader : Reader) (position : Index) (backwards : bool) : Z :=
  if (position <? 0) || (GetLineCount reader <=? position) then 0
  else if backwards then position + 1
  else GetLineCount reader - position.

(** The loop returns, whatever the start, the bound and the direction: one
    iteration more than there are lines ahead is enough. *)
Lemma _findFirstHit_loop_returns reader pattern before backwards :
  forall fuel position,
    linesAhead reader position backwards < Z.of_nat fuel ->
    exists finding,
      _findFirstHit_loop fuel reader position pattern before backwards = Some finding.
Proof.
  induction fuel as [|fuel IH]; intros position Hfuel.
  - unfold linesAhead in Hfuel.
    destruct ((position <? 0) || (GetLineCount reader <=? position)) eqn:Hout; [lia|].
    apply orb_false_iff in Hout. destruct Hout as [H0 H1].
    apply Z.ltb_ge in H0. apply Z.leb_gt in H1. destruct backwards; lia.
  - cbn [_findFirstHit_loop].
    destruct (GetLine reader position) as [line|] eqn:Hline; [|eauto].
    apply GetLine_inside in Hline.
    destruct (pattern (Plain line)); [eauto|].
    destruct (backwards && (position =? 0)) eqn:Htop; [eauto|].
    match goal with
    | |- context [if ?atBound then _ else _] => destruct atBound; [eauto|]
    end.
    match goal with
    | |- context [_findFirstHit_loop fuel reader ?next] =>
        destruct (IH next) as [[result scanned] Hnext]; [|rewrite Hnext; simpl; eauto]
    end.
    unfold linesAhead in *. unfold NonWrappingAdd.
    destruct ((position <? 0) || (GetLineCount reader <=? position)) eqn:Hout.
    { apply orb_true_iff in Hout. destruct Hout as [H|H];
        [apply Z.ltb_lt in H|apply Z.leb_le in H]; lia. }
    destruct backwards.
    + cbn [andb] in Htop. apply Z.eqb_neq in Htop.
      replace (Z.max 0 (position + -1)) with (position - 1) by lia.
      destruct ((position - 1 <? 0) || (GetLineCount reader <=? position - 1)); lia.
    + replace (Z.max 0 (position + 1)) with (position + 1) by lia.
      destruct ((position + 1 <? 0) || (GetLineCount reader <=? position + 1)); lia.
Qed.

(** [_findFirstHit] returns on every input. *)
Lemma _findFirstHit_returns reader start pattern before backwards :
  exists finding, _findFirstHit reader start pattern before backwards = Some finding.
Proof.
  unfold _findFirstHit. apply _findFirstHit_loop_returns.
  unfold linesAhead, GetLineCount.
  destruct ((start <? 0) || (Z.of_nat (List.length reader) <=? start)) eqn:Hout; [lia|].
  apply orb_false_iff in Hout. destruct Hout as [H0 H1].
  apply Z.ltb_ge in H0. apply Z.leb_gt in H1. destruct backwards; lia.
Qed.

Lemma loop_forward reader pattern before :
  forall n fuel position,
    0 <= position ->
    match before with Some b => position < b | None => True end ->
    n = Z.to_nat (Z.min (match before with Some b => b | None => GetLineCount reader end)
                        (GetLineCount reader) - position) ->
    (n < fuel)%nat ->
    _findFirstHit_loop fuel reader position pattern before false
    = Some (scanList reader pattern (steps 1 position n)).
Proof.
  induction n as [|n IH]; intros fuel position Hpos Hbound Hn Hfuel.
  - destruct fuel as [|fuel]; [lia|]. simpl.
    rewrite GetLine_None; [reflexivity|]. destruct before; lia.
  - destruct fuel as [|fuel]; [lia|].
    rewrite steps_S. simpl. unfold isHit.
    destruct (GetLine_Some reader position) as [line Hline]; [destruct before; lia|].
    rewrite Hline.
    destruct (pattern (Plain line)); [reflexivity|].
    unfold NonWrappingAdd. rewrite Z.max_r by lia.
    destruct before as [b|].
    + destruct (Z.eqb_spec (position + 1) b) as [Heq|Hne].
      * assert (n = 0%nat) by lia. subst n. reflexivity.
      * rewrite (IH fuel (position + 1)) by lia.
        destruct (scanList reader pattern (steps 1 (position + 1) n)). reflexivity.
    + rewrite (IH fuel (position + 1)) by first [lia | exact I].
      destruct (scanList reader pattern (steps 1 (position + 1) n)). reflexivity.
Qed.

Lemma loop_backward reader pattern before :
  forall n fuel position,
    0 <= position < GetLineCount reader ->
    match before with Some b => 0 <= b < position | None => True end ->
    n = Z.to_nat (position - match before with Some b => b | None => -1 end) ->
    (n <= fuel)%nat ->
    _findFirstHit_loop fuel reader position pattern before true
    = Some (scanList reader pattern (steps (-1) position n)).
Proof.
  induction n as [|n IH]; intros fuel position Hpos Hbound Hn Hfuel.
  - destruct before; lia.
  - destruct fuel as [|fuel]; [lia|].
    rewrite steps_S. simpl. unfold isHit.
    destruct (GetLine_Some reader position) as [line Hline]; [lia|].
    rewrite Hline.
    destruct (pattern (Plain line)); [reflexivity|].
    destruct (Z.eqb_spec position 0) as [H0|H0].
    + assert (n = 0%nat) by (destruct before; lia). subst n. reflexivity.
    + unfold NonWrappingAdd. rewrite Z.max_r by lia.
      destruct before as [b|].
      * destruct (Z.eqb_spec (position + -1) b) as [Heq|Hne].
        -- assert (n = 0%nat) by lia. subst n. reflexivity.
        -- rewrite (IH fuel (position + -1)) by lia.
           destruct (scanList reader pattern (steps (-1) (position + -1) n)). reflexivity.
      * rewrite (IH fuel (position + -1)) by first [lia | exact I].
        destruct (scanList reader pattern (steps (-1) (position + -1) n)). reflexivity.
Qed.

(** A chunk search over a proper range returns, and it has walked the range
    in scan order up to its first hit. *)
Lemma _findFirstHit_scans reader pattern start before backwards :
  properRange reader start before backwards ->
  _findFirstHit reader start pattern before backwards
  = Some (scanList reader pattern (scanRange reader start before backwards)).
Proof.
  intros (Hstart & Hback & Hbound). unfold _findFirstHit, scanRange.
  destruct backwards.
  - specialize (Hback eq_refl).
    apply loop_backward;
      [ lia
      | destruct before; [exact Hbound|exact I]
      | reflexivity
      | unfold GetLineCount in *; destruct before; lia ].
  - apply loop_forward;
      [ lia
      | destruct before; [exact Hbound|exact I]
      | reflexivity
      | unfold GetLineCount in *; destruct before; lia ].
Qed.

(** ** Walking a range in pieces *)

Lemma scanList_app reader pattern A B :
  scanList reader pattern (A ++ B)
  = match scanList reader pattern A with
    | (Some i, scanned) => (Some i, scanned)
    | (None, scanned) =>
        let '(result, scanned') := scanList reader pattern B in
        (result, scanned ++ scanned')
    end.
Proof.
  induction A as [|a A IH]; simpl.
  - destruct (scanList reader pattern B). reflexivity.
  - destruct (isHit reader pattern a); [reflexivity|].
    rewrite IH. destruct (scanList reader pattern A) as [[i|] scanned];
      [reflexivity|].
    destruct (scanList reader pattern B). reflexivity.
Qed.

(** What a walk looked at is a prefix of its positions; all of them when
    there was no hit. *)
Lemma scanList_prefix reader pattern positions :
  exists rest,
    positions = snd (scanList reader pattern positions) ++ rest /\
    (fst (scanList reader pattern positions) = None -> rest = []).
Proof.
  induction positions as [|a positions (rest & Heq & Hnone)]; simpl.
  - exists []. split; [reflexivity|auto].
  - destruct (isHit reader pattern a).
    + exists positions. split; [reflexivity|discriminate].
    + destruct (scanList reader pattern positions) as [result scanned].
      simpl in *. exists rest. split; [congruence|exact Hnone].
Qed.

Lemma scanList_first reader pattern positions :
  match fst (scanList reader pattern positions) with
  | Some i =>
      exists earlier later,
        positions = earlier ++ i :: later /\
        isHit reader pattern i = true /\
        forall j, In j earlier -> isHit reader pattern j = false
  | None => forall j, In j positions -> isHit reader pattern j = false
  end.
Proof.
  induction positions as [|a positions IH]; simpl.
  - intros j [].
  - destruct (isHit reader pattern a) eqn:Ha.
    + simpl. exists [], positions. split; [reflexivity|]. split; [exact Ha|]. intros j [].
    + destruct (scanList reader pattern positions) as [[i|] scanned]; simpl in *.
      * destruct IH as (earlier & later & Heq & Hi & Hearlier).
        exists (a :: earlier), later. split; [simpl; congruence|]. split; [exact Hi|].
        intros j [<-|Hj]; [exact Ha|exact (Hearlier j Hj)].
      * intros j [<-|Hj]; [exact Ha|exact (IH j Hj)].
Qed.

(** The positions the walks over the pieces [pieces] looked at. *)
Definition scannedOf (reader : Reader) (pattern : Regexp) (pieces : list (list Index))
  : list Index :=
  List.concat (map (fun piece => snd (scanList reader pattern piece)) pieces).

Lemma NoDup_app_iff {A : Type} (l l' : list A) :
  NoDup (l ++ l') <-> NoDup l /\ NoDup l' /\ forall x, In x l -> ~ In x l'.
Proof.
  induction l as [|a l IH]; simpl.
  - split; [intros H; repeat split; [constructor|exact H|intros x []]|tauto].
  - split.
    + intros H. inversion H as [|? ? Hnotin Hnd]; subst.
      apply IH in Hnd. destruct Hnd as (H1 & H2 & H3).
      repeat split; auto.
      * constructor; [|exact H1]. intros Hin. apply Hnotin, in_or_app. auto.
      * intros x [<-|Hx]; [|auto]. intros Hin. apply Hnotin, in_or_app. auto.
    + intros (H1 & H2 & H3). inversion H1 as [|? ? Hnotin Hnd]; subst.
      constructor.
      * intros Hin. apply in_app_or in Hin. destruct Hin as [Hin|Hin]; [auto|].
        exact (H3 a (or_introl eq_refl) Hin).
      * apply IH. repeat split; auto.
Qed.

Lemma scannedOf_incl reader pattern pieces :
  incl (scannedOf reader pattern pieces) (List.concat pieces).
Proof.
  unfold scannedOf. induction pieces as [|piece pieces IH]; simpl; [intros x []|].
  destruct (scanList_prefix reader pattern piece) as (rest & Heq & _).
  intros x Hx. apply in_app_or in Hx. apply in_or_app. destruct Hx as [Hx|Hx].
  - left. rewrite Heq. apply in_or_app. auto.
  - right. exact (IH x Hx).
Qed.

Lemma scannedOf_NoDup reader pattern pieces :
  NoDup (List.concat pieces) -> NoDup (scannedOf reader pattern pieces).
Proof.
  induction pieces as [|piece pieces IH]; simpl; intros H; [constructor|].
  apply NoDup_app_iff in H. destruct H as (H1 & H2 & H3).
  destruct (scanList_prefix reader pattern piece) as (rest & Heq & _).
  unfold scannedOf. simpl. apply NoDup_app_iff. repeat split.
  - rewrite Heq in H1. apply NoDup_app_iff in H1. tauto.
  - exact (IH H2).
  - intros x Hx Hin. apply (H3 x).
    + rewrite Heq. apply in_or_app. auto.
    + exact (scannedOf_incl reader pattern pieces x Hin).
Qed.

Lemma scannedOf_all reader pattern pieces :
  fst (scanList reader pattern (List.concat pieces)) = None ->
  scannedOf reader pattern pieces = List.concat pieces.
Proof.
  unfold scannedOf. induction pieces as [|piece pieces IH]; simpl; [reflexivity|].
  rewrite scanList_app.
  destruct (scanList_prefix reader pattern piece) as (rest & Heq & Hnone).
  destruct (scanList reader pattern piece) as [[i|] scanned] eqn:Hpiece; simpl in *;
    [discriminate|].
  intros H. rewrite (Hnone eq_refl), app_nil_r in Heq.
  destruct (scanList reader pattern (List.concat pieces)) as [result scanned'] eqn:Hrest.
  simpl in H. rewrite IH by exact H. congruence.
Qed.

(** ** Workers and channels *)

Lemma chunkWorkers_map reader pattern starts before backwards :
  forall remaining i,
    chunkWorkers reader pattern starts remaining i before backwards
    = map (fun ks => _findFirstHit reader (snd ks) pattern
                       (chunkBefore starts before (fst ks)) backwards)
          (combine (seq i (List.length remaining)) remaining).
Proof.
  induction remaining as [|s remaining IH]; intros i; simpl; [reflexivity|].
  rewrite IH. reflexivity.
Qed.

Lemma combine_seq_map {A : Type} (g : nat -> A) n :
  forall i, combine (seq i n) (map g (seq i n)) = map (fun k => (k, g k)) (seq i n).
Proof.
  induction n as [|n IH]; intros i; simpl; [reflexivity|]. rewrite IH. reflexivity.
Qed.

Lemma nth_error_map_seq {A : Type} (g : nat -> A) n k :
  (k < n)%nat -> nth_error (map g (seq 0 n)) k = Some (g k).
Proof.
  intros H. rewrite nth_error_map, nth_error_seq.
  destruct (Nat.ltb_spec k n); [reflexivity|lia].
Qed.

Lemma receive_sent workers order k finding :
  In k order ->
  nth_error workers k = Some (Some finding) ->
  receive (sent workers order) k = Some finding.
Proof.
  intros Hin Hk. induction order as [|j order IH]; [destruct Hin|].
  simpl. destruct (Nat.eq_dec j k) as [->|Hne].
  - rewrite Hk. simpl. rewrite Nat.eqb_refl. reflexivity.
  - destruct Hin as [Heq|Hin]; [contradiction|].
    destruct (nth_error workers j) as [[f|]|]; simpl; auto.
    destruct (Nat.eqb_spec j k); [contradiction|]. auto.
Qed.

Lemma firstNonNil_pieces reader pattern order pieces :
  (forall k, (k < List.length pieces)%nat -> In k order) ->
  forall pre rest,
    pieces = pre ++ rest ->
    firstNonNil
      (sent (map (fun piece => Some (scanList reader pattern piece)) pieces) order)
      (List.length pre) (List.length rest)
    = Some (fst (scanList reader pattern (List.concat rest))).
Proof.
  intros Horder pre rest. revert pre.
  induction rest as [|piece rest IH]; intros pre Heq; simpl; [reflexivity|].
  rewrite (receive_sent _ _ _ (scanList reader pattern piece)).
  - rewrite scanList_app.
    destruct (scanList reader pattern piece) as [[i|] scanned]; [reflexivity|].
    specialize (IH (pre ++ [piece])). rewrite length_app in IH. simpl in IH.
    replace (List.length pre + 1)%nat with (S (List.length pre)) in IH by lia.
    rewrite IH by (rewrite <- app_assoc; exact Heq).
    destruct (scanList reader pattern (List.concat rest)). reflexivity.
  - apply Horder. rewrite Heq, length_app. simpl. lia.
  - rewrite nth_error_map, Heq, nth_error_app2, Nat.sub_diag by lia. reflexivity.
Qed.

(** ** The chunks of one search *)

(** The exclusive end of chunk [k] of [N], whose starts are [g 0], [g 1],
    ... *)
Definition endOf (g : nat -> Index) (N : nat) (before : option Index) (k : nat)
  : option Index :=
  if (S k <? N)%nat then Some (g (S k)) else before.

Lemma workers_pieces reader pattern before backwards N (g : nat -> Index) :
  (forall k, (k < N)%nat -> properRange reader (g k) (endOf g N before k) backwards) ->
  chunkWorkers reader pattern (map g (seq 0 N)) (map g (seq 0 N)) 0 before backwards
  = map (fun piece => Some (scanList reader pattern piece))
        (map (fun k => scanRange reader (g k) (endOf g N before k) backwards) (seq 0 N)).
Proof.
  intros Hproper.
  rewrite chunkWorkers_map, length_map, length_seq, combine_seq_map, !map_map.
  apply map_ext_in. intros k Hk. apply in_seq in Hk. cbn [fst snd].
  assert (Hend : chunkBefore (map g (seq 0 N)) before k = endOf g N before k).
  { unfold chunkBefore, endOf. rewrite length_map, length_seq.
    destruct (Nat.ltb_spec (S k) N); [|reflexivity].
    apply nth_error_map_seq. lia. }
  rewrite Hend. apply _findFirstHit_scans. apply Hproper. lia.
Qed.

Lemma pieces_concat reader before backwards N (g : nat -> Index) :
  (forall k, (S k < N)%nat ->
     scanRange reader (g k) (Some (g (S k))) backwards ++
     scanRange reader (g (S k)) before backwards
     = scanRange reader (g k) before backwards) ->
  forall m i,
    (i + S m = N)%nat ->
    List.concat (map (fun k => scanRange reader (g k) (endOf g N before k) backwards)
                     (seq i (S m)))
    = scanRange reader (g i) before backwards.
Proof.
  intros Hsplit. induction m as [|m IH]; intros i Hi.
  - simpl. unfold endOf. destruct (Nat.ltb_spec (S i) N); [lia|].
    apply app_nil_r.
  - change (seq i (S (S m))) with (i :: seq (S i) (S m)).
    cbn [map List.concat]. rewrite (IH (S i)) by lia.
    unfold endOf at 1. destruct (Nat.ltb_spec (S i) N); [|lia].
    apply Hsplit. lia.
Qed.

(** The start of chunk [k]. *)
Definition startOf (numCPU : Z) (reader : Reader) (start : Index) (before : option Index)
  (backwards : bool) (k : nat) : Index :=
  NonWrappingAdd start
    (Z.of_nat k * (if backwards then -1 else 1) *
     chunkSize numCPU reader start before backwards).

Lemma searchStarts_map numCPU reader start before backwards :
  searchStarts numCPU reader start before backwards
  = map (startOf numCPU reader start before backwards)
        (seq 0 (Z.to_nat (chunkCount numCPU reader start before backwards))).
Proof.
  unfold searchStarts, upto. rewrite map_map. reflexivity.
Qed.

Lemma chunk_arithmetic numCPU reader start before backwards :
  1 <= numCPU ->
  let n := chunkCount numCPU reader start before backwards in
  let size := chunkSize numCPU reader start before backwards in
  n = 1 \/
  (2 <= n /\ 1 <= size /\
   n * size <= linesCount reader start before backwards).
Proof.
  intros Hcpu. unfold chunkSize, chunkCount.
  set (L := linesCount reader start before backwards).
  destruct (Z.ltb_spec L numCPU) as [Hlt|Hge]; [left; reflexivity|].
  destruct (Z.eq_dec numCPU 1) as [->|Hne]; [left; reflexivity|].
  right. rewrite Z.quot_div_nonneg by lia.
  repeat split; [lia| |apply Z.mul_div_le; lia].
  apply Z.div_le_lower_bound; lia.
Qed.

Lemma chunk_offsets n size L k :
  2 <= n -> 1 <= size -> n * size <= L ->
  Z.of_nat k < n ->
  0 <= Z.of_nat k * size /\ Z.of_nat k * size + size <= L.
Proof.
  intros Hn Hsize HL Hk. split; [nia|].
  assert (Z.of_nat k * size + size <= n * size) by nia. lia.
Qed.

Lemma steps_split_up a mid hi count :
  a <= mid -> mid <= hi ->
  steps 1 a (Z.to_nat (Z.min mid count - a)) ++ steps 1 mid (Z.to_nat (Z.min hi count - mid))
  = steps 1 a (Z.to_nat (Z.min hi count - a)).
Proof.
  intros Ha Hmid.
  destruct (Z.le_gt_cases mid count) as [Hle|Hgt].
  - replace (Z.to_nat (Z.min hi count - a))
      with (Z.to_nat (Z.min mid count - a) + Z.to_nat (Z.min hi count - mid))%nat by lia.
    rewrite steps_app. do 2 f_equal. lia.
  - replace (Z.to_nat (Z.min hi count - mid)) with 0%nat by lia.
    replace (Z.min hi count) with (Z.min mid count) by lia.
    apply app_nil_r.
Qed.

Lemma steps_split_down a mid lo :
  mid <= a -> lo <= mid ->
  steps (-1) a (Z.to_nat (a - mid)) ++ steps (-1) mid (Z.to_nat (mid - lo))
  = steps (-1) a (Z.to_nat (a - lo)).
Proof.
  intros Ha Hmid.
  replace (Z.to_nat (a - lo)) with (Z.to_nat (a - mid) + Z.to_nat (mid - lo))%nat by lia.
  rewrite steps_app. do 2 f_equal. lia.
Qed.

Lemma split_forward reader a mid before :
  a <= mid ->
  mid <= match before with Some b => b | None => GetLineCount reader end ->
  scanRange reader a (Some mid) false ++ scanRange reader mid before false
  = scanRange reader a before false.
Proof.
  intros Ha Hmid. unfold scanRange. cbv beta iota.
  destruct before; apply steps_split_up; assumption.
Qed.

Lemma split_backward reader a mid before :
  mid <= a ->
  match before with Some b => b | None => -1 end <= mid ->
  scanRange reader a (Some mid) true ++ scanRange reader mid before true
  = scanRange reader a before true.
Proof.
  intros Ha Hmid. unfold scanRange. cbv beta iota.
  destruct before; apply steps_split_down; assumption.
Qed.

(** The chunks of a search over a proper range are proper ranges
    themselves, and laid end to end they are the range. *)
Lemma chunks_cover numCPU reader start before backwards :
  1 <= numCPU ->
  properRange reader start before backwards ->
  let N := Z.to_nat (chunkCount numCPU reader start before backwards) in
  let g := startOf numCPU reader start before backwards in
  (exists m, N = S m) /\
  g 0%nat = start /\
  (forall k, (k < N)%nat -> properRange reader (g k) (endOf g N before k) backwards) /\
  (forall k, (S k < N)%nat ->
     scanRange reader (g k) (Some (g (S k))) backwards ++
     scanRange reader (g (S k)) before backwards
     = scanRange reader (g k) before backwards).
Proof.
  intros Hcpu (Hstart & Hback & Hbound) N g.
  assert (Hg0 : g 0%nat = start).
  { unfold g, startOf, NonWrappingAdd. simpl. lia. }
  pose proof (chunk_arithmetic numCPU reader start before backwards Hcpu) as Harith.
  cbv zeta in Harith.
  set (n := chunkCount numCPU reader start before backwards) in *.
  set (size := chunkSize numCPU reader start before backwards) in *.
  set (L := linesCount reader start before backwards) in *.
  destruct Harith as [H1 | (Hn & Hsize & HL)].
  - (* a single chunk *)
    assert (HN : N = 1%nat) by (unfold N; lia).
    split; [exists 0%nat; exact HN|]. split; [exact Hg0|]. split.
    + intros k Hk. assert (k = 0%nat) by lia. subst k.
      unfold endOf. rewrite HN. simpl. rewrite Hg0.
      repeat split; assumption.
    + intros k Hk. lia.
  - assert (HNn : Z.of_nat N = n) by (unfold N; lia).
    assert (Hoff : forall k, (k < N)%nat ->
                     0 <= Z.of_nat k * size /\ Z.of_nat k * size + size <= L).
    { intros k Hk. apply (chunk_offsets n size L k); lia. }
    split; [exists (Nat.pred N); lia|]. split; [exact Hg0|].
    destruct backwards.
    + (* upwards *)
      specialize (Hback eq_refl).
      assert (HLb : L = start - match before with Some b => b | None => -1 end).
      { unfold L, linesCount. destruct before; lia. }
      assert (Hlo : -1 <= match before with Some b => b | None => -1 end).
      { destruct before; lia. }
      assert (Hgk : forall k, (k < N)%nat -> g k = start - Z.of_nat k * size).
      { intros k Hk. destruct (Hoff k Hk). unfold g, startOf, NonWrappingAdd. fold size.
        lia. }
      split.
      * intros k Hk. destruct (Hoff k Hk) as [Hk0 Hk1]. rewrite (Hgk k Hk).
        unfold properRange, endOf. split; [lia|]. split; [lia|].
        destruct (Nat.ltb_spec (S k) N) as [HS|HS].
        -- rewrite (Hgk (S k) HS). destruct (Hoff (S k) HS).
           rewrite Nat2Z.inj_succ in *. lia.
        -- destruct before as [b|]; [lia|exact I].
      * intros k Hk. rewrite (Hgk k ltac:(lia)), (Hgk (S k) Hk).
        destruct (Hoff (S k) Hk). rewrite Nat2Z.inj_succ in *.
        apply split_backward; [lia|].
        clear Hbound. destruct before; cbv beta iota in HLb |- *; lia.
    + (* downwards *)
      assert (HLb : L = match before with Some b => b | None => GetLineCount reader end - start).
      { unfold L, linesCount. destruct before; lia. }
      assert (Hgk : forall k, (k < N)%nat -> g k = start + Z.of_nat k * size).
      { intros k Hk. destruct (Hoff k Hk). unfold g, startOf, NonWrappingAdd. fold size.
        lia. }
      split.
      * intros k Hk. destruct (Hoff k Hk) as [Hk0 Hk1]. rewrite (Hgk k Hk).
        unfold properRange, endOf. split; [lia|]. split; [discriminate|].
        destruct (Nat.ltb_spec (S k) N) as [HS|HS].
        -- rewrite (Hgk (S k) HS). rewrite Nat2Z.inj_succ. lia.
        -- destruct before as [b|]; [lia|exact I].
      * intros k Hk. rewrite (Hgk k ltac:(lia)), (Hgk (S k) Hk).
        destruct (Hoff (S k) Hk). rewrite Nat2Z.inj_succ in *.
        apply split_forward; [lia|].
        clear Hbound. destruct before; cbv beta iota in HLb |- *; lia.
Qed.

(** The first hit of the caller's range in scan order: what a single walk
    over the whole range finds. *)
Definition firstInScanOrder (reader : Reader) (pattern : Regexp) (start : Index)
  (before : option Index) (backwards : bool) : option Index :=
  fst (scanList reader pattern (scanRange reader start before backwards)).

(** The pieces the chunk workers of a call walk. *)
Definition piecesOf (numCPU : Z) (reader : Reader) (start : Index) (before : option Index)
  (backwards : bool) : list (list Index) :=
  let N := Z.to_nat (chunkCount numCPU reader start before backwards) in
  let g := startOf numCPU reader start before backwards in
  map (fun k => scanRange reader (g k) (endOf g N before k) backwards) (seq 0 N).

Lemma workersOf_pieces numCPU reader pattern start before backwards :
  1 <= numCPU ->
  properRange reader start before backwards ->
  workersOf numCPU reader pattern start before backwards
  = map (fun piece => Some (scanList reader pattern piece))
        (piecesOf numCPU reader start before backwards) /\
  List.concat (piecesOf numCPU reader start before backwards)
  = scanRange reader start before backwards.
Proof.
  intros Hcpu Hproper.
  destruct (chunks_cover numCPU reader start before backwards Hcpu Hproper)
    as ((m & HN) & Hg0 & Hranges & Hsplit).
  split.
  - unfold workersOf. cbv zeta. rewrite searchStarts_map.
    apply workers_pieces. exact Hranges.
  - unfold piecesOf. cbv zeta.
    set (N := Z.to_nat (chunkCount numCPU reader start before backwards)) in *.
    replace (seq 0 N) with (seq 0 (S m)) by (rewrite HN; reflexivity).
    rewrite (pieces_concat reader before backwards N _ Hsplit m 0%nat) by lia.
    rewrite Hg0. reflexivity.
Qed.

(** Whatever the number of cores and the order in which the workers finish,
    a search over a proper range answers, with the first hit in scan
    order. *)
Lemma firstNonNil_returns workers order :
  (forall k, (k < List.length workers)%nat -> In k order) ->
  (forall k, (k < List.length workers)%nat ->
             exists finding, nth_error workers k = Some (Some finding)) ->
  forall remaining i,
    (i + remaining = List.length workers)%nat ->
    exists result, firstNonNil (sent workers order) i remaining = Some result.
Proof.
  intros Horder Hsent.
  induction remaining as [|remaining IH]; intros i Hi; simpl; [eauto|].
  destruct (Hsent i ltac:(lia)) as [finding Hfinding].
  rewrite (receive_sent _ _ _ finding) by first [apply Horder; lia | exact Hfinding].
  destruct finding as [[hit|] scanned]; [eauto|].
  apply IH. lia.
Qed.

(** [findFirstHit] returns on every input, once every worker gets to send
    what it found. *)
Lemma findFirstHit_returns numCPU order reader pattern start before backwards :
  (forall k, In k (chunkNumbers numCPU reader start before backwards) -> In k order) ->
  exists result,
    findFirstHit numCPU order reader pattern start before backwards = Some result.
Proof.
  intros Horder. unfold findFirstHit. cbv zeta.
  set (workers := workersOf numCPU reader pattern start before backwards).
  assert (Hlen : List.length workers
                 = Z.to_nat (chunkCount numCPU reader start before backwards)).
  { subst workers. unfold workersOf. cbv zeta.
    rewrite chunkWorkers_map, length_map, length_combine, length_seq, Nat.min_id.
    unfold searchStarts, upto. rewrite !length_map, length_seq. reflexivity. }
  apply firstNonNil_returns with (i := 0%nat); [| |reflexivity].
  - intros k Hk. apply Horder. unfold chunkNumbers. apply in_seq. lia.
  - intros k Hk. subst workers. unfold workersOf in *. cbv zeta in *.
    rewrite chunkWorkers_map in *. rewrite length_map in Hk.
    rewrite nth_error_map.
    match goal with
    | |- context [nth_error ?l k] =>
        destruct (nth_error l k) as [[j s]|] eqn:Hnth;
        [|apply nth_error_None in Hnth; lia]
    end.
    cbn [option_map fst snd].
    destruct (_findFirstHit_returns reader s pattern
                (chunkBefore (searchStarts numCPU reader start before backwards) before j)
                backwards) as [finding Hfinding].
    rewrite Hfinding. eauto.
Qed.

Lemma findFirstHit_scans numCPU order reader pattern start before backwards :
  1 <= numCPU ->
  properRange reader start before backwards ->
  (forall k, In k (chunkNumbers numCPU reader start before backwards) -> In k order) ->
  findFirstHit numCPU order reader pattern start before backwards
  = Some (firstInScanOrder reader pattern start before backwards).
Proof.
  intros Hcpu Hproper Horder.
  destruct (workersOf_pieces numCPU reader pattern start before backwards Hcpu Hproper)
    as [Hworkers Hconcat].
  unfold findFirstHit. cbv zeta. rewrite Hworkers, length_map.
  rewrite (firstNonNil_pieces reader pattern order _ ) with (pre := []) by
    first [ reflexivity
          | intros k Hk; apply Horder; unfold chunkNumbers; apply in_seq;
            unfold piecesOf in Hk; rewrite length_map, length_seq in Hk; lia ].
  unfold firstInScanOrder. rewrite Hconcat. reflexivity.
Qed.

Lemma linesScanned_pieces numCPU reader pattern start before backwards :
  1 <= numCPU ->
  properRange reader start before backwards ->
  linesScanned numCPU reader pattern start before backwards
  = scannedOf reader pattern (piecesOf numCPU reader start before backwards).
Proof.
  intros Hcpu Hproper.
  destruct (workersOf_pieces numCPU reader pattern start before backwards Hcpu Hproper)
    as [Hworkers _].
  unfold linesScanned, scannedOf. rewrite Hworkers.
  rewrite flat_map_concat_map, map_map. reflexivity.
Qed.

(** ** The first hit *)

(** The lines a search is asked to look at. *)
Definition inRange (reader : Reader) (start : Index) (before : option Index)
  (backwards : bool) (j : Index) : Prop :=
  if backwards then
    0 <= j <= start /\ match before with Some b => b < j | None => True end
  else
    start <= j < GetLineCount reader /\ match before with Some b => j < b | None => True end.

(** [j] comes before [i] in scan order. *)
Definition scansBefore (backwards : bool) (j i : Index) : Prop :=
  if backwards then i < j else j < i.

Lemma app_inj_length {A : Type} (a a' b b' : list A) :
  List.length a = List.length a' -> a ++ b = a' ++ b' -> a = a' /\ b = b'.
Proof.
  revert a'. induction a as [|x a IH]; intros [|x' a'] Hlen H; simpl in *;
    try discriminate; [auto|].
  inversion H; subst. destruct (IH a' ltac:(lia) ltac:(assumption)) as [-> ->]. auto.
Qed.

Lemma steps_length d start n : List.length (steps d start n) = n.
Proof. unfold steps. rewrite length_map, length_seq. reflexivity. Qed.

Lemma steps_split_at d start n earlier i later :
  steps d start n = earlier ++ i :: later ->
  earlier = steps d start (List.length earlier) /\
  i = start + d * Z.of_nat (List.length earlier).
Proof.
  intros H.
  assert (Hn : n = (List.length earlier + S (List.length later))%nat).
  { rewrite <- (steps_length d start n), H, length_app. reflexivity. }
  rewrite Hn, steps_app, steps_S in H.
  apply app_inj_length in H; [|rewrite steps_length; reflexivity].
  destruct H as [H1 H2]. inversion H2. auto.
Qed.

Lemma first_in_range reader pattern start before backwards :
  properRange reader start before backwards ->
  match firstInScanOrder reader pattern start before backwards with
  | Some i =>
      inRange reader start before backwards i /\
      isHit reader pattern i = true /\
      forall j, inRange reader start before backwards j ->
                scansBefore backwards j i -> isHit reader pattern j = false
  | None =>
      forall j, inRange reader start before backwards j -> isHit reader pattern j = false
  end.
Proof.
  intros (Hstart & Hback & Hbound). unfold firstInScanOrder.
  pose proof (scanList_first reader pattern (scanRange reader start before backwards)) as H.
  assert (Hin : forall j, In j (scanRange reader start before backwards)
                          <-> inRange reader start before backwards j).
  { intros j. unfold scanRange, inRange. destruct backwards.
    - rewrite in_steps_down. specialize (Hback eq_refl).
      destruct before; cbv beta iota in Hbound |- *; intuition lia.
    - rewrite in_steps_up.
      destruct before; cbv beta iota in Hbound |- *; intuition lia. }
  destruct (fst (scanList reader pattern (scanRange reader start before backwards)))
    as [i|].
  - destruct H as (earlier & later & Heq & Hi & Hearlier).
    split; [apply Hin; rewrite Heq; apply in_or_app; simpl; auto|].
    split; [exact Hi|].
    intros j Hj Hbefore. apply Hearlier.
    unfold scanRange in Heq. destruct backwards.
    + apply steps_split_at in Heq. destruct Heq as [Hsteps Hieq].
      rewrite Hsteps. apply in_steps_down. unfold inRange, scansBefore in Hj, Hbefore.
      cbv beta iota in Hj, Hbefore. lia.
    + apply steps_split_at in Heq. destruct Heq as [Hsteps Hieq].
      rewrite Hsteps. apply in_steps_up. unfold inRange, scansBefore in Hj, Hbefore.
      cbv beta iota in Hj, Hbefore. lia.
  - intros j Hj. apply H, Hin, Hj.
Qed.

(** C1 (amended). For a proper range (a bound strictly beyond the start in
    scan direction; a backwards search starting at an existing line), on any
    number of cores and for every order in which the chunk workers finish,
    [findFirstHit] answers with the first hit of the range in scan order: a
    line of the range (so never one at or past the bound) that matches, with
    no matching line of the range before it; or with no match when no line
    of the range matches.  The answer does not depend on the number of
    cores or on the completion order. *)
Theorem findFirstHit_first_hit_in_scan_order
  numCPU order reader pattern start before backwards :
  1 <= numCPU ->
  properRange reader start before backwards ->
  Permutation order (chunkNumbers numCPU reader start before backwards) ->
  findFirstHit numCPU order reader pattern start before backwards
  = Some (firstInScanOrder reader pattern start before backwards) /\
  match firstInScanOrder reader pattern start before backwards with
  | Some i =>
      inRange reader start before backwards i /\
      isHit reader pattern i = true /\
      forall j, inRange reader start before backwards j ->
                scansBefore backwards j i -> isHit reader pattern j = false
  | None =>
      forall j, inRange reader start before backwards j -> isHit reader pattern j = false
  end.
Proof.
  intros Hcpu Hproper Hperm. split.
  - apply findFirstHit_scans; [exact Hcpu|exact Hproper|].
    intros k Hk. apply Permutation_sym in Hperm.
    exact (Permutation_in k Hperm Hk).
  - apply first_in_range. exact Hproper.
Qed.

(** The lines one search looks at: each line of the range at most once and
    no other line; all of the range when there is no hit. *)
Lemma linesScanned_range numCPU reader pattern start before backwards :
  1 <= numCPU ->
  properRange reader start before backwards ->
  NoDup (linesScanned numCPU reader pattern start before backwards) /\
  (forall j, In j (linesScanned numCPU reader pattern start before backwards) ->
             inRange reader start before backwards j) /\
  (firstInScanOrder reader pattern start before backwards = None ->
   forall j, inRange reader start before backwards j ->
             In j (linesScanned numCPU reader pattern start before backwards)).
Proof.
  intros Hcpu Hproper.
  rewrite (linesScanned_pieces numCPU reader pattern start before backwards Hcpu Hproper).
  destruct (workersOf_pieces numCPU reader pattern start before backwards Hcpu Hproper)
    as [_ Hconcat].
  assert (Hin : forall j, In j (scanRange reader start before backwards)
                          <-> inRange reader start before backwards j).
  { destruct Hproper as (Hstart & Hback & Hbound).
    intros j. unfold scanRange, inRange. destruct backwards.
    - rewrite in_steps_down. specialize (Hback eq_refl).
      destruct before; cbv beta iota in Hbound |- *; intuition lia.
    - rewrite in_steps_up.
      destruct before; cbv beta iota in Hbound |- *; intuition lia. }
  split; [|split].
  - apply scannedOf_NoDup. rewrite Hconcat. unfold scanRange.
    destruct backwards; apply NoDup_steps; lia.
  - intros j Hj. apply Hin. rewrite <- Hconcat.
    exact (scannedOf_incl reader pattern _ j Hj).
  - intros Hnone j Hj. unfold firstInScanOrder in Hnone. rewrite <- Hconcat in Hnone.
    rewrite (scannedOf_all reader pattern _ Hnone), Hconcat. apply Hin. exact Hj.
Qed.

Lemma scanList_until_hit reader pattern earlier j later :
  (forall i, In i earlier -> isHit reader pattern i = false) ->
  In j (snd (scanList reader pattern (earlier ++ j :: later))).
Proof.
  induction earlier as [|a earlier IH]; intros Hearlier; cbn [app scanList].
  - destruct (isHit reader pattern j); [left; reflexivity|].
    destruct (scanList reader pattern later) as [result scanned]. left. reflexivity.
  - rewrite (Hearlier a (or_introl eq_refl)).
    destruct (scanList reader pattern (earlier ++ j :: later)) as [result scanned] eqn:Hrest.
    right. apply IH. intros i Hi. apply Hearlier. right. exact Hi.
Qed.

(** The workers look at every line of the range that has no hit before it
    in the range. *)
Lemma linesScanned_until_hit numCPU reader pattern start before backwards :
  1 <= numCPU ->
  properRange reader start before backwards ->
  forall j,
    inRange reader start before backwards j ->
    (forall i, inRange reader start before backwards i -> scansBefore backwards i j ->
               isHit reader pattern i = false) ->
    In j (linesScanned numCPU reader pattern start before backwards).
Proof.
  intros Hcpu Hproper j Hj Hclear.
  rewrite (linesScanned_pieces numCPU reader pattern start before backwards Hcpu Hproper).
  destruct (workersOf_pieces numCPU reader pattern start before backwards Hcpu Hproper)
    as [_ Hconcat].
  assert (Hin : forall i, In i (scanRange reader start before backwards)
                          <-> inRange reader start before backwards i).
  { destruct Hproper as (Hstart & Hback & Hbound).
    intros i. unfold scanRange, inRange. destruct backwards.
    - rewrite in_steps_down. specialize (Hback eq_refl).
      destruct before; cbv beta iota in Hbound |- *; intuition lia.
    - rewrite in_steps_up.
      destruct before; cbv beta iota in Hbound |- *; intuition lia. }
  apply Hin in Hj. rewrite <- Hconcat in Hj.
  apply in_concat in Hj. destruct Hj as (piece & Hpiece & Hjpiece).
  unfold scannedOf. apply in_concat.
  exists (snd (scanList reader pattern piece)).
  split; [apply in_map_iff; exists piece; split; [reflexivity|exact Hpiece]|].
  destruct (in_split _ _ Hjpiece) as (earlier & later & Hsplit).
  rewrite Hsplit. apply scanList_until_hit. intros i Hi.
  assert (Hirange : inRange reader start before backwards i).
  { apply Hin. rewrite <- Hconcat. apply in_concat. exists piece.
    split; [exact Hpiece|]. rewrite Hsplit. apply in_or_app. left. exact Hi. }
  apply Hclear; [exact Hirange|].
  unfold piecesOf in Hpiece. cbv zeta in Hpiece.
  apply in_map_iff in Hpiece. destruct Hpiece as (k & Hk & _).
  unfold scanRange in Hk. unfold scansBefore.
  destruct backwards; rewrite <- Hk in Hsplit;
    destruct (steps_split_at _ _ _ _ _ _ Hsplit) as [Hearlier Hjeq];
    rewrite Hearlier in Hi;
    [apply in_steps_down in Hi|apply in_steps_up in Hi]; lia.
Qed.

(** The store of the spec's examples, and its pattern [x]. *)
Definition store5 : Reader := map mkLine ["a"; "xb"; "c"; "xd"; "e"]%string.

Fixpoint containsX (text : string) : bool :=
  match text with
  | EmptyString => false
  | String c rest => Ascii.eqb c "x" || containsX rest
  end.

Lemma findFirstHit_first_hit_in_scan_order_witness :
  findFirstHit 2 [1%nat; 0%nat] store5 containsX 2 None false = Some (Some 3) /\
  findFirstHit 3 [2%nat; 0%nat; 1%nat] store5 containsX 4 (Some 1) true = Some (Some 3).
Proof.
  split.
  - refine (proj1 (findFirstHit_first_hit_in_scan_order 2 [1%nat; 0%nat] store5 containsX
                     2 None false _ _ _)).
    + lia.
    + unfold properRange, GetLineCount, store5. simpl.
      split; [lia|]. split; [discriminate|exact I].
    + change (Permutation [1%nat; 0%nat] [0%nat; 1%nat]). apply perm_swap.
  - refine (proj1 (findFirstHit_first_hit_in_scan_order 3 [2%nat; 0%nat; 1%nat] store5
                     containsX 4 (Some 1) true _ _ _)).
    + lia.
    + unfold properRange, GetLineCount, store5. simpl.
      split; [lia|]. split; [intros _; lia|lia].
    + change (Permutation [2%nat; 0%nat; 1%nat] [0%nat; 1%nat; 2%nat]).
      apply Permutation_trans with [0%nat; 2%nat; 1%nat];
        [apply perm_swap | apply perm_skip, perm_swap].
Defined.

(** C1, as stated, fails.  With the bound on the start line itself, that
    line is searched and returned (an index at the bound), and when it does
    not match the scan runs on past the bound; and a backwards search that
    starts past the last line finds a hit on three cores and none on one. *)
Lemma findFirstHit_bound_not_exclusive_at_start :
  findFirstHit 1 [0%nat] store5 containsX 1 (Some 1) false = Some (Some 1) /\
  findFirstHit 1 [0%nat] store5 containsX 0 (Some 0) false = Some (Some 1) /\
  findFirstHit 3 [0%nat; 1%nat; 2%nat] store5 containsX 5 None true = Some (Some 3) /\
  findFirstHit 1 [0%nat] store5 containsX 5 None true = Some None.
Proof. repeat split; vm_compute; reflexivity. Qed.

End SearchProps.

Module PagerProps.

Import Twin Search Pager.

(** ** Row decoration *)

Section DecorationProps.

Variable env : Environment.

(** A cell one or two columns wide. *)
Definition narrowOrWide (cell : CellWithMetadata) : Prop :=
  cellWidth env cell = 1 \/ cellWidth env cell = 2.

Lemma rowWidth_app a b : rowWidth env (a ++ b) = rowWidth env a + rowWidth env b.
Proof.
  induction a as [|c a IH]; simpl; [reflexivity|]. rewrite IH. lia.
Qed.

Lemma rowWidth_narrow row :
  Forall (fun cell => cellWidth env cell = 1) row ->
  rowWidth env row = Z.of_nat (List.length row).
Proof.
  induction 1 as [|c row Hc _ IH]; [reflexivity|].
  cbn [rowWidth fold_right List.length]. fold (rowWidth env row).
  rewrite IH, Hc. lia.
Qed.

Lemma rowWidth_nonneg row : Forall narrowOrWide row -> 0 <= rowWidth env row.
Proof.
  induction 1 as [|c row Hc _ IH]; simpl; [lia|].
  fold (rowWidth env row). destruct Hc; lia.
Qed.

Lemma findVisible_reached leftColumn lastColumn :
  forall rest previous i v f,
    firstVisibleRuneIndex v = Some f ->
    cutOffRuneToTheRight v = false ->
    Forall narrowOrWide rest ->
    exists n,
      (n <= List.length rest)%nat /\
      firstVisibleRuneIndex (findVisible env leftColumn lastColumn previous i rest v) = Some f /\
      cutOffRuneToTheLeft (findVisible env leftColumn lastColumn previous i rest v)
      = cutOffRuneToTheLeft v /\
      lastVisibleRuneIndex (findVisible env leftColumn lastColumn previous i rest v)
      = (if (n =? 0)%nat then lastVisibleRuneIndex v else Z.of_nat (i + n) - 1) /\
      rowWidth env (firstn n rest) +
      (if cutOffRuneToTheRight (findVisible env leftColumn lastColumn previous i rest v)
       then 1 else 0)
      <= Z.max 0 (lastColumn + 1 - screenColumn v).
Proof.
  induction rest as [|char rest IH]; intros previous i v f Hfirst Hcut Hwidths.
  - exists 0%nat. simpl. rewrite Hcut. repeat split; auto; lia.
  - inversion Hwidths as [|? ? Hchar Hrest]; subst.
    destruct v as [fv lv sc cl cr csr]. simpl in Hfirst, Hcut. subst fv cr.
    cbn [findVisible firstVisibleRuneIndex lastVisibleRuneIndex screenColumn
         cutOffRuneToTheLeft cutOffRuneToTheRight canScrollRight andb negb].
    destruct (Z.leb_spec (sc + cellWidth env char - 1) lastColumn) as [Hfits|Hout];
      cbn [negb].
    + destruct (IH (Some char) (S i)
                  (mkVisible (Some f) (Z.of_nat i) (sc + cellWidth env char) cl false csr)
                  f eq_refl eq_refl Hrest) as (n & Hn & H1 & H2 & H3 & H4).
      exists (S n). cbn [firstVisibleRuneIndex lastVisibleRuneIndex screenColumn
                         cutOffRuneToTheLeft cutOffRuneToTheRight] in *.
      split; [simpl; lia|]. split; [exact H1|]. split; [exact H2|]. split.
      * rewrite H3. destruct n; cbn [Nat.eqb]; lia.
      * cbn [firstn rowWidth fold_right]. fold (rowWidth env (firstn n rest)).
        destruct Hchar; lia.
    + exists 0%nat. cbn [firstVisibleRuneIndex lastVisibleRuneIndex screenColumn
                         cutOffRuneToTheLeft cutOffRuneToTheRight firstn rowWidth
                         fold_right Nat.eqb].
      split; [lia|]. repeat split.
      destruct (Z.leb_spec sc lastColumn); lia.
Qed.

Lemma findVisible_searching leftColumn lastColumn :
  forall rest previous i v,
    firstVisibleRuneIndex v = None ->
    lastVisibleRuneIndex v = -1 ->
    cutOffRuneToTheLeft v = false ->
    cutOffRuneToTheRight v = false ->
    canScrollRight v = false ->
    Forall narrowOrWide rest ->
    let v' := findVisible env leftColumn lastColumn previous i rest v in
    (firstVisibleRuneIndex v' = None /\ cutOffRuneToTheLeft v' = false /\
     cutOffRuneToTheRight v' = false /\ canScrollRight v' = false) \/
    exists k n column,
      (k + n <= List.length rest)%nat /\
      firstVisibleRuneIndex v' = Some (i + k)%nat /\
      lastVisibleRuneIndex v' = (if (n =? 0)%nat then -1 else Z.of_nat (i + k + n) - 1) /\
      leftColumn <= column /\
      (cutOffRuneToTheLeft v' = true -> leftColumn < column) /\
      (previous = None -> k = 0%nat -> cutOffRuneToTheLeft v' = false) /\
      (leftColumn <= screenColumn v -> k = 0%nat /\ column = screenColumn v) /\
      rowWidth env (firstn n (skipn k rest)) + (if cutOffRuneToTheRight v' then 1 else 0)
      <= Z.max 0 (lastColumn + 1 - column).
Proof.
  induction rest as [|char rest IH];
    intros previous i v Hfirst Hlast HcutL HcutR Hscroll Hwidths v'.
  - left. subst v'. simpl. auto.
  - inversion Hwidths as [|? ? Hchar Hrest]; subst.
    destruct v as [fv lv sc cl cr csr].
    simpl in Hfirst, Hlast, HcutL, HcutR, Hscroll. subst fv lv cl cr csr.
    destruct (Z.geb_spec sc leftColumn) as [Hreached|Hnot].
    + (* this rune is the first visible one *)
      right.
      set (cut := match previous with
                  | Some before => (sc >? leftColumn) && (cellWidth env before >? 1)
                  | None => false
                  end).
      set (v1 := mkVisible (Some i) (-1) sc (if cut then true else false) false false).
      assert (Hv' : v' = findVisible env leftColumn lastColumn previous i (char :: rest) v1).
      { subst v' v1 cut.
        cbn [findVisible firstVisibleRuneIndex lastVisibleRuneIndex screenColumn
             cutOffRuneToTheLeft cutOffRuneToTheRight canScrollRight].
        destruct (Z.geb_spec sc leftColumn); [|lia].
        cbn [firstVisibleRuneIndex lastVisibleRuneIndex screenColumn
             cutOffRuneToTheLeft cutOffRuneToTheRight canScrollRight].
        reflexivity. }
      destruct (findVisible_reached leftColumn lastColumn (char :: rest) previous i v1 i
                  eq_refl eq_refl Hwidths) as (n & Hn & H1 & H2 & H3 & H4).
      rewrite <- Hv' in H1, H2, H3, H4.
      exists 0%nat, n, sc. rewrite Nat.add_0_r.
      cbn [skipn plus]. subst v1.
      cbn [firstVisibleRuneIndex lastVisibleRuneIndex screenColumn
           cutOffRuneToTheLeft cutOffRuneToTheRight] in *.
      split; [exact Hn|]. split; [exact H1|]. split; [exact H3|]. split; [lia|].
      split.
      * rewrite H2. subst cut. destruct previous as [before|]; [|discriminate].
        destruct (Z.gtb_spec sc leftColumn); [lia|]. simpl. discriminate.
      * split; [intros -> _; rewrite H2; reflexivity|].
        split; [auto|exact H4].
    + (* still left of the screen *)
      assert (Hv' : v' = findVisible env leftColumn lastColumn (Some char) (S i) rest
                           (mkVisible None (-1) (sc + cellWidth env char) false false false)).
      { subst v'.
        cbn [findVisible firstVisibleRuneIndex lastVisibleRuneIndex screenColumn
             cutOffRuneToTheLeft cutOffRuneToTheRight canScrollRight].
        destruct (Z.geb_spec sc leftColumn); [lia|].
        cbn [firstVisibleRuneIndex lastVisibleRuneIndex screenColumn
             cutOffRuneToTheLeft cutOffRuneToTheRight canScrollRight andb].
        reflexivity. }
      rewrite Hv'.
      destruct (IH (Some char) (S i)
                  (mkVisible None (-1) (sc + cellWidth env char) false false false)
                  eq_refl eq_refl eq_refl eq_refl eq_refl Hrest)
        as [Hnone | (k & n & column & Hkn & H1 & H2 & H3 & H4 & _ & _ & H7)].
      * left. exact Hnone.
      * right. exists (S k), n, column.
        cbn [screenColumn skipn List.length].
        split; [lia|].
        split; [rewrite H1; f_equal; lia|].
        split; [rewrite H2; replace (i + S k + n)%nat with (S i + k + n)%nat by lia;
                reflexivity|].
        split; [exact H3|]. split; [exact H4|].
        split; [intros _ Hk; discriminate|].
        split; [intros Hle; lia|exact H7].
Qed.

Lemma createLinePrefix_narrow lineNumber numberPrefixLength prefix :
  0 <= numberPrefixLength ->
  runeWidth env runeSpace = 1 ->
  (forall number r, In r (formatNumber env number) -> runeWidth env r = 1) ->
  createLinePrefix env lineNumber numberPrefixLength = Ok prefix ->
  Forall (fun cell => cellWidth env cell = 1) prefix /\
  Z.of_nat (List.length prefix) = numberPrefixLength.
Proof.
  intros HP Hspace Hformat. unfold createLinePrefix.
  destruct (Z.eqb_spec numberPrefixLength 0) as [->|Hne].
  { intros H. inversion H. split; [constructor|reflexivity]. }
  destruct (Z.ltb_spec numberPrefixLength 0) as [Hneg|_]; [lia|].
  destruct lineNumber as [number|].
  - unfold sprintfPadded.
    set (text := formatNumber env number).
    set (padding := Z.to_nat (numberPrefixLength - 1 - Z.of_nat (List.length text))).
    destruct (Z.gtb_spec (Z.of_nat (List.length (repeat runeSpace padding ++ text ++ [runeSpace])))
                numberPrefixLength) as [Hlong|Hfits]; [discriminate|].
    intros H. inversion H; subst prefix; clear H.
    rewrite !length_app, repeat_length in Hfits. cbn [List.length] in Hfits.
    rewrite firstn_all2
      by (rewrite !length_app, repeat_length; cbn [List.length]; lia).
    split.
    + apply Forall_map, Forall_forall. intros r Hr. unfold cellWidth. cbn [plainCell cellRune].
      apply in_app_or in Hr. destruct Hr as [Hr|Hr].
      * apply repeat_spec in Hr. subst r. exact Hspace.
      * apply in_app_or in Hr. destruct Hr as [Hr|[<-|[]]]; [|exact Hspace].
        exact (Hformat number r Hr).
    + rewrite length_map, !length_app, repeat_length. cbn [List.length]. lia.
  - intros H. inversion H; subst prefix; clear H. split.
    + apply Forall_forall. intros cell Hcell. apply repeat_spec in Hcell. subst cell.
      exact Hspace.
    + rewrite repeat_length. lia.
Qed.

Lemma narrow_narrowOrWide row :
  Forall (fun cell => cellWidth env cell = 1) row -> Forall narrowOrWide row.
Proof.
  intros H. eapply Forall_impl; [|exact H]. intros cell Hc. left. exact Hc.
Qed.

Ltac forallCells :=
  repeat first [ assumption | apply Forall_nil | apply Forall_cons | apply Forall_app; split ].

Lemma addScrollLeft_width hint row :
  cellWidth env hint = 1 ->
  runeWidth env runeSpace = 1 ->
  runeWidth env 0 <= 1 ->
  Forall narrowOrWide row ->
  Forall narrowOrWide (addScrollLeft env hint row) /\
  rowWidth env (addScrollLeft env hint row) = Z.max 1 (rowWidth env row).
Proof.
  intros Hhint Hspace Hzero Hrow. unfold addScrollLeft.
  assert (Hh : narrowOrWide hint) by (left; exact Hhint).
  assert (Hs : narrowOrWide (plainCell runeSpace (cellStyle hint))) by (left; exact Hspace).
  destruct row as [|first rest].
  - assert (Hz : (cellWidth env zeroCell >? 1) = false).
    { unfold cellWidth. cbn [zeroCell cellRune].
      destruct (Z.gtb_spec (runeWidth env 0) 1); [lia|reflexivity]. }
    rewrite Hz. split; [forallCells|].
    simpl. rewrite Hhint. reflexivity.
  - inversion Hrow as [|? ? Hfirst Hrest]; subst.
    pose proof (rowWidth_nonneg rest Hrest) as Hnonneg.
    destruct (Z.gtb_spec (cellWidth env first) 1) as [Hwide|Hnarrow].
    + split; [forallCells|].
      cbn [rowWidth fold_right]. fold (rowWidth env rest).
      unfold cellWidth at 2. cbn [plainCell cellRune]. rewrite Hhint, Hspace.
      destruct Hfirst; lia.
    + split; [forallCells|].
      cbn [rowWidth fold_right]. fold (rowWidth env rest). rewrite Hhint.
      destruct Hfirst; lia.
Qed.

Lemma rowWidth_setLast row cell :
  row <> [] ->
  rowWidth env (setLast row cell)
  = rowWidth env row - cellWidth env (last row zeroCell) + cellWidth env cell.
Proof.
  intros Hne. unfold setLast.
  rewrite (app_removelast_last zeroCell Hne) at 2.
  rewrite !rowWidth_app. simpl. lia.
Qed.

Lemma Forall_setLast row cell :
  Forall narrowOrWide row -> narrowOrWide cell -> Forall narrowOrWide (setLast row cell).
Proof.
  intros Hrow Hcell. unfold setLast. apply Forall_app. split; [|forallCells].
  destruct row as [|c row]; [constructor|].
  rewrite (app_removelast_last zeroCell (l := c :: row)) in Hrow by discriminate.
  apply Forall_app in Hrow. tauto.
Qed.

Lemma addScrollRight_width hint row row' :
  cellWidth env hint = 1 ->
  runeWidth env runeSpace = 1 ->
  Forall narrowOrWide row ->
  addScrollRight env hint row = Ok row' ->
  rowWidth env row' = rowWidth env row.
Proof.
  intros Hhint Hspace Hrow. unfold addScrollRight.
  destruct row as [|c rest]; [discriminate|].
  set (row := c :: rest) in *.
  assert (Hne : row <> []) by discriminate.
  clearbody row.
  assert (Hlast : narrowOrWide (last row zeroCell)).
  { rewrite Forall_forall in Hrow. apply Hrow.
    rewrite (app_removelast_last zeroCell Hne) at 2. apply in_or_app. simpl. auto. }
  assert (Hsw : cellWidth env (plainCell runeSpace (cellStyle hint)) = 1) by exact Hspace.
  destruct (Z.gtb_spec (cellWidth env (last row zeroCell)) 1) as [Hwide|Hnarrow];
    intros H; inversion H; subst row'; clear H.
  - rewrite rowWidth_setLast.
    + rewrite last_last, rowWidth_app, rowWidth_setLast by exact Hne.
      cbn [rowWidth fold_right]. rewrite Hsw, Hhint. destruct Hlast; lia.
    + intros Hnil. apply app_eq_nil in Hnil. destruct Hnil; discriminate.
  - rewrite rowWidth_setLast by exact Hne. rewrite Hhint. destruct Hlast; lia.
Qed.

(** A decorated row fits the screen when there is no gutter, or when the
    gutter fits and the view is not scrolled sideways. *)
Lemma decorateLine_fits width leftColumn hintLeft hintRight lineNumber numberPrefixLength
  contents row :
  1 <= width -> 0 <= leftColumn -> 0 <= numberPrefixLength ->
  numberPrefixLength = 0 \/ (leftColumn = 0 /\ numberPrefixLength <= width) ->
  Forall narrowOrWide contents ->
  runeWidth env runeSpace = 1 ->
  runeWidth env 0 <= 1 ->
  (forall number r, In r (formatNumber env number) -> runeWidth env r = 1) ->
  cellWidth env hintLeft = 1 ->
  cellWidth env hintRight = 1 ->
  decorateLine env width leftColumn hintLeft hintRight lineNumber numberPrefixLength contents
  = Ok row ->
  rowWidth env row <= width.
Proof.
  intros Hwidth Hleft HP Hcase Hcontents Hspace Hzero Hformat HhintL HhintR.
  unfold decorateLine.
  destruct (Z.ltb_spec width 0) as [Hneg|_]; [lia|].
  destruct (createLinePrefix env lineNumber numberPrefixLength) as [prefix| |] eqn:Hprefix;
    cbn [andThen]; try discriminate.
  destruct (createLinePrefix_narrow _ _ _ HP Hspace Hformat Hprefix) as [Hnarrow Hlen].
  pose proof (rowWidth_narrow prefix Hnarrow) as Hpw. rewrite Hlen in Hpw.
  pose proof (narrow_narrowOrWide prefix Hnarrow) as Hpnw.
  set (v := findVisible env leftColumn (leftColumn + width - 1) None 0 contents
              (mkVisible None (-1) numberPrefixLength false false false)).
  assert (HsL : narrowOrWide (plainCell runeSpace (cellStyle hintLeft))) by (left; exact Hspace).
  assert (HsR : narrowOrWide (plainCell runeSpace (cellStyle hintRight))) by (left; exact Hspace).
  (* what the loop found *)
  assert (Hbody :
    forall visible,
      match firstVisibleRuneIndex v with
      | Some first => sliceCells contents (Z.of_nat first) (lastVisibleRuneIndex v + 1)
      | None => Ok []
      end = Ok visible ->
      Forall narrowOrWide visible /\
      (if cutOffRuneToTheLeft v then 1 else 0) + numberPrefixLength + rowWidth env visible +
      (if cutOffRuneToTheRight v then 1 else 0) <= width).
  { intros visible Hvisible.
    pose proof (findVisible_searching leftColumn (leftColumn + width - 1) contents None 0%nat
                  (mkVisible None (-1) numberPrefixLength false false false)
                  eq_refl eq_refl eq_refl eq_refl eq_refl Hcontents) as Hsearch.
    cbv zeta in Hsearch. fold v in Hsearch.
    destruct Hsearch
      as [(Hnone & HcL & HcR & _) | (k & n & column & Hkn & H1 & H2 & H3 & H4 & H5 & H6 & H7)].
    - rewrite Hnone in Hvisible. inversion Hvisible; subst visible.
      rewrite HcL, HcR. split; [constructor|]. simpl. destruct Hcase; lia.
    - rewrite H1, H2 in Hvisible. unfold sliceCells in Hvisible.
      cbn [screenColumn] in H6.
      assert (Hvis : visible = firstn n (skipn k contents)).
      { destruct (((0 <=? Z.of_nat (0 + k)) &&
                   (Z.of_nat (0 + k) <=? (if (n =? 0)%nat then -1 else Z.of_nat (0 + k + n) - 1) + 1) &&
                   ((if (n =? 0)%nat then -1 else Z.of_nat (0 + k + n) - 1) + 1 <=?
                    Z.of_nat (List.length contents)))%bool) eqn:Hok; [|discriminate].
        inversion Hvisible; subst visible; clear Hvisible.
        apply andb_prop in Hok. destruct Hok as [Hok _]. apply andb_prop in Hok.
        destruct Hok as [_ Hok]. apply Z.leb_le in Hok.
        destruct n as [|n].
        - cbn [Nat.eqb] in *. assert (k = 0%nat) by lia. subst k. reflexivity.
        - cbn [Nat.eqb]. f_equal; [lia|f_equal; lia]. }
      subst visible.
      assert (Hfv : Forall narrowOrWide (firstn n (skipn k contents))).
      { apply Forall_forall. intros c Hc. rewrite Forall_forall in Hcontents.
        apply Hcontents.
        rewrite <- (firstn_skipn k contents). apply in_or_app. right.
        rewrite <- (firstn_skipn n (skipn k contents)). apply in_or_app. left. exact Hc. }
      split; [exact Hfv|].
      pose proof (rowWidth_nonneg _ Hfv) as Hnonneg.
      destruct Hcase as [HP0 | [HL0 HPW]].
      + destruct (cutOffRuneToTheLeft v) eqn:HcL.
        * specialize (H4 eq_refl). lia.
        * lia.
      + destruct (H6 ltac:(lia)) as [Hk0 Hcol]. subst k column.
        rewrite (H5 eq_refl eq_refl). lia. }
  destruct (match firstVisibleRuneIndex v with
            | Some first => sliceCells contents (Z.of_nat first) (lastVisibleRuneIndex v + 1)
            | None => Ok []
            end) as [visible| |] eqn:Hvisible; cbn [andThen]; try discriminate.
  destruct (Hbody visible eq_refl) as [Hvnw Hsum].
  set (line1 := (if cutOffRuneToTheLeft v
                 then plainCell runeSpace (cellStyle hintLeft) :: prefix
                 else prefix) ++ visible).
  set (line2 := if cutOffRuneToTheRight v
                then line1 ++ [plainCell runeSpace (cellStyle hintRight)]
                else line1).
  assert (Hsp : forall style, cellWidth env (plainCell runeSpace style) = 1)
    by (intros style; exact Hspace).
  assert (H2 : Forall narrowOrWide line2 /\ rowWidth env line2 <= width).
  { subst line2 line1.
    destruct (cutOffRuneToTheLeft v), (cutOffRuneToTheRight v);
      (split; [forallCells|]);
      rewrite ?rowWidth_app; cbn [rowWidth fold_right];
      fold (rowWidth env prefix); rewrite ?Hsp; lia. }
  destruct H2 as [Hnw2 Hw2].
  set (line3 := if (leftColumn >? 0) && (Z.of_nat (List.length contents) >? 0)
                then addScrollLeft env hintLeft line2 else line2).
  assert (H3 : Forall narrowOrWide line3 /\ rowWidth env line3 <= width).
  { subst line3.
    destruct ((leftColumn >? 0) && (Z.of_nat (List.length contents) >? 0)); [|auto].
    destruct (addScrollLeft_width hintLeft line2 HhintL Hspace Hzero Hnw2) as [Ha Hb].
    split; [exact Ha|]. rewrite Hb. lia. }
  destruct H3 as [Hnw3 Hw3].
  destruct (canScrollRight v).
  - intros H. rewrite (addScrollRight_width hintRight line3 row HhintR Hspace Hnw3 H).
    exact Hw3.
  - intros H. inversion H; subst row. exact Hw3.
Qed.

End DecorationProps.


(** ** A pager to try things on *)

(** The cells of a line: one per character, each [x] tagged as the start
    of a search hit while a pattern is set. *)
Definition sampleTokens (line : NumberedLine) (pattern : option Regexp)
  : list CellWithMetadata * Style :=
  (map (fun r => mkCell r StyleDefault
                   (match pattern with Some _ => r =? 120 | None => false end))
       (runesOf (Plain (lineOf line))),
   StyleDefault).

Fixpoint numberFrom (index : Index) (rest : list Line) : list NumberedLine :=
  match rest with
  | [] => []
  | line :: rest' => mkNumberedLine index (index + 1) line :: numberFrom (index + 1) rest'
  end.

Definition sampleGetLines (reader : Reader) (index : Index) (wanted : Z)
  : list NumberedLine * string :=
  (firstn (Z.to_nat wanted) (skipn (Z.to_nat index) (numberFrom 0 reader)), EmptyString).

Fixpoint wrapEvery (fuel width : nat) (cells : list CellWithMetadata)
  : list (list CellWithMetadata) :=
  match fuel with
  | O => [cells]
  | S fuel' =>
      if (List.length cells <=? width)%nat then [cells]
      else firstn width cells :: wrapEvery fuel' width (skipn width cells)
  end.

Fixpoint dropSpaces (cells : list CellWithMetadata) : list CellWithMetadata :=
  match cells with
  | cell :: rest => if cellRune cell =? runeSpace then dropSpaces rest else cells
  | [] => []
  end.

Definition decimal (number : Number) : runes :=
  runesOf (NilZero.string_of_int (Z.to_int number)).

(** A pager's surroundings: a screen of [width] by [height] with a status
    line, two cores whose second worker finishes first, a gutter of four
    columns when line numbers show. *)
Definition sampleEnv (lines : Reader) (width height : Z) : Environment :=
  mkEnvironment
    TwinProps.sampleWidth
    decimal
    StyleDefault
    2
    (fun start before backwards => rev (chunkNumbers 2 lines start before backwards))
    width height
    sampleGetLines
    sampleTokens
    (fun columns cells => wrapEvery (List.length cells) (Z.to_nat columns) cells)
    (fun cells => rev (dropSpaces (rev cells)))
    (fun line => Z.of_nat (String.length (Plain (lineOf line))))
    (fun p => match reader p with [] => None | _ => Some (positionIndex (position p)) end)
    (fun p => positionDelta (position p))
    (fun _ => height - 1)
    (fun p _ => if showLineNumbers p then 4 else 0)
    (fun p => GetLineCount (reader p) <=? positionIndex (position p) + (height - 1))
    (fun p => Z.min (GetLineCount (reader p) - 1) (positionIndex (position p) + (height - 1)))
    (fun p => Z.max 0 (positionIndex (position p) - 1)).

Definition hintLeft : CellWithMetadata := plainCell 60 StyleDefault.
Definition hintRight : CellWithMetadata := plainCell 62 StyleDefault.

(** A pager in viewing mode at the top of [lines], searching for [x]. *)
Definition samplePager (lines : Reader) (top : Index) (wrap : bool) : Pager :=
  mkPager lines (Some SearchProps.containsX) PagerModeViewing
    (mkScrollPosition top 0 EmptyString) 0 true true wrap hintLeft hintRight 0 None [].

(** ** C2 *)

(** C2 (amended). A decorated row is never wider than the screen when the
    row has no gutter, or when the view is not scrolled sideways and the
    gutter fits the screen; and of a grid row exactly the cells that do not
    follow a wide rune are serialised: what [renderLine] writes are the
    runes of the first of them, up to the trimmed tail. *)
Theorem decorateLine_fits_and_hidden_cells_are_dropped
  env width leftColumn left right lineNumber numberPrefixLength contents
  Printable AttrBold AttrReverse gridRow gridWidth colorCount :
  1 <= width -> 0 <= leftColumn -> 0 <= numberPrefixLength ->
  numberPrefixLength = 0 \/ (leftColumn = 0 /\ numberPrefixLength <= width) ->
  Forall (narrowOrWide env) contents ->
  runeWidth env runeSpace = 1 ->
  runeWidth env 0 <= 1 ->
  (forall number r, In r (formatNumber env number) -> runeWidth env r = 1) ->
  cellWidth env left = 1 ->
  cellWidth env right = 1 ->
  (forall row,
      decorateLine env width leftColumn left right lineNumber numberPrefixLength contents
      = Ok row ->
      rowWidth env row <= width) /\
  withoutHiddenRunes (runeWidth env) gridRow
  = map (fun i => nth i gridRow zeroStyledRune)
        (filter (fun i => negb (TwinProps.hiddenAt (runeWidth env) gridRow i))
                (seq 0 (List.length gridRow))) /\
  exists kept trimmed,
    withoutHiddenRunes (runeWidth env) gridRow = kept ++ trimmed /\
    TwinProps.writtenRunes
      (fst (Twin.renderLine (runeWidth env) Printable AttrBold AttrReverse gridRow gridWidth
              colorCount))
    = map (TwinProps.shownRune Printable) kept.
Proof.
  intros Hwidth Hleft HP Hcase Hcontents Hspace Hzero Hformat HhintL HhintR.
  split; [|split].
  - intros row Hrow.
    exact (decorateLine_fits env width leftColumn left right lineNumber numberPrefixLength
             contents row Hwidth Hleft HP Hcase Hcontents Hspace Hzero Hformat
             HhintL HhintR Hrow).
  - apply TwinProps.withoutHiddenRunes_indices.
  - destruct (Twin.renderLine (runeWidth env) Printable AttrBold AttrReverse gridRow gridWidth
                colorCount) as [writes n] eqn:Hrender.
    destruct (TwinProps.renderLine_spec _ _ _ _ _ _ _ _ _ Hrender)
      as (kept & trimmed & color & Hsplit & _ & _ & _ & Hrunes & _).
    exists kept, trimmed. split; [|exact Hrunes].
    rewrite TwinProps.withoutHiddenRunes_shown. exact Hsplit.
Qed.

(** Five cells of content: [a], a wide rune, [b], a wide rune, [c]. *)
Definition mixedContents : list CellWithMetadata :=
  map (fun r => plainCell r StyleDefault) [97; 21320; 98; 21320; 99].

Lemma sample_narrowOrWide lines width height cells :
  Forall (narrowOrWide (sampleEnv lines width height)) cells.
Proof.
  apply Forall_forall. intros cell _. unfold narrowOrWide, cellWidth. simpl.
  unfold TwinProps.sampleWidth. destruct (cellRune cell >=? 4352); auto.
Qed.

Lemma decimal_narrow number r : In r (decimal number) -> TwinProps.sampleWidth r = 1.
Proof.
  unfold decimal. intros Hr.
  assert (Hascii : forall text, In r (runesOf text) -> r < 256).
  { induction text as [|c text IH]; simpl; [intros []|].
    intros [<-|Hin]; [|exact (IH Hin)].
    pose proof (nat_ascii_bounded c). lia. }
  apply Hascii in Hr. unfold TwinProps.sampleWidth.
  destruct (Z.geb_spec r 4352); [lia|reflexivity].
Qed.

Lemma decorateLine_fits_and_hidden_cells_are_dropped_witness :
  (forall row,
      decorateLine (sampleEnv [] 4 3) 4 2 hintLeft hintRight None 0 mixedContents = Ok row ->
      rowWidth (sampleEnv [] 4 3) row <= 4) /\
  decorateLine (sampleEnv [] 4 3) 4 2 hintLeft hintRight None 0 mixedContents
  = Ok [hintLeft; plainCell 98 StyleDefault; plainCell runeSpace StyleDefault; hintRight].
Proof.
  split; [|vm_compute; reflexivity].
  refine (proj1 (decorateLine_fits_and_hidden_cells_are_dropped
                   (sampleEnv [] 4 3) 4 2 hintLeft hintRight None 0 mixedContents
                   TwinProps.allPrintable 1 4 [] 4 ColorCount24bit
                   _ _ _ _ _ _ _ _ _ _)).
  - lia.
  - lia.
  - lia.
  - left. reflexivity.
  - apply sample_narrowOrWide.
  - reflexivity.
  - vm_compute. discriminate.
  - intros number r. apply decimal_narrow.
  - reflexivity.
  - reflexivity.
Defined.

(** C2, as stated, fails: on a screen two columns wide, a row with a gutter
    of four columns comes out four columns wide. *)
Lemma decorateLine_wider_than_screen :
  exists row,
    decorateLine (sampleEnv [] 2 3) 2 0 hintLeft hintRight (Some 12) 4 mixedContents = Ok row /\
    rowWidth (sampleEnv [] 2 3) row = 4 /\
    ~ rowWidth (sampleEnv [] 2 3) row <= 2.
Proof.
  eexists. split; [vm_compute; reflexivity|]. split; [reflexivity|].
  vm_compute. intros H. apply H. reflexivity.
Qed.

(** ** Scrolling right to a search hit *)

(** [p'] is [p] but for [longestLineLength], the one field that rendering
    writes. *)
Definition rendered_from (p p' : Pager) : Prop :=
  exists n, p' = setLongestLineLength n p.

Lemma rendered_from_refl p : rendered_from p p.
Proof. exists (longestLineLength p). destruct p; reflexivity. Qed.

Lemma rendered_from_trans p q r : rendered_from p q -> rendered_from q r -> rendered_from p r.
Proof. intros [n ->] [m ->]. exists m. destruct p; reflexivity. Qed.

Lemma rendered_from_view p p' :
  rendered_from p p' ->
  leftColumnZeroBased p' = leftColumnZeroBased p /\
  showLineNumbers p' = showLineNumbers p /\
  mode p' = mode p /\
  searchLog p' = searchLog p /\
  reader p' = reader p /\
  searchPattern p' = searchPattern p.
Proof. intros [n ->]. destruct p; simpl; auto 10. Qed.

(** Scrolling sideways and rendering leave the mode, the search log, the
    reader, the pattern and the scroll position alone. *)
Definition sameSearchState (p p' : Pager) : Prop :=
  mode p' = mode p /\ searchLog p' = searchLog p /\ reader p' = reader p /\
  searchPattern p' = searchPattern p /\ position p' = position p.

Lemma sameSearchState_refl p : sameSearchState p p.
Proof. repeat split. Qed.

Lemma sameSearchState_trans p q r :
  sameSearchState p q -> sameSearchState q r -> sameSearchState p r.
Proof. unfold sameSearchState. intuition congruence. Qed.

Lemma rendered_from_same p p' : rendered_from p p' -> sameSearchState p p'.
Proof. intros [n ->]. destruct p; repeat split. Qed.

Lemma scrolled_same column b p :
  sameSearchState p (setLeftColumn column (setShowLineNumbers b p)).
Proof. destruct p; repeat split. Qed.

Section ScrollingProps.

Variable env : Environment.
Variable scrollFuel : nat.

Lemma renderAll_frame numbered numberPrefixLength :
  forall p rows p',
    renderAll env numbered numberPrefixLength p = Ok (rows, p') -> rendered_from p p'.
Proof.
  induction numbered as [|line rest IH]; intros p rows p' H; simpl in H.
  - inversion H; subst. apply rendered_from_refl.
  - destruct (Pager.renderLine env p line numberPrefixLength) as [rendering| |];
      cbn [andThen] in H; try discriminate.
    match type of H with
    | context [renderAll env rest numberPrefixLength ?q] =>
        destruct (renderAll env rest numberPrefixLength q) as [[more q']| |] eqn:Hrest;
        cbn [andThen] in H; try discriminate;
        apply IH in Hrest
    end.
    inversion H; subst; clear H.
    eapply rendered_from_trans; [|exact Hrest].
    match goal with
    | |- rendered_from p (if ?c then _ else _) =>
        destruct c; [eexists; reflexivity|apply rendered_from_refl]
    end.
Qed.

Lemma renderLines_frame p screen p' :
  renderLines env p = Ok (screen, p') -> rendered_from p p'.
Proof.
  unfold renderLines.
  destruct (GetLines env (reader p) _ (visibleHeight env p)) as [numbered status].
  destruct numbered as [|line numbered].
  - intros H. inversion H; subst. apply rendered_from_refl.
  - match goal with
    | |- context [renderAll env ?ls ?n p] =>
        destruct (renderAll env ls n p) as [[allLines q]| |] eqn:Hall;
        cbn [andThen]; try discriminate
    end.
    apply renderAll_frame in Hall.
    destruct (firstVisibleIndex env q allLines 0) as [first|]; [|discriminate].
    match goal with
    | |- context [if ?c then _ else Ok ?x] =>
        destruct c; [destruct (visibleHeight env q <? 0); [discriminate|]|]
    end; cbn [andThen]; intros H; inversion H; subst; exact Hall.
Qed.

(** A visibility check renders the screen the pager is scrolled to, and
    answers whether some cell of some row starts a search hit. *)
Lemma searchHitIsVisible_spec p visible p' :
  searchHitIsVisible env p = Ok (visible, p') ->
  rendered_from p p' /\
  exists screen,
    renderLines env p = Ok (screen, p') /\
    visible = anyStartsSearchHit (lines screen).
Proof.
  unfold searchHitIsVisible.
  destruct (renderLines env p) as [[screen q]| |] eqn:Hrender; cbn [andThen];
    try discriminate.
  pose proof (renderLines_frame _ _ _ Hrender) as Hframe.
  destruct (lines screen) as [|row rows] eqn:Hlines; intros H; inversion H; subst.
  - split; [exact Hframe|]. exists screen. rewrite Hlines. auto.
  - split; [exact Hframe|]. exists screen. rewrite Hlines. auto.
Qed.

(** Rendering returns or panics; it has no loop that could go on for
    ever. *)
Definition halts {A : Type} (r : Result A) : Prop := r <> Loops.

Lemma halts_andThen {A B : Type} (r : Result A) (k : A -> Result B) :
  halts r -> (forall a, halts (k a)) -> halts (andThen r k).
Proof.
  intros Hr Hk. destruct r; cbn [andThen]; [apply Hk|discriminate|].
  exfalso. apply Hr. reflexivity.
Qed.

Lemma createLinePrefix_halts lineNumber numberPrefixLength :
  halts (createLinePrefix env lineNumber numberPrefixLength).
Proof.
  unfold createLinePrefix, halts.
  destruct (numberPrefixLength =? 0); [discriminate|].
  destruct (numberPrefixLength <? 0); [discriminate|].
  destruct lineNumber; [|discriminate].
  match goal with |- context [if ?c then _ else _] => destruct c; discriminate end.
Qed.

Lemma decorateLine_halts width leftColumn hintL hintR lineNumber numberPrefixLength contents :
  halts (decorateLine env width leftColumn hintL hintR lineNumber numberPrefixLength contents).
Proof.
  unfold decorateLine.
  destruct (width <? 0); [discriminate|].
  apply halts_andThen; [apply createLinePrefix_halts|]. intros prefix. cbv zeta.
  apply halts_andThen.
  - match goal with |- halts (match ?v with _ => _ end) => destruct v; [|discriminate] end.
    unfold sliceCells, halts.
    match goal with |- context [if ?c then _ else _] => destruct c; discriminate end.
  - intros visible.
    match goal with |- halts (if ?c then _ else _) => destruct c; [|discriminate] end.
    unfold addScrollRight, halts.
    match goal with |- context [match ?l with [] => Panic | _ => _ end] =>
      destruct l; [discriminate|] end.
    match goal with |- context [if ?c then _ else _] => destruct c; discriminate end.
Qed.

Lemma decorateParts_halts p line numberPrefixLength wrapped :
  forall wrapIndex, halts (decorateParts env p line numberPrefixLength wrapIndex wrapped).
Proof.
  induction wrapped as [|part rest IH]; intros wrapIndex; cbn [decorateParts];
    [discriminate|].
  apply halts_andThen; [apply decorateLine_halts|]. intros decorated.
  apply halts_andThen; [apply IH|]. intros more. discriminate.
Qed.

Lemma setLastTrailer_halts style rendered : halts (setLastTrailer rendered style).
Proof.
  induction rendered as [|r rest IH]; cbn [setLastTrailer]; [discriminate|].
  destruct rest as [|r' rest]; [discriminate|].
  apply halts_andThen; [exact IH|]. intros rest'. discriminate.
Qed.

Lemma renderLine_halts p line numberPrefixLength :
  halts (Pager.renderLine env p line numberPrefixLength).
Proof.
  unfold Pager.renderLine.
  destruct (HighlightedTokens env line (searchPattern p)) as [styledRunes highlightedTrailer].
  apply halts_andThen; [apply decorateParts_halts|]. intros rendered.
  match goal with |- halts (if ?c then _ else _) => destruct c end;
    [apply setLastTrailer_halts|discriminate].
Qed.

Lemma renderAll_halts numberPrefixLength numbered :
  forall p, halts (renderAll env numbered numberPrefixLength p).
Proof.
  induction numbered as [|line rest IH]; intros p; cbn [renderAll]; [discriminate|].
  apply halts_andThen; [apply renderLine_halts|]. intros rendering. cbv zeta.
  apply halts_andThen; [apply IH|]. intros [more q]. discriminate.
Qed.

Lemma renderLines_halts p : halts (renderLines env p).
Proof.
  unfold renderLines.
  destruct (GetLines env (reader p) _ (visibleHeight env p)) as [numbered status].
  destruct numbered as [|line numbered]; [discriminate|].
  apply halts_andThen; [apply renderAll_halts|]. intros [allLines q].
  destruct (firstVisibleIndex env q allLines 0) as [first|]; [|discriminate].
  cbv zeta. apply halts_andThen; [|intros; discriminate].
  match goal with |- halts (if ?c then _ else _) => destruct c; [|discriminate] end.
  match goal with |- halts (if ?c then _ else _) => destruct c; discriminate end.
Qed.

Lemma searchHitIsVisible_halts p : halts (searchHitIsVisible env p).
Proof.
  unfold searchHitIsVisible.
  apply halts_andThen; [apply renderLines_halts|]. intros [rendered q].
  destruct (lines rendered); discriminate.
Qed.

Lemma anyStartsSearchHit_true rows :
  anyStartsSearchHit rows = true ->
  exists row cell, In row rows /\ In cell (cellsOf row) /\ StartsSearchHit cell = true.
Proof.
  unfold anyStartsSearchHit. intros H.
  apply existsb_exists in H. destruct H as (row & Hrow & H).
  apply existsb_exists in H. destruct H as (cell & Hcell & H).
  eauto.
Qed.

(** What the scroll loop does, however many iterations it gets. *)
Lemma scrollRightLoop_spec screenWidth maxLeftmostColumn numberPrefixWidth
  restoreShowLineNumbers restoreLeftColumn :
  forall fuel p found p',
    scrollRightLoop env fuel screenWidth maxLeftmostColumn numberPrefixWidth
      restoreShowLineNumbers restoreLeftColumn p = Ok (found, p') ->
    sameSearchState p p' /\
    if found then
      exists shown screen,
        renderLines env shown = Ok (screen, p') /\
        leftColumnZeroBased shown = leftColumnZeroBased p' /\
        showLineNumbers shown = showLineNumbers p' /\
        anyStartsSearchHit (lines screen) = true
    else
      leftColumnZeroBased p' = restoreLeftColumn /\
      showLineNumbers p' = restoreShowLineNumbers.
Proof.
  induction fuel as [|fuel IH]; intros p found p' H; simpl in H.
  - destruct (leftColumnZeroBased p <? maxLeftmostColumn); [discriminate|].
    inversion H; subst. split; [apply scrolled_same|]. destruct p; simpl; auto.
  - destruct (leftColumnZeroBased p <? maxLeftmostColumn).
    2:{ inversion H; subst. split; [apply scrolled_same|]. destruct p; simpl; auto. }
    destruct (leftColumnZeroBased p + screenWidth - numberPrefixWidth - 1 <? 0).
    { inversion H; subst. split; [apply scrolled_same|]. destruct p; simpl; auto. }
    match type of H with
    | context [searchHitIsVisible env ?q] =>
        set (scrolled := q) in *;
        destruct (searchHitIsVisible env scrolled) as [[visible q']| |] eqn:Hvisible;
        cbn [andThen] in H; try discriminate
    end.
    apply searchHitIsVisible_spec in Hvisible.
    destruct Hvisible as (Hframe & screen & Hrender & Hhit).
    destruct (rendered_from_view _ _ Hframe) as (Hl & Hs & _).
    assert (Hsame : sameSearchState p q').
    { eapply sameSearchState_trans; [|apply rendered_from_same; exact Hframe].
      subst scrolled. apply scrolled_same. }
    destruct visible.
    + inversion H; subst. split; [exact Hsame|].
      exists scrolled, screen. auto.
    + apply IH in H. destruct H as (Hsame' & Hrest).
      split; [|exact Hrest]. eapply sameSearchState_trans; eassumption.
Qed.

(** On a screen at least two columns wider than the gutter, or narrower than
    it, every iteration moves the view: right towards [maxLeftmostColumn], or
    left towards the give-up.  The loop then returns or panics within as
    many iterations as there are columns to go. *)
Lemma scrollRightLoop_enough_fuel screenWidth maxLeftmostColumn numberPrefixWidth
  restoreShowLineNumbers restoreLeftColumn :
  screenWidth - numberPrefixWidth - 1 <> 0 ->
  forall fuel p,
    (leftColumnZeroBased p < maxLeftmostColumn ->
     Z.max 1 (if 0 <? screenWidth - numberPrefixWidth - 1
              then maxLeftmostColumn - leftColumnZeroBased p
              else leftColumnZeroBased p + 1) <= Z.of_nat fuel) ->
    halts (scrollRightLoop env fuel screenWidth maxLeftmostColumn numberPrefixWidth
             restoreShowLineNumbers restoreLeftColumn p).
Proof.
  intros Hstep. induction fuel as [|fuel IH]; intros p Hfuel; cbn [scrollRightLoop].
  - destruct (Z.ltb_spec (leftColumnZeroBased p) maxLeftmostColumn) as [Hlt|Hge];
      [|discriminate].
    specialize (Hfuel Hlt). lia.
  - destruct (Z.ltb_spec (leftColumnZeroBased p) maxLeftmostColumn) as [Hlt|Hge];
      [|discriminate].
    specialize (Hfuel Hlt).
    destruct (Z.ltb_spec (leftColumnZeroBased p + screenWidth - numberPrefixWidth - 1) 0)
      as [Hneg|Hnonneg]; [discriminate|].
    cbv zeta.
    match goal with
    | |- context [searchHitIsVisible env ?q] =>
        set (scrolled := q);
        pose proof (searchHitIsVisible_halts scrolled) as Hhalts;
        destruct (searchHitIsVisible env scrolled) as [[visible q']| |] eqn:Hvisible;
        cbn [andThen]; [|discriminate|exact Hhalts]
    end.
    destruct visible; [discriminate|].
    apply searchHitIsVisible_spec in Hvisible. destruct Hvisible as [Hframe _].
    destruct (rendered_from_view _ _ Hframe) as (Hl & _).
    assert (Hscrolled :
      leftColumnZeroBased q'
      = if leftColumnZeroBased p + screenWidth - numberPrefixWidth - 1 >? maxLeftmostColumn
        then maxLeftmostColumn
        else leftColumnZeroBased p + screenWidth - numberPrefixWidth - 1).
    { rewrite Hl. subst scrolled. destruct p; reflexivity. }
    apply IH. rewrite Hscrolled. intros Hlt'.
    destruct (Z.gtb_spec (leftColumnZeroBased p + screenWidth - numberPrefixWidth - 1)
                maxLeftmostColumn); [lia|].
    destruct (Z.ltb_spec 0 (screenWidth - numberPrefixWidth - 1)); lia.
Qed.

Lemma scrolled_nowhere p :
  showLineNumbers p = false ->
  setLeftColumn (leftColumnZeroBased p) (setShowLineNumbers false p) = p.
Proof. destruct p; simpl. intros ->. reflexivity. Qed.

(** On a screen exactly one column wider than the gutter the loop scrolls to
    the column it is at.  Once that view shows no hit and rendering it
    changes nothing, the loop goes round for ever. *)
Lemma scrollRightLoop_stuck screenWidth maxLeftmostColumn numberPrefixWidth
  restoreShowLineNumbers restoreLeftColumn p :
  screenWidth - numberPrefixWidth - 1 = 0 ->
  leftColumnZeroBased p < maxLeftmostColumn ->
  0 <= leftColumnZeroBased p ->
  showLineNumbers p = false ->
  searchHitIsVisible env p = Ok (false, p) ->
  forall fuel,
    scrollRightLoop env fuel screenWidth maxLeftmostColumn numberPrefixWidth
      restoreShowLineNumbers restoreLeftColumn p = Loops.
Proof.
  intros Hstep Hlt Hleft Hshow Hvisible.
  induction fuel as [|fuel IH]; cbn [scrollRightLoop];
    rewrite (proj2 (Z.ltb_lt _ _) Hlt); [reflexivity|].
  replace (leftColumnZeroBased p + screenWidth - numberPrefixWidth - 1)
    with (leftColumnZeroBased p) by lia.
  rewrite (proj2 (Z.ltb_ge _ _) Hleft). cbv zeta.
  destruct (Z.gtb_spec (leftColumnZeroBased p) maxLeftmostColumn); [lia|].
  rewrite (scrolled_nowhere p Hshow), Hvisible. cbn [andThen]. exact IH.
Qed.

Lemma scrollRightLoop_stuck_after_one screenWidth maxLeftmostColumn numberPrefixWidth
  restoreShowLineNumbers restoreLeftColumn p q :
  screenWidth - numberPrefixWidth - 1 = 0 ->
  leftColumnZeroBased p < maxLeftmostColumn ->
  0 <= leftColumnZeroBased p ->
  searchHitIsVisible env (setLeftColumn (leftColumnZeroBased p) (setShowLineNumbers false p))
  = Ok (false, q) ->
  searchHitIsVisible env q = Ok (false, q) ->
  forall fuel,
    scrollRightLoop env fuel screenWidth maxLeftmostColumn numberPrefixWidth
      restoreShowLineNumbers restoreLeftColumn p = Loops.
Proof.
  intros Hstep Hlt Hleft Hfirst Hagain fuel.
  destruct fuel as [|fuel]; cbn [scrollRightLoop];
    rewrite (proj2 (Z.ltb_lt _ _) Hlt); [reflexivity|].
  replace (leftColumnZeroBased p + screenWidth - numberPrefixWidth - 1)
    with (leftColumnZeroBased p) by lia.
  rewrite (proj2 (Z.ltb_ge _ _) Hleft). cbv zeta.
  destruct (Z.gtb_spec (leftColumnZeroBased p) maxLeftmostColumn); [lia|].
  rewrite Hfirst. cbn [andThen].
  apply searchHitIsVisible_spec in Hfirst. destruct Hfirst as [Hframe _].
  destruct (rendered_from_view _ _ Hframe) as (Hl & Hs & _).
  apply scrollRightLoop_stuck;
    [ exact Hstep
    | rewrite Hl; destruct p; simpl in *; lia
    | rewrite Hl; destruct p; simpl in *; lia
    | rewrite Hs; destruct p; reflexivity
    | exact Hagain ].
Qed.

(** C5 (amended). After [scrollRightToSearchHits] returns true, the screen
    rendered at the scroll state it returns with has a row with a cell (not
    necessarily the row's first) that starts a search hit; whenever it
    returns false, [leftColumnZeroBased] and [showLineNumbers] are what they
    were before the call. *)
Theorem scrollRightToSearchHits_hit_on_screen_or_restored p found p' :
  scrollRightToSearchHits env scrollFuel p = Ok (found, p') ->
  if found then
    exists shown screen row cell,
      renderLines env shown = Ok (screen, p') /\
      leftColumnZeroBased shown = leftColumnZeroBased p' /\
      showLineNumbers shown = showLineNumbers p' /\
      In row (lines screen) /\ In cell (cellsOf row) /\ StartsSearchHit cell = true
  else
    leftColumnZeroBased p' = leftColumnZeroBased p /\
    showLineNumbers p' = showLineNumbers p.
Proof.
  unfold scrollRightToSearchHits.
  destruct (WrapLongLines p).
  { intros H. inversion H; subst. auto. }
  destruct (renderLines env p) as [[rendered q]| |] eqn:Hrender; cbn [andThen];
    try discriminate.
  apply renderLines_frame in Hrender.
  destruct (rendered_from_view _ _ Hrender) as (Hl & Hs & _).
  intros H. apply scrollRightLoop_spec in H. destruct H as (_ & H).
  destruct found.
  - destruct H as (shown & screen & H1 & H2 & H3 & H4).
    destruct (anyStartsSearchHit_true _ H4) as (row & cell & Hrow & Hcell & Hhit).
    exists shown, screen, row, cell. auto 10.
  - destruct H as [H1 H2]. split; congruence.
Qed.

Lemma scrollRightToSearchHits_same p found p' :
  scrollRightToSearchHits env scrollFuel p = Ok (found, p') -> sameSearchState p p'.
Proof.
  unfold scrollRightToSearchHits.
  destruct (WrapLongLines p).
  { intros H. inversion H; subst. apply sameSearchState_refl. }
  destruct (renderLines env p) as [[rendered q]| |] eqn:Hrender; cbn [andThen];
    try discriminate.
  apply renderLines_frame, rendered_from_same in Hrender.
  intros H. apply scrollRightLoop_spec in H. destruct H as (Hsame & _).
  eapply sameSearchState_trans; eassumption.
Qed.

Lemma searchHitIsVisible_same p visible p' :
  searchHitIsVisible env p = Ok (visible, p') -> sameSearchState p p'.
Proof.
  intros H. apply searchHitIsVisible_spec in H. destruct H as [H _].
  apply rendered_from_same. exact H.
Qed.

Lemma showHit_same p p' :
  showHit env scrollFuel p = Ok (tt, p') -> sameSearchState p p'.
Proof.
  unfold showHit.
  match goal with
  | |- context [searchHitIsVisible env ?q] =>
      set (q0 := q);
      destruct (searchHitIsVisible env q0) as [[visible q1]| |] eqn:Hvisible;
      cbn [andThen]; try discriminate
  end.
  apply searchHitIsVisible_same in Hvisible.
  assert (H0 : sameSearchState p q0) by (subst q0; destruct p; repeat split).
  destruct visible; cbn [negb].
  - intros H. inversion H; subst. exact (sameSearchState_trans _ _ _ H0 Hvisible).
  - destruct (scrollRightToSearchHits env scrollFuel q1) as [[found q2]| |] eqn:Hscroll;
      cbn [andThen]; try discriminate.
    apply scrollRightToSearchHits_same in Hscroll.
    intros H. inversion H; subst.
    exact (sameSearchState_trans _ _ _ H0 (sameSearchState_trans _ _ _ Hvisible Hscroll)).
Qed.

(** A search from the pager: its arguments, its result and the lines it
    looked at go into the log; nothing else changes. *)
Lemma pagerFindFirstHit_spec start before backwards p result p' :
  pagerFindFirstHit env start before backwards p = Ok (result, p') ->
  exists pattern,
    searchPattern p = Some pattern /\
    findFirstHit (numCPU env) (completionOrder env start before backwards)
      (reader p) pattern start before backwards = Some result /\
    p' = logSearch
           (mkSearchCall start before backwards result
              (linesScanned (numCPU env) (reader p) pattern start before backwards))
           p.
Proof.
  unfold pagerFindFirstHit.
  destruct (searchPattern p) as [pattern|]; [|discriminate].
  destruct (findFirstHit (numCPU env) (completionOrder env start before backwards)
              (reader p) pattern start before backwards) as [r|] eqn:Hfind;
    [|discriminate].
  intros H. inversion H; subst. exists pattern. auto.
Qed.








End ScrollingProps.

(** One line, ten columns wide, with its hit in column 7. *)
Definition wideStore : Reader := [mkLine "aaaaaaaxaa"].

Lemma scrollRightToSearchHits_hit_on_screen_or_restored_witness :
  exists p' shown screen row cell,
    scrollRightToSearchHits (sampleEnv wideStore 6 3) 8%nat (samplePager wideStore 0 false)
    = Ok (true, p') /\
    renderLines (sampleEnv wideStore 6 3) shown = Ok (screen, p') /\
    leftColumnZeroBased shown = 3 /\
    In row (lines screen) /\ In cell (cellsOf row) /\ StartsSearchHit cell = true.
Proof.
  destruct (scrollRightToSearchHits (sampleEnv wideStore 6 3) 8%nat (samplePager wideStore 0 false))
    as [[found p']| |] eqn:Hscroll.
  2,3: vm_compute in Hscroll; discriminate.
  assert (Hfound : found = true /\ leftColumnZeroBased p' = 3).
  { vm_compute in Hscroll. inversion Hscroll. split; reflexivity. }
  destruct Hfound as [-> Hleft].
  destruct (scrollRightToSearchHits_hit_on_screen_or_restored
              (sampleEnv wideStore 6 3) 8%nat (samplePager wideStore 0 false) true p' Hscroll)
    as (shown & screen & row & cell & H1 & H2 & H3 & H4 & H5 & H6).
  exists p', shown, screen, row, cell.
  split; [reflexivity|]. split; [exact H1|]. split; [congruence|]. auto.
Defined.

(** On a screen of five columns, one more than the gutter, with the hit of
    [wideStore] out of sight to the right, [scrollRightToSearchHits] never
    returns: no number of iterations is enough. *)
Lemma scrollRightToSearchHits_goes_round_for_ever :
  forall fuel,
    scrollRightToSearchHits (sampleEnv wideStore 5 3) fuel (samplePager wideStore 0 false)
    = Loops.
Proof.
  intros fuel. unfold scrollRightToSearchHits.
  change (WrapLongLines (samplePager wideStore 0 false)) with false. cbv iota zeta.
  destruct (renderLines (sampleEnv wideStore 5 3) (samplePager wideStore 0 false))
    as [[rendered q]| |] eqn:Hrender.
  2,3: vm_compute in Hrender; discriminate.
  vm_compute in Hrender. inversion Hrender; subst rendered q; clear Hrender.
  cbn [andThen].
  eapply scrollRightLoop_stuck_after_one.
  - vm_compute. reflexivity.
  - vm_compute. reflexivity.
  - vm_compute. discriminate.
  - vm_compute. reflexivity.
  - vm_compute. reflexivity.
Qed.

(** C5, as stated, fails: the call returns true with the hit in the fifth
    cell of the only row; the row's first cell is the scroll-left hint. *)
Lemma scrollRightToSearchHits_hit_not_in_first_cell :
  exists p' screen p'',
    scrollRightToSearchHits (sampleEnv wideStore 6 3) 8%nat (samplePager wideStore 0 false)
    = Ok (true, p') /\
    renderLines (sampleEnv wideStore 6 3) p' = Ok (screen, p'') /\
    map (fun row => map StartsSearchHit (cellsOf row)) (lines screen)
    = [[false; false; false; false; true; false]].
Proof.
  eexists. eexists. eexists.
  split; [vm_compute; reflexivity|].
  split; vm_compute; reflexivity.
Qed.

(** ** Next hit, previous hit and the search mode *)





(** ** Scrolling to a hit while typing *)

Section TypingProps.

Variable env : Environment.
Variable scrollFuel : nat.



End TypingProps.


End PagerProps.

(* ================================================================== *)
(** * Part III: further properties of the code                        *)
(* ================================================================== *)

Module TwinMore.

Import Twin TwinProps.

(** ** Decoding makes progress *)

Lemma hasPrefix_split s prefix :
  hasPrefix s prefix = true -> s = prefix ++ skipn (List.length prefix) s.
Proof.
  revert s. induction prefix as [|c prefix IH]; intros s H; [reflexivity|].
  destruct s as [|d s]; [discriminate|].
  cbn [hasPrefix] in H. apply andb_prop in H. destruct H as [Hc Hrest].
  apply Z.eqb_eq in Hc. subst d. cbn [List.length skipn app].
  f_equal. exact (IH s Hrest).
Qed.

Lemma trimPrefix_split s prefix :
  hasPrefix s prefix = true -> s = prefix ++ trimPrefix s prefix.
Proof.
  intros H. unfold trimPrefix. rewrite H. exact (hasPrefix_split s prefix H).
Qed.

Lemma lookupKeyCode_Some table s sequence keyCode :
  lookupKeyCode table s = Some (sequence, keyCode) ->
  In (sequence, keyCode) table /\ hasPrefix s sequence = true.
Proof.
  induction table as [|[candidate code] table IH]; cbn [lookupKeyCode]; [discriminate|].
  destruct (hasPrefix s candidate) eqn:Hprefix; cbn [negb].
  - intros H. inversion H; subst. split; [left; reflexivity|exact Hprefix].
  - intros H. destruct (IH H) as [Hin Hp]. split; [right; exact Hin|exact Hp].
Qed.

Lemma spanDigits_split s digits after :
  spanDigits s = (digits, after) -> s = digits ++ after.
Proof.
  revert digits after. induction s as [|c s IH]; intros digits after H; cbn [spanDigits] in H.
  - inversion H. reflexivity.
  - destruct (isDigit c).
    + destruct (spanDigits s) as [digits' after'] eqn:Hrest.
      inversion H; subst. cbn [app]. f_equal. apply IH. reflexivity.
    + inversion H. reflexivity.
Qed.

(** A match of the mouse report pattern is a non-empty prefix of the
    input. *)
Lemma mouseMatch_prefix s whole button column row :
  mouseEventRegex_FindStringSubmatch s = Some (whole, button, column, row) ->
  whole <> [] /\ hasPrefix s whole = true.
Proof.
  unfold mouseEventRegex_FindStringSubmatch.
  destruct s as [|c1 s]; [discriminate|].
  destruct (Z.eq_dec c1 27) as [->|H1]; [|destruct c1 as [|c1|c1]; try discriminate;
    repeat (destruct c1 as [c1|c1|]; try discriminate); contradiction].
  destruct s as [|c2 s]; [discriminate|].
  destruct (Z.eq_dec c2 91) as [->|H2]; [|destruct c2 as [|c2|c2]; try discriminate;
    repeat (destruct c2 as [c2|c2|]; try discriminate); contradiction].
  destruct s as [|c3 s]; [discriminate|].
  destruct (Z.eq_dec c3 60) as [->|H3]; [|destruct c3 as [|c3|c3]; try discriminate;
    repeat (destruct c3 as [c3|c3|]; try discriminate); contradiction].
  destruct (spanDigits s) as [b s2] eqn:Hb. apply spanDigits_split in Hb.
  destruct b as [|b0 b]; [discriminate|].
  destruct s2 as [|c4 s3]; [discriminate|].
  destruct (Z.eq_dec c4 59) as [->|H4]; [|destruct c4 as [|c4|c4]; try discriminate;
    repeat (destruct c4 as [c4|c4|]; try discriminate); contradiction].
  destruct (spanDigits s3) as [c s4] eqn:Hc. apply spanDigits_split in Hc.
  destruct c as [|c0 c]; [discriminate|].
  destruct s4 as [|c5 s5]; [discriminate|].
  destruct (Z.eq_dec c5 59) as [->|H5]; [|destruct c5 as [|c5|c5]; try discriminate;
    repeat (destruct c5 as [c5|c5|]; try discriminate); contradiction].
  destruct (spanDigits s5) as [r s6] eqn:Hr. apply spanDigits_split in Hr.
  destruct r as [|r0 r]; [discriminate|].
  destruct s6 as [|c6 s7]; [discriminate|].
  destruct (Z.eq_dec c6 77) as [->|H6]; [|destruct c6 as [|c6|c6]; try discriminate;
    repeat (destruct c6 as [c6|c6|]; try discriminate); contradiction].
  intros H. inversion H; subst whole button column row. split; [discriminate|].
  subst s s3 s5.
  match goal with
  | |- hasPrefix ?input ?matched = true =>
      replace input with (matched ++ s7); [apply hasPrefix_app|]
  end.
  cbn [app]. do 4 f_equal. repeat (rewrite <- app_assoc; cbn [app]). reflexivity.
Qed.

(** What one call consumes: with an event, a non-empty prefix of the input;
    without one, everything. *)
Lemma consume_progress table input event rest :
  Forall (fun entry => fst entry <> []) table ->
  input <> [] ->
  consumeEncodedEvent table input = (event, rest) ->
  match event with
  | Some _ => exists consumed, consumed <> [] /\ input = consumed ++ rest
  | None => rest = []
  end.
Proof.
  intros Hkeys Hinput. unfold consumeEncodedEvent.
  destruct (lookupKeyCode table input) as [[sequence keyCode]|] eqn:Hlookup.
  { apply lookupKeyCode_Some in Hlookup. destruct Hlookup as [Hin Hprefix].
    intros H. inversion H; subst event rest.
    exists sequence. split; [|exact (trimPrefix_split input sequence Hprefix)].
    rewrite Forall_forall in Hkeys. exact (Hkeys _ Hin). }
  destruct (mouseEventRegex_FindStringSubmatch input) as [[[[whole button] column] row]|]
    eqn:Hmouse.
  { apply mouseMatch_prefix in Hmouse. destruct Hmouse as [Hwhole Hprefix].
    destruct (runes_eqb button (runesOf "64")).
    { intros H. inversion H; subst event rest.
      exists whole. split; [exact Hwhole|exact (trimPrefix_split input whole Hprefix)]. }
    destruct (runes_eqb button (runesOf "65")).
    { intros H. inversion H; subst event rest.
      exists whole. split; [exact Hwhole|exact (trimPrefix_split input whole Hprefix)]. }
    intros H. inversion H. reflexivity. }
  destruct input as [|first others]; [contradiction|].
  destruct (first =? runeESC).
  { destruct (negb (Z.of_nat (List.length (first :: others)) =? 1));
      intros H; inversion H; subst event rest; [reflexivity|].
    exists [first]. split; [discriminate|reflexivity]. }
  destruct (first =? runeCR); intros H; inversion H; subst event rest;
    exists [first]; (split; [discriminate|reflexivity]).
Qed.

(** X1. [consumeEncodedEvent] makes progress: given a key table without an
    empty sequence and a non-empty input, a call that yields an event has
    consumed a non-empty prefix of the input and returns the rest of it
    untouched; a call that yields no event returns an empty remainder. *)
Theorem consumeEncodedEvent_consumes_a_prefix table input event rest :
  Forall (fun entry => fst entry <> []) table ->
  input <> [] ->
  consumeEncodedEvent table input = (event, rest) ->
  match event with
  | Some _ =>
      exists consumed,
        consumed <> [] /\ input = consumed ++ rest /\
        (List.length rest < List.length input)%nat
  | None => rest = []
  end.
Proof.
  intros Hkeys Hinput H.
  pose proof (consume_progress table input event rest Hkeys Hinput H) as Hprogress.
  destruct event as [e|]; [|exact Hprogress].
  destruct Hprogress as (consumed & Hne & Heq).
  exists consumed. split; [exact Hne|]. split; [exact Heq|].
  rewrite Heq, length_app. destruct consumed; [contradiction|]. cbn [List.length]. lia.
Qed.

Lemma sampleKeyTable_nonempty : Forall (fun entry => fst entry <> []) sampleKeyTable.
Proof. repeat constructor; discriminate. Qed.

Lemma consumeEncodedEvent_consumes_a_prefix_witness :
  consumeEncodedEvent sampleKeyTable (runesOf (str1 ESC ++ "[5~q"))
  = (Some (EventKeyCode (KeyOther 2)), runesOf "q") /\
  exists consumed,
    consumed <> [] /\
    runesOf (str1 ESC ++ "[5~q") = consumed ++ runesOf "q" /\
    (List.length (runesOf "q") < List.length (runesOf (str1 ESC ++ "[5~q")))%nat.
Proof.
  split; [reflexivity|].
  exact (consumeEncodedEvent_consumes_a_prefix sampleKeyTable
           (runesOf (str1 ESC ++ "[5~q")) (Some (EventKeyCode (KeyOther 2))) (runesOf "q")
           sampleKeyTable_nonempty ltac:(discriminate) eq_refl).
Defined.

(** X2. The decoding loop of [mainLoop] stops: with a key table without an
    empty sequence, as many iterations as the input has runes are enough,
    and the loop offers at most one event per rune of input. *)
Theorem decodeEvents_stops table :
  Forall (fun entry => fst entry <> []) table ->
  forall fuel input,
    (List.length input <= fuel)%nat ->
    exists events,
      decodeEvents fuel table input = Ok events /\
      (List.length events <= List.length input)%nat.
Proof.
  intros Hkeys. induction fuel as [|fuel IH]; intros input Hfuel.
  - destruct input; [|simpl in Hfuel; lia]. exists []. split; [reflexivity|simpl; lia].
  - destruct input as [|first others]; [exists []; split; [reflexivity|simpl; lia]|].
    cbn [decodeEvents].
    destruct (consumeEncodedEvent table (first :: others)) as [event rest] eqn:Hconsume.
    pose proof (consume_progress table (first :: others) event rest Hkeys
                  ltac:(discriminate) Hconsume) as Hprogress.
    destruct event as [e|]; [|exists []; split; [reflexivity|simpl; lia]].
    destruct Hprogress as (consumed & Hne & Heq).
    assert (Hshorter : (List.length rest < List.length (first :: others))%nat).
    { rewrite Heq, length_app. destruct consumed; [contradiction|]. cbn [List.length]. lia. }
    destruct (IH rest ltac:(simpl in *; lia)) as (more & Hmore & Hcount).
    rewrite Hmore. cbn [andThen]. exists (e :: more). split; [reflexivity|].
    cbn [List.length] in *. lia.
Qed.

Lemma decodeEvents_stops_witness :
  exists events,
    decodeEvents 5 sampleKeyTable (runesOf (str1 ESC ++ "[5~q")) = Ok events /\
    (List.length events <= List.length (runesOf (str1 ESC ++ "[5~q")))%nat.
Proof.
  exact (decodeEvents_stops sampleKeyTable sampleKeyTable_nonempty 5
           (runesOf (str1 ESC ++ "[5~q")) ltac:(simpl; lia)).
Defined.

(** ** Wheel reports *)

Lemma spanDigits_app digits after :
  Forall (fun c => isDigit c = true) digits ->
  match after with c :: _ => isDigit c = false | [] => True end ->
  spanDigits (digits ++ after) = (digits, after).
Proof.
  intros Hdigits Hafter. induction Hdigits as [|c digits Hc _ IH]; cbn [app].
  - destruct after as [|c after]; [reflexivity|]. cbn [spanDigits]. rewrite Hafter. reflexivity.
  - cbn [spanDigits]. rewrite Hc, IH. reflexivity.
Qed.

(** The SGR mouse report [ESC [< button ; column ; row M]. *)
Definition mouseReport (button column row : runes) : runes :=
  [27; 91; 60] ++ button ++ [59] ++ column ++ [59] ++ row ++ [77].

Lemma mouseReport_matches button column row rest :
  button <> [] -> column <> [] -> row <> [] ->
  Forall (fun c => isDigit c = true) button ->
  Forall (fun c => isDigit c = true) column ->
  Forall (fun c => isDigit c = true) row ->
  mouseEventRegex_FindStringSubmatch (mouseReport button column row ++ rest)
  = Some (mouseReport button column row, button, column, row).
Proof.
  intros Hb Hc Hr Hbd Hcd Hrd. unfold mouseReport.
  rewrite <- !app_assoc. cbn [app]. unfold mouseEventRegex_FindStringSubmatch.
  rewrite (spanDigits_app button) by first [exact Hbd | reflexivity].
  destruct button as [|b0 button]; [contradiction|].
  rewrite (spanDigits_app column) by first [exact Hcd | reflexivity].
  destruct column as [|c0 column]; [contradiction|].
  rewrite (spanDigits_app row) by first [exact Hrd | reflexivity].
  destruct row as [|r0 row]; [contradiction|].
  reflexivity.
Qed.

(** X3. Every wheel report decodes, whatever its coordinates: with no key
    sequence at the start of the input, the report of button 64 yields a
    wheel-up event and the report of button 65 a wheel-down event, each
    consuming exactly the report and leaving what follows it untouched. *)
Theorem consumeEncodedEvent_wheel_reports table column row rest :
  column <> [] -> row <> [] ->
  Forall (fun c => isDigit c = true) column ->
  Forall (fun c => isDigit c = true) row ->
  lookupKeyCode table (mouseReport (runesOf "64") column row ++ rest) = None ->
  lookupKeyCode table (mouseReport (runesOf "65") column row ++ rest) = None ->
  consumeEncodedEvent table (mouseReport (runesOf "64") column row ++ rest)
  = (Some (EventMouse MouseWheelUp), rest) /\
  consumeEncodedEvent table (mouseReport (runesOf "65") column row ++ rest)
  = (Some (EventMouse MouseWheelDown), rest).
Proof.
  intros Hc Hr Hcd Hrd Hup Hdown.
  assert (H64 : Forall (fun c => isDigit c = true) (runesOf "64"))
    by (repeat constructor).
  assert (H65 : Forall (fun c => isDigit c = true) (runesOf "65"))
    by (repeat constructor).
  split.
  - rewrite (lookupKeyCode_None_consume _ _ Hup).
    rewrite (mouseReport_matches (runesOf "64") column row rest
               ltac:(discriminate) Hc Hr H64 Hcd Hrd).
    cbv beta iota. change (runes_eqb (runesOf "64") (runesOf "64")) with true.
    cbv iota. rewrite trimPrefix_app. reflexivity.
  - rewrite (lookupKeyCode_None_consume _ _ Hdown).
    rewrite (mouseReport_matches (runesOf "65") column row rest
               ltac:(discriminate) Hc Hr H65 Hcd Hrd).
    cbv beta iota. change (runes_eqb (runesOf "65") (runesOf "64")) with false.
    change (runes_eqb (runesOf "65") (runesOf "65")) with true.
    cbv iota. rewrite trimPrefix_app. reflexivity.
Qed.

Lemma consumeEncodedEvent_wheel_reports_witness :
  consumeEncodedEvent sampleKeyTable
    (mouseReport (runesOf "64") (runesOf "127") (runesOf "41") ++ runesOf "q")
  = (Some (EventMouse MouseWheelUp), runesOf "q") /\
  consumeEncodedEvent sampleKeyTable
    (mouseReport (runesOf "65") (runesOf "127") (runesOf "41") ++ runesOf "q")
  = (Some (EventMouse MouseWheelDown), runesOf "q").
Proof.
  apply (consumeEncodedEvent_wheel_reports sampleKeyTable (runesOf "127") (runesOf "41")
           (runesOf "q"));
    first [discriminate | reflexivity | repeat constructor].
Defined.

(** ** Background colour responses *)

Lemma length_append s t :
  String.length (s ++ t) = (String.length s + String.length t)%nat.
Proof. induction s as [|c s IH]; simpl; [reflexivity|]. rewrite IH. reflexivity. Qed.

Lemma prefix_append p s : String.prefix p (p ++ s) = true.
Proof.
  induction p as [|c p IH]; simpl; [destruct s; reflexivity|].
  destruct (ascii_dec c c); [exact IH|contradiction].
Qed.

Lemma substring_all s : substring 0 (String.length s) s = s.
Proof. induction s as [|c s IH]; simpl; [reflexivity|]. rewrite IH. reflexivity. Qed.

Lemma substring_append_tail s t :
  substring (String.length s) (String.length t) (s ++ t) = t.
Proof. induction s as [|c s IH]; simpl; [apply substring_all|exact IH]. Qed.

Lemma substring_append_head s t : substring 0 (String.length s) (s ++ t) = s.
Proof.
  induction s as [|c s IH]; simpl; [destruct t; reflexivity|]. rewrite IH. reflexivity.
Qed.

Lemma HasPrefix_append p s : HasPrefix (p ++ s) p = true.
Proof. apply prefix_append. Qed.

Lemma TrimPrefix_append p s : TrimPrefix (p ++ s) p = s.
Proof.
  unfold TrimPrefix. rewrite HasPrefix_append, length_append.
  replace (String.length p + String.length s - String.length p)%nat
    with (String.length s) by lia.
  apply substring_append_tail.
Qed.

Lemma HasSuffix_append s t : HasSuffix (s ++ t) t = true.
Proof.
  unfold HasSuffix. rewrite length_append.
  replace (String.length s + String.length t - String.length t)%nat
    with (String.length s) by lia.
  rewrite substring_append_tail, String.eqb_refl.
  destruct (Nat.leb_spec (String.length t) (String.length s + String.length t)); [reflexivity|lia].
Qed.

Lemma TrimSuffix_append s t : TrimSuffix (s ++ t) t = s.
Proof.
  unfold TrimSuffix. rewrite HasSuffix_append, length_append.
  replace (String.length s + String.length t - String.length t)%nat
    with (String.length s) by lia.
  apply substring_append_head.
Qed.

(** The last character decides: a string that ends in [c] has no suffix that
    ends in another character. *)
Lemma HasSuffix_last s c t d :
  Ascii.eqb c d = false -> HasSuffix (s ++ str1 c) (t ++ str1 d) = false.
Proof.
  intros Hcd. unfold HasSuffix.
  destruct (Nat.leb_spec (String.length (t ++ str1 d)) (String.length (s ++ str1 c)))
    as [Hle|Hgt]; [|reflexivity].
  cbn [andb]. apply String.eqb_neq. intros Heq.
  rewrite !length_append in *. cbn [String.length str1] in *.
  pose proof (append_correct2 t (str1 d) 0) as Hd.
  cbn [Nat.add String.get str1] in Hd.
  rewrite <- Heq in Hd.
  rewrite substring_correct1 in Hd by lia.
  replace (String.length t + (String.length s + 1 - (String.length t + 1)))%nat
    with (0 + String.length s)%nat in Hd by lia.
  rewrite <- append_correct2 in Hd. cbn [String.get str1] in Hd.
  inversion Hd; subst. rewrite Ascii.eqb_refl in Hcd. discriminate.
Qed.

Lemma hexDigit_range c v : hexDigit c = Some v -> 0 <= v <= 15.
Proof.
  unfold hexDigit.
  repeat match goal with
         | |- context [if ?b then _ else _] => destruct b eqn:?
         end; intros H; inversion H; subst;
    repeat match goal with
           | H : (_ && _)%bool = true |- _ => apply andb_prop in H; destruct H
           | H : (_ <=? _) = true |- _ => apply Z.leb_le in H
           end; lia.
Qed.

Lemma hexDigit_differs c v d : hexDigit c = Some v -> hexDigit d = None -> Ascii.eqb c d = false.
Proof.
  intros Hc Hd. apply Ascii.eqb_neq. intros ->. congruence.
Qed.

(** A group of four characters. *)
Definition group (c1 c2 c3 c4 : ascii) : string :=
  String c1 (String c2 (String c3 (String c4 EmptyString))).

Lemma ParseUint_group c1 c2 c3 c4 v1 v2 v3 v4 :
  hexDigit c1 = Some v1 -> hexDigit c2 = Some v2 ->
  hexDigit c3 = Some v3 -> hexDigit c4 = Some v4 ->
  ParseUint_16_16 (group c1 c2 c3 c4) = Some (4096 * v1 + 256 * v2 + 16 * v3 + v4).
Proof.
  intros H1 H2 H3 H4.
  pose proof (hexDigit_range _ _ H1). pose proof (hexDigit_range _ _ H2).
  pose proof (hexDigit_range _ _ H3). pose proof (hexDigit_range _ _ H4).
  unfold ParseUint_16_16, group. cbn [parseHexFrom]. rewrite H1. cbn [parseHexFrom].
  rewrite H2. cbn [parseHexFrom]. rewrite H3. cbn [parseHexFrom]. rewrite H4.
  cbn [parseHexFrom].
  destruct (Z.ltb_spec ((((0 * 16 + v1) * 16 + v2) * 16 + v3) * 16 + v4) 65536); [|lia].
  f_equal. lia.
Qed.

(** The parts of a background colour response. *)
Definition bgHeader : string := (str1 ESC ++ "]11;rgb:")%string.
Definition terminatorBEL : string := str1 BEL.
Definition terminatorST : string := (str1 ESC ++ "\")%string.

Definition bgResponse (red green blue terminator : string) : string :=
  (bgHeader ++ (red ++ "/" ++ green ++ "/" ++ blue) ++ terminator)%string.

Lemma TrimSuffix_other s t : HasSuffix s t = false -> TrimSuffix s t = s.
Proof. unfold TrimSuffix. intros ->. reflexivity. Qed.

Lemma append_assoc (a b c : string) : ((a ++ b) ++ c = a ++ (b ++ c))%string.
Proof. induction a as [|x a IH]; simpl; [reflexivity|]. rewrite IH. reflexivity. Qed.

(** What a terminated response parses to depends on the length of its body
    and on the three groups of four bytes, and on nothing else. *)
Lemma parse_terminated body terminator :
  (terminator = terminatorBEL /\ HasSuffix body terminatorST = false) \/
  terminator = terminatorST ->
  parseTerminalBgColorResponse (bgHeader ++ body ++ terminator)
  = if negb (len body =? 14) then (None, false)
    else
      match ParseUint_16_16 (slice body 0 4) with
      | None => (None, false)
      | Some red =>
          match ParseUint_16_16 (slice body 5 9) with
          | None => (None, false)
          | Some green =>
              match ParseUint_16_16 (slice body 10 14) with
              | None => (None, false)
              | Some blue =>
                  (Some (NewColor24Bit (uint8 (red / 256)) (uint8 (green / 256))
                           (uint8 (blue / 256))), true)
              end
          end
      end.
Proof.
  intros Hterm. unfold parseTerminalBgColorResponse. cbv zeta.
  fold bgHeader. fold terminatorBEL. fold terminatorST.
  rewrite HasPrefix_append, TrimPrefix_append. cbn [negb].
  destruct Hterm as [[-> Hbody] | ->].
  - rewrite (HasSuffix_append body terminatorBEL). cbn [orb negb andb].
    rewrite TrimSuffix_append, (TrimSuffix_other body terminatorST Hbody). reflexivity.
  - rewrite (HasSuffix_append body terminatorST), orb_true_r. cbn [negb andb].
    assert (Hbel : HasSuffix (body ++ terminatorST) terminatorBEL = false).
    { unfold terminatorST, terminatorBEL.
      rewrite <- append_assoc.
      exact (HasSuffix_last (body ++ str1 ESC) "\" EmptyString BEL eq_refl). }
    rewrite (TrimSuffix_other _ _ Hbel), TrimSuffix_append. reflexivity.
Qed.

(** X4. A response of the right shape always parses, with either
    terminator: for every twelve hexadecimal digits, upper or lower case, the
    response [ESC ]11;rgb:RRRR/GGGG/BBBB] followed by BEL or by [ESC \] is
    valid, and each channel of its colour is the value of the first two
    digits of its group. *)
Theorem parseTerminalBgColorResponse_reads_the_high_bytes
  r1 r2 r3 r4 g1 g2 g3 g4 b1 b2 b3 b4 x1 x2 x3 x4 y1 y2 y3 y4 z1 z2 z3 z4 terminator :
  hexDigit r1 = Some x1 -> hexDigit r2 = Some x2 ->
  hexDigit r3 = Some x3 -> hexDigit r4 = Some x4 ->
  hexDigit g1 = Some y1 -> hexDigit g2 = Some y2 ->
  hexDigit g3 = Some y3 -> hexDigit g4 = Some y4 ->
  hexDigit b1 = Some z1 -> hexDigit b2 = Some z2 ->
  hexDigit b3 = Some z3 -> hexDigit b4 = Some z4 ->
  terminator = terminatorBEL \/ terminator = terminatorST ->
  parseTerminalBgColorResponse
    (bgResponse (group r1 r2 r3 r4) (group g1 g2 g3 g4) (group b1 b2 b3 b4) terminator)
  = (Some (Color24Bit (16 * x1 + x2) (16 * y1 + y2) (16 * z1 + z2)), true).
Proof.
  intros Hr1 Hr2 Hr3 Hr4 Hg1 Hg2 Hg3 Hg4 Hb1 Hb2 Hb3 Hb4 Hterm.
  unfold bgResponse.
  set (body := (group r1 r2 r3 r4 ++ "/" ++ group g1 g2 g3 g4 ++ "/" ++ group b1 b2 b3 b4)%string).
  rewrite parse_terminated.
  2:{ destruct Hterm as [->| ->]; [left; split; [reflexivity|]|right; reflexivity].
      change body
        with ((group r1 r2 r3 r4 ++ "/" ++ group g1 g2 g3 g4 ++ "/" ++
               String b1 (String b2 (String b3 EmptyString))) ++ str1 b4)%string.
      change terminatorST with (str1 ESC ++ str1 "\")%string.
      apply HasSuffix_last. exact (hexDigit_differs b4 z4 "\" Hb4 eq_refl). }
  change (len body =? 14) with true. cbn [negb].
  change (slice body 0 4) with (group r1 r2 r3 r4).
  change (slice body 5 9) with (group g1 g2 g3 g4).
  change (slice body 10 14) with (group b1 b2 b3 b4).
  rewrite (ParseUint_group _ _ _ _ _ _ _ _ Hr1 Hr2 Hr3 Hr4).
  rewrite (ParseUint_group _ _ _ _ _ _ _ _ Hg1 Hg2 Hg3 Hg4).
  rewrite (ParseUint_group _ _ _ _ _ _ _ _ Hb1 Hb2 Hb3 Hb4).
  assert (Hhigh : forall a b c d,
             0 <= a <= 15 -> 0 <= b <= 15 -> 0 <= c <= 15 -> 0 <= d <= 15 ->
             uint8 ((4096 * a + 256 * b + 16 * c + d) / 256) = 16 * a + b).
  { intros a b c d Ha Hb Hc Hd. unfold uint8.
    replace ((4096 * a + 256 * b + 16 * c + d) / 256) with (16 * a + b)
      by (apply Z.div_unique with (16 * c + d); lia).
    apply Z.mod_small. lia. }
  unfold NewColor24Bit.
  rewrite !Hhigh by (eapply hexDigit_range; eassumption).
  reflexivity.
Qed.

Lemma parseTerminalBgColorResponse_reads_the_high_bytes_witness :
  parseTerminalBgColorResponse
    (bgResponse (group "1" "2" "3" "4") (group "A" "b" "0" "0") (group "f" "F" "9" "a")
       terminatorST)
  = (Some (Color24Bit 18 171 255), true).
Proof.
  exact (parseTerminalBgColorResponse_reads_the_high_bytes
           "1" "2" "3" "4" "A" "b" "0" "0" "f" "F" "9" "a"
           1 2 3 4 10 11 0 0 15 15 9 10 terminatorST
           eq_refl eq_refl eq_refl eq_refl eq_refl eq_refl
           eq_refl eq_refl eq_refl eq_refl eq_refl eq_refl
           (or_intror eq_refl)).
Defined.

(** ** The size of the screen *)

(** X5. Whatever [Size] returns has no zero in it and is what the screen
    records from then on; the pending resize notification is consumed, so
    asking again gives the same answer and changes nothing.  The grid is left
    as it was, unless a resize changed the size: then it is a fresh grid of
    [height] rows of [width] zero cells, the old contents gone. *)
Theorem Size_settles screen width height screen' :
  Size screen = Ok (width, height, screen') ->
  width <> 0 /\ height <> 0 /\
  widthAccessFromSizeOnly screen' = width /\
  heightAccessFromSizeOnly screen' = height /\
  sigwinch screen' = false /\
  Size screen' = Ok (width, height, screen') /\
  (cells screen' = cells screen \/
   (sigwinch screen = true /\
    (widthAccessFromSizeOnly screen, heightAccessFromSizeOnly screen) <> (width, height) /\
    cells screen' = newCells width height)).
Proof.
  unfold Size at 1.
  destruct (sigwinch screen) eqn:Hpending; cbn [negb].
  - cbn [termGetSize widthAccessFromSizeOnly heightAccessFromSizeOnly cells].
    destruct (termGetSize screen) as [[w h]|]; [|discriminate].
    destruct (Z.eqb_spec w 0) as [|Hw]; [discriminate|].
    destruct (Z.eqb_spec h 0) as [|Hh]; [discriminate|]. cbn [orb].
    destruct (Z.eqb_spec (widthAccessFromSizeOnly screen) w) as [Hsamew|Hneww];
      [destruct (Z.eqb_spec (heightAccessFromSizeOnly screen) h) as [Hsameh|Hnewh]|];
      cbn [andb]; intros H; inversion H; subst; clear H;
      unfold Size; cbn [sigwinch widthAccessFromSizeOnly heightAccessFromSizeOnly cells negb].
    + repeat match goal with
             | |- context [?a =? 0] => destruct (Z.eqb_spec a 0); [congruence|]
             end.
      cbn [orb]. repeat split; auto.
    + repeat match goal with
             | |- context [?a =? 0] => destruct (Z.eqb_spec a 0); [congruence|]
             end.
      cbn [orb]. repeat split; auto. right. repeat split. congruence.
    + repeat match goal with
             | |- context [?a =? 0] => destruct (Z.eqb_spec a 0); [congruence|]
             end.
      cbn [orb]. repeat split; auto. right. repeat split. congruence.
  - destruct (Z.eqb_spec (widthAccessFromSizeOnly screen) 0) as [|Hw]; [discriminate|].
    destruct (Z.eqb_spec (heightAccessFromSizeOnly screen) 0) as [|Hh]; [discriminate|].
    cbn [orb]. intros H. inversion H; subst; clear H.
    unfold Size. rewrite Hpending. cbn [negb].
    destruct (Z.eqb_spec (widthAccessFromSizeOnly screen') 0); [congruence|].
    destruct (Z.eqb_spec (heightAccessFromSizeOnly screen') 0); [congruence|].
    cbn [orb]. repeat split; auto.
Qed.

(** A 3 by 2 screen whose window has just become 4 by 3. *)
Definition resizedScreen : UnixScreen :=
  mkUnixScreen 3 2 (newCells 3 2) true (Some (4, 3)) ColorCount24bit.

Lemma Size_settles_witness :
  exists screen',
    Size resizedScreen = Ok (4, 3, screen') /\
    sigwinch screen' = false /\
    Size screen' = Ok (4, 3, screen') /\
    cells screen' = newCells 4 3.
Proof.
  eexists. split; [reflexivity|].
  destruct (Size_settles resizedScreen 4 3 _ eq_refl)
    as (_ & _ & _ & _ & Hpending & Hagain & _).
  split; [exact Hpending|]. split; [exact Hagain|reflexivity].
Defined.

(** ** The grid keeps its shape *)

Lemma storeCell_keeps screen row column cell :
  steady screen ->
  0 <= row < heightAccessFromSizeOnly screen ->
  0 <= column < widthAccessFromSizeOnly screen ->
  exists screen',
    storeCell screen row column cell = Ok screen' /\
    steady screen' /\
    widthAccessFromSizeOnly screen' = widthAccessFromSizeOnly screen /\
    heightAccessFromSizeOnly screen' = heightAccessFromSizeOnly screen /\
    cellAt screen' row column = Some cell /\
    (forall row' column', (row', column') <> (row, column) ->
       cellAt screen' row' column' = cellAt screen row' column').
Proof.
  intros Hsteady Hrow Hcol.
  destruct (storeCell_ok screen row column cell Hsteady Hrow Hcol)
    as (screen' & Hstore & Hw & Hh & Hat & Hother).
  exists screen'. split; [exact Hstore|]. split; [|auto].
  destruct Hsteady as (Hs & Hw0 & Hh0 & Hlen & Hrows).
  unfold storeCell in Hstore.
  destruct (nth_error (cells screen) (Z.to_nat row)) as [line|] eqn:Hline; [|discriminate].
  assert (Hll : List.length line = Z.to_nat (widthAccessFromSizeOnly screen)).
  { rewrite Forall_forall in Hrows. apply Hrows. eapply nth_error_In; eauto. }
  destruct (storeAt_ok line (Z.to_nat column) cell ltac:(lia)) as (line' & H1 & Hl1 & _ & _).
  destruct (storeAt_ok (cells screen) (Z.to_nat row) line' ltac:(lia))
    as (cells' & H2 & Hl2 & Hn2 & Ho2).
  rewrite H1 in Hstore. cbn [andThen] in Hstore. rewrite H2 in Hstore. cbn [andThen] in Hstore.
  inversion Hstore; subst screen'; clear Hstore. unfold steady. simpl.
  split; [exact Hs|]. split; [exact Hw0|]. split; [exact Hh0|].
  split; [congruence|].
  apply Forall_forall. intros x Hx.
  apply In_nth_error in Hx. destruct Hx as [j Hj].
  destruct (Nat.eq_dec j (Z.to_nat row)) as [->|Hne].
  - rewrite Hn2 in Hj. inversion Hj; subst x. congruence.
  - rewrite (Ho2 j Hne) in Hj. rewrite Forall_forall in Hrows.
    apply Hrows. eapply nth_error_In; eauto.
Qed.

Lemma clearColumns_spec empty row :
  forall remaining screen column,
    steady screen ->
    0 <= row < heightAccessFromSizeOnly screen ->
    0 <= column ->
    column + Z.of_nat remaining <= widthAccessFromSizeOnly screen ->
    exists screen',
      clearColumns screen empty row column remaining = Ok screen' /\
      steady screen' /\
      widthAccessFromSizeOnly screen' = widthAccessFromSizeOnly screen /\
      heightAccessFromSizeOnly screen' = heightAccessFromSizeOnly screen /\
      (forall c, column <= c < column + Z.of_nat remaining ->
                 cellAt screen' row c = Some empty) /\
      (forall r c, r <> row \/ c < column \/ column + Z.of_nat remaining <= c ->
                   cellAt screen' r c = cellAt screen r c).
Proof.
  induction remaining as [|remaining IH]; intros screen column Hsteady Hrow Hcol Hfits.
  - exists screen. cbn [clearColumns]. split; [reflexivity|]. split; [exact Hsteady|].
    split; [reflexivity|]. split; [reflexivity|]. split; [intros c Hc; lia|reflexivity].
  - cbn [clearColumns].
    destruct (storeCell_keeps screen row column empty Hsteady Hrow ltac:(lia))
      as (screen1 & Hstore & Hsteady1 & Hw1 & Hh1 & Hat1 & Hother1).
    rewrite Hstore. cbn [andThen].
    destruct (IH screen1 (column + 1) Hsteady1 ltac:(lia) ltac:(lia) ltac:(lia))
      as (screen' & Hclear & Hsteady' & Hw' & Hh' & Hcleared & Hrest).
    exists screen'. split; [exact Hclear|]. split; [exact Hsteady'|].
    split; [congruence|]. split; [congruence|]. split.
    + intros c Hc. destruct (Z.eq_dec c column) as [->|Hne].
      * rewrite Hrest by lia. exact Hat1.
      * apply Hcleared. lia.
    + intros r c Hout. rewrite Hrest by lia. apply Hother1.
      intros Heq. inversion Heq; subst. lia.
Qed.

Lemma clearRows_spec empty width :
  forall remaining screen row,
    steady screen ->
    width = widthAccessFromSizeOnly screen ->
    0 <= row ->
    row + Z.of_nat remaining <= heightAccessFromSizeOnly screen ->
    exists screen',
      clearRows screen empty width row remaining = Ok screen' /\
      steady screen' /\
      widthAccessFromSizeOnly screen' = widthAccessFromSizeOnly screen /\
      heightAccessFromSizeOnly screen' = heightAccessFromSizeOnly screen /\
      (forall r c, row <= r < row + Z.of_nat remaining -> 0 <= c < width ->
                   cellAt screen' r c = Some empty) /\
      (forall r c, r < row \/ row + Z.of_nat remaining <= r ->
                   cellAt screen' r c = cellAt screen r c).
Proof.
  induction remaining as [|remaining IH]; intros screen row Hsteady Hwidth Hrow Hfits.
  - exists screen. cbn [clearRows]. split; [reflexivity|]. split; [exact Hsteady|].
    split; [reflexivity|]. split; [reflexivity|]. split; [intros r c Hr; lia|reflexivity].
  - cbn [clearRows].
    pose proof Hsteady as (_ & Hw0 & _).
    destruct (clearColumns_spec empty row (Z.to_nat width) screen 0 Hsteady
                ltac:(lia) ltac:(lia) ltac:(lia))
      as (screen1 & Hcolumns & Hsteady1 & Hw1 & Hh1 & Hcleared1 & Hrest1).
    rewrite Hcolumns. cbn [andThen].
    destruct (IH screen1 (row + 1) Hsteady1 ltac:(congruence) ltac:(lia) ltac:(lia))
      as (screen' & Hrows & Hsteady' & Hw' & Hh' & Hcleared & Hrest).
    exists screen'. split; [exact Hrows|]. split; [exact Hsteady'|].
    split; [congruence|]. split; [congruence|]. split.
    + intros r c Hr Hc. destruct (Z.eq_dec r row) as [->|Hne].
      * rewrite Hrest by lia. apply Hcleared1. lia.
      * apply Hcleared; lia.
    + intros r c Hout. rewrite Hrest by lia. apply Hrest1. lia.
Qed.

(** X6. On a steady screen [Clear] returns, the screen stays steady and
    keeps its size, and every cell of the grid holds a space in the default
    style. *)
Theorem Clear_blanks_every_cell screen :
  steady screen ->
  exists screen',
    Clear screen = Ok screen' /\
    steady screen' /\
    widthAccessFromSizeOnly screen' = widthAccessFromSizeOnly screen /\
    heightAccessFromSizeOnly screen' = heightAccessFromSizeOnly screen /\
    forall row column,
      0 <= row < heightAccessFromSizeOnly screen ->
      0 <= column < widthAccessFromSizeOnly screen ->
      cellAt screen' row column = Some (NewStyledRune runeSpace StyleDefault).
Proof.
  intros Hsteady. unfold Clear. cbv zeta.
  rewrite (Size_steady _ Hsteady). cbn [andThen].
  pose proof Hsteady as (_ & _ & Hh0 & _).
  destruct (clearRows_spec (NewStyledRune runeSpace StyleDefault)
              (widthAccessFromSizeOnly screen)
              (Z.to_nat (heightAccessFromSizeOnly screen)) screen 0 Hsteady
              eq_refl ltac:(lia) ltac:(lia))
    as (screen' & Hclear & Hsteady' & Hw & Hh & Hcleared & _).
  exists screen'. split; [exact Hclear|]. split; [exact Hsteady'|].
  split; [exact Hw|]. split; [exact Hh|].
  intros row column Hrow Hcolumn. apply Hcleared; lia.
Qed.

Lemma Clear_blanks_every_cell_witness :
  exists screen',
    Clear sampleScreen = Ok screen' /\
    cellAt screen' 1 2 = Some (NewStyledRune runeSpace StyleDefault).
Proof.
  destruct (Clear_blanks_every_cell sampleScreen sampleScreen_steady)
    as (screen' & Hclear & _ & _ & _ & Hcells).
  exists screen'. split; [exact Hclear|]. apply Hcells; simpl; lia.
Defined.

Section GridShape.

Variable runeWidth : rune -> Z.

(** X7. [SetCell] keeps the grid in shape: on a steady screen it returns
    the rune's width, and the screen it leaves behind is steady again and
    of the same size, wherever the cell was put and however wide the rune
    is. *)
Theorem SetCell_keeps_the_screen_steady column row styledRune screen :
  steady screen ->
  exists screen',
    SetCell runeWidth column row styledRune screen
    = Ok (Width runeWidth styledRune, screen') /\
    steady screen' /\
    widthAccessFromSizeOnly screen' = widthAccessFromSizeOnly screen /\
    heightAccessFromSizeOnly screen' = heightAccessFromSizeOnly screen.
Proof.
  intros Hsteady. unfold SetCell.
  destruct (Z.ltb_spec column 0) as [Hc0|Hc0]; [exists screen; auto|].
  destruct (Z.ltb_spec row 0) as [Hr0|Hr0]; [exists screen; auto|].
  rewrite (Size_steady _ Hsteady). cbn [andThen].
  destruct (Z.geb_spec column (widthAccessFromSizeOnly screen)) as [Hcw|Hcw];
    [exists screen; auto|].
  destruct (Z.geb_spec row (heightAccessFromSizeOnly screen)) as [Hrh|Hrh];
    [exists screen; auto|].
  destruct (column + Width runeWidth styledRune >? widthAccessFromSizeOnly screen).
  - destruct (storeCell_keeps screen row column
                (NewStyledRune runeSpace (Style_ styledRune)) Hsteady ltac:(lia) ltac:(lia))
      as (screen' & Hstore & Hsteady' & Hw & Hh & _).
    rewrite Hstore. cbn [andThen]. exists screen'. auto.
  - destruct (storeCell_keeps screen row column styledRune Hsteady ltac:(lia) ltac:(lia))
      as (screen' & Hstore & Hsteady' & Hw & Hh & _).
    rewrite Hstore. cbn [andThen]. exists screen'. auto.
Qed.

End GridShape.

Lemma SetCell_keeps_the_screen_steady_witness :
  exists screen',
    SetCell sampleWidth 2 1 (NewStyledRune 21320 StyleDefault) sampleScreen = Ok (2, screen') /\
    steady screen'.
Proof.
  destruct (SetCell_keeps_the_screen_steady sampleWidth 2 1 (NewStyledRune 21320 StyleDefault)
              sampleScreen sampleScreen_steady) as (screen' & Hset & Hsteady & _).
  exists screen'. split; [exact Hset|exact Hsteady].
Defined.

(** ** Line breaks between the rows *)

(** The line break that [showNLines] writes between two rows. *)
Definition isLineBreak (w : Write) : bool :=
  match w with
  | WriteString s => String.eqb s (String "013" (String "010" EmptyString))
  | _ => false
  end.

Definition lineBreaks (writes : list Write) : nat :=
  List.length (filter isLineBreak writes).

Lemma lineBreaks_app a b : lineBreaks (a ++ b) = (lineBreaks a + lineBreaks b)%nat.
Proof. unfold lineBreaks. rewrite filter_app, length_app. reflexivity. Qed.

Lemma lineBreaks_none writes :
  (forall w, In w writes -> isLineBreak w = false) -> lineBreaks writes = 0%nat.
Proof.
  intros Hnone. unfold lineBreaks. induction writes as [|w writes IH]; [reflexivity|].
  cbn [filter]. rewrite (Hnone w (or_introl eq_refl)). apply IH.
  intros w' Hw'. apply Hnone. right. exact Hw'.
Qed.

Lemma last_keeps {A : Type} (P : A -> Prop) (l : list A) (d : A) :
  l <> [] -> (forall x, In x l -> P x) -> P (last l d).
Proof.
  intros Hne Hall. apply Hall.
  rewrite (app_removelast_last d Hne) at 2. apply in_or_app. right. left. reflexivity.
Qed.

Lemma last_of_app {A : Type} (a b : list A) (d : A) :
  b <> [] -> last (a ++ b) d = last b d.
Proof.
  intros Hb. induction a as [|x a IH]; [reflexivity|].
  cbn [app]. destruct (a ++ b) eqn:Hab.
  - apply app_eq_nil in Hab. destruct Hab. contradiction.
  - rewrite <- IH. reflexivity.
Qed.

Section LineBreaks.

Variable runeWidth : rune -> Z.
Variable Printable : rune -> bool.
Variable AttrBold : AttrMask.
Variable AttrReverse : AttrMask.

Lemma shownFrom_length row :
  forall rest i, (List.length (shownFrom runeWidth row i rest) <= List.length rest)%nat.
Proof.
  induction rest as [|cell rest IH]; intros i; cbn [shownFrom List.length]; [lia|].
  specialize (IH (S i)). destruct (hiddenAt runeWidth row i); cbn [List.length]; lia.
Qed.

(** The number of cells that [renderLine] reports never exceeds the number
    of cells of the row. *)
Lemma renderLine_length row width colorCount :
  snd (renderLine runeWidth Printable AttrBold AttrReverse row width colorCount)
  <= Z.of_nat (List.length row).
Proof.
  destruct (renderLine runeWidth Printable AttrBold AttrReverse row width colorCount)
    as [writes n] eqn:Hrender.
  destruct (renderLine_spec runeWidth Printable AttrBold AttrReverse _ _ _ _ _ Hrender)
    as (kept & trimmed & color & Hsplit & Hn & _).
  cbn [snd]. subst n.
  pose proof (shownFrom_length row row 0%nat) as Hlen.
  rewrite Hsplit, length_app in Hlen. lia.
Qed.

(** What [renderLine] writes for a row starts with the style reset and holds
    no line break. *)
Lemma renderLine_writes row width colorCount :
  fst (renderLine runeWidth Printable AttrBold AttrReverse row width colorCount) <> [] /\
  forall w,
    In w (fst (renderLine runeWidth Printable AttrBold AttrReverse row width colorCount)) ->
    isLineBreak w = false.
Proof.
  unfold renderLine.
  destruct (stripTrailingWhitespace AttrReverse (rev (withoutHiddenRunes runeWidth row))
              ColorDefault false) as [reversedRow color].
  destruct (renderCells Printable AttrBold (rev reversedRow) StyleDefault colorCount)
    as [cellWrites lastStyle] eqn:Hcells.
  apply (renderCells_writes Printable AttrBold) in Hcells. destruct Hcells as [_ Hno].
  destruct (negb (Style_eqb (WithHyperlink lastStyle None) lastStyle));
    destruct (Z.of_nat (List.length (rev reversedRow)) <? width);
    cbn [fst app]; (split; [discriminate|]);
    intros w [<-|Hin]; try reflexivity;
    repeat (apply in_app_or in Hin; destruct Hin as [Hin|Hin]);
    try (destruct w; try reflexivity; exfalso; exact (Hno _ Hin));
    repeat (destruct Hin as [<-|Hin]; [reflexivity|]); destruct Hin.
Qed.

Lemma showRows_breaks screen width height :
  forall remaining first out,
    showRows runeWidth Printable AttrBold AttrReverse screen width height first remaining
    = Ok out ->
    first + Z.of_nat remaining = height ->
    lineBreaks out = pred remaining /\
    ((0 < remaining)%nat -> out <> [] /\ isLineBreak (last out (WriteRune 0)) = false).
Proof.
  induction remaining as [|remaining IH]; intros first out H Hend.
  - cbn [showRows] in H. inversion H; subst out. split; [reflexivity|]. intros Hpos. lia.
  - cbn [showRows] in H.
    destruct (nth_error (cells screen) (Z.to_nat first)) as [line|]; [|discriminate].
    pose proof (renderLine_length line width (terminalColorCount screen)) as Hlength.
    pose proof (renderLine_writes line width (terminalColorCount screen)) as [Hsome Hplain].
    destruct (renderLine runeWidth Printable AttrBold AttrReverse line width
                (terminalColorCount screen)) as [rendered lineLength].
    cbn [fst snd] in Hlength, Hsome, Hplain.
    destruct (showRows runeWidth Printable AttrBold AttrReverse screen width height
                (first + 1) remaining) as [rest| |] eqn:Hrest; cbn [andThen] in H;
      try discriminate.
    inversion H; subst out; clear H.
    destruct (IH (first + 1) rest Hrest ltac:(lia)) as [Hcount Hlast].
    rewrite (proj2 (Z.leb_le _ _) Hlength). cbn [andb].
    rewrite !lineBreaks_app, (lineBreaks_none rendered Hplain), Hcount.
    destruct remaining as [|remaining].
    + (* the final row *)
      cbn [showRows] in Hrest. inversion Hrest; subst rest.
      replace (first =? height - 1) with true by (symmetry; apply Z.eqb_eq; lia).
      cbn [negb app]. split; [reflexivity|]. intros _.
      rewrite app_nil_r. split; [exact Hsome|].
      exact (last_keeps (fun w => isLineBreak w = false) rendered _ Hsome Hplain).
    + replace (first =? height - 1) with false by (symmetry; apply Z.eqb_neq; lia).
      cbn [negb]. split; [reflexivity|]. intros _.
      destruct (Hlast ltac:(lia)) as [Hrestsome Hrestlast].
      split; [destruct rendered; discriminate|].
      rewrite app_assoc, last_of_app by exact Hrestsome. exact Hrestlast.
Qed.

(** X8. [showNLines] separates the rows with line breaks and ends without
    one: serialising [height] rows writes exactly [height - 1] line breaks,
    one after every row but the last, whatever the rows hold (the count of
    cells that [renderLine] reports never exceeds the row's length, so the
    first half of the test before the line break never fails). *)
Theorem showNLines_line_breaks screen width height clearFirst out :
  0 < height ->
  showNLines runeWidth Printable AttrBold AttrReverse screen width height clearFirst
  = Ok out ->
  Z.of_nat (lineBreaks out) = height - 1 /\
  isLineBreak (last out (WriteRune 0)) = false.
Proof.
  intros Hheight. unfold showNLines. cbv zeta.
  destruct (showRows runeWidth Printable AttrBold AttrReverse screen width height 0
              (Z.to_nat height)) as [rows| |] eqn:Hrows; cbn [andThen]; try discriminate.
  intros H. inversion H; subst out; clear H.
  destruct (showRows_breaks screen width height _ _ _ Hrows ltac:(lia)) as [Hcount Hlast].
  destruct (Hlast ltac:(lia)) as [Hsome Hplain].
  split.
  - rewrite lineBreaks_app, Hcount.
    rewrite (lineBreaks_none (if clearFirst then _ else _))
      by (intros w Hw; destruct clearFirst; [destruct Hw as [<-|[]]; reflexivity|destruct Hw]).
    lia.
  - rewrite last_of_app by exact Hsome. exact Hplain.
Qed.

End LineBreaks.

Lemma showNLines_line_breaks_witness :
  exists out,
    showNLines sampleWidth allPrintable 1 4 sampleScreen 3 2 true = Ok out /\
    lineBreaks out = 1%nat /\
    isLineBreak (last out (WriteRune 0)) = false.
Proof.
  destruct (showNLines sampleWidth allPrintable 1 4 sampleScreen 3 2 true)
    as [out| |] eqn:Hshow.
  2,3: vm_compute in Hshow; discriminate.
  exists out. split; [reflexivity|].
  destruct (showNLines_line_breaks sampleWidth allPrintable 1 4 sampleScreen 3 2 true out
              ltac:(lia) Hshow) as [Hcount Hlast].
  split; [lia|exact Hlast].
Defined.

(** ** Logging *)

(** X9. What [humanizeLowASCII] returns holds no control character below
    the space: each one has become its bracketed hexadecimal number; and a
    text without such characters comes back unchanged. *)
Theorem humanizeLowASCII_leaves_no_control_character input :
  Forall (fun c => 0 <= c) input ->
  Forall (fun c => runeSpace <= c) (humanizeLowASCII input) /\
  (Forall (fun c => runeSpace <= c) input -> humanizeLowASCII input = input).
Proof.
  intros Hrunes. split.
  - induction Hrunes as [|char rest Hchar _ IH]; cbn [humanizeLowASCII]; [constructor|].
    destruct (Z.ltb_spec char runeSpace) as [Hlow|Hhigh].
    + apply Forall_app. split; [|exact IH].
      assert (Hdigit : forall d, 0 <= d -> runeSpace <= hexDigitRune d).
      { intros d Hd. unfold hexDigitRune, runeSpace. destruct (d <? 10); lia. }
      unfold sprintfHex2.
      change (runesOf "<0x") with [60; 48; 120]. change (runesOf ">") with [62].
      apply Forall_app.
      split; [repeat (constructor; [unfold runeSpace; lia|]); constructor|].
      apply Forall_app.
      split; [|repeat (constructor; [unfold runeSpace; lia|]); constructor].
      destruct (char <? 16).
      * constructor; [unfold runeSpace; lia|].
        constructor; [apply Hdigit; exact Hchar|constructor].
      * constructor; [apply Hdigit; apply Z.div_pos; lia|].
        constructor; [apply Hdigit; apply Z.mod_pos_bound; lia|constructor].
    + constructor; [exact Hhigh|exact IH].
  - clear Hrunes. induction 1 as [|char rest Hchar _ IH]; cbn [humanizeLowASCII];
      [reflexivity|].
    destruct (Z.ltb_spec char runeSpace) as [Hlow|Hhigh]; [lia|]. rewrite IH. reflexivity.
Qed.

Lemma humanizeLowASCII_leaves_no_control_character_witness :
  humanizeLowASCII (runesOf (str1 ESC ++ "[Z" ++ str1 BEL))
  = runesOf "<0x1b>[Z<0x 7>" /\
  Forall (fun c => runeSpace <= c) (humanizeLowASCII (runesOf (str1 ESC ++ "[Z" ++ str1 BEL))).
Proof.
  split; [reflexivity|].
  apply (humanizeLowASCII_leaves_no_control_character (runesOf (str1 ESC ++ "[Z" ++ str1 BEL))).
  repeat constructor; discriminate.
Defined.


End TwinMore.

Module SearchMore.

Import Search SearchProps.

(** ** The chunk loop ends *)

(** The loop returns, and has then looked at no more lines than lay ahead of
    its start. *)
Lemma _findFirstHit_loop_bounded reader pattern before backwards :
  forall fuel position,
    linesAhead reader position backwards < Z.of_nat fuel ->
    exists result scanned,
      _findFirstHit_loop fuel reader position pattern before backwards
      = Some (result, scanned) /\
      Z.of_nat (List.length scanned) <= linesAhead reader position backwards.
Proof.
  induction fuel as [|fuel IH]; intros position Hfuel.
  - unfold linesAhead in Hfuel.
    destruct ((position <? 0) || (GetLineCount reader <=? position)) eqn:Hout; [lia|].
    apply orb_false_iff in Hout. destruct Hout as [H0 H1].
    apply Z.ltb_ge in H0. apply Z.leb_gt in H1. destruct backwards; lia.
  - cbn [_findFirstHit_loop].
    assert (Hnonneg : 0 <= linesAhead reader position backwards).
    { unfold linesAhead.
      destruct ((position <? 0) || (GetLineCount reader <=? position)) eqn:Hout; [lia|].
      apply orb_false_iff in Hout. destruct Hout as [H0 H1].
      apply Z.ltb_ge in H0. apply Z.leb_gt in H1. destruct backwards; lia. }
    destruct (GetLine reader position) as [line|] eqn:Hline;
      [|exists None, []; split; [reflexivity|exact Hnonneg]].
    apply GetLine_inside in Hline.
    assert (Hahead : 1 <= linesAhead reader position backwards).
    { unfold linesAhead.
      destruct ((position <? 0) || (GetLineCount reader <=? position)) eqn:Hout.
      - apply orb_true_iff in Hout. destruct Hout as [H|H];
          [apply Z.ltb_lt in H|apply Z.leb_le in H]; lia.
      - destruct backwards; lia. }
    destruct (pattern (Plain line));
      [exists (Some position), [position]; split; [reflexivity|exact Hahead]|].
    destruct (backwards && (position =? 0)) eqn:Htop;
      [exists None, [position]; split; [reflexivity|exact Hahead]|].
    match goal with
    | |- context [if ?atBound then _ else _] =>
        destruct atBound; [exists None, [position]; split; [reflexivity|exact Hahead]|]
    end.
    match goal with
    | |- context [_findFirstHit_loop fuel reader ?next] =>
        assert (Hnext : linesAhead reader next backwards
                        <= linesAhead reader position backwards - 1)
    end.
    { unfold linesAhead in *. unfold NonWrappingAdd.
      destruct ((position <? 0) || (GetLineCount reader <=? position)) eqn:Hout.
      { apply orb_true_iff in Hout. destruct Hout as [H|H];
          [apply Z.ltb_lt in H|apply Z.leb_le in H]; lia. }
      destruct backwards.
      + cbn [andb] in Htop. apply Z.eqb_neq in Htop.
        replace (Z.max 0 (position + -1)) with (position - 1) by lia.
        destruct ((position - 1 <? 0) || (GetLineCount reader <=? position - 1)); lia.
      + replace (Z.max 0 (position + 1)) with (position + 1) by lia.
        destruct ((position + 1 <? 0) || (GetLineCount reader <=? position + 1)); lia. }
    match goal with
    | |- context [_findFirstHit_loop fuel reader ?next] =>
        destruct (IH next ltac:(lia)) as (result & scanned & Hloop & Hcount)
    end.
    rewrite Hloop. exists result, (position :: scanned). split; [reflexivity|].
    cbn [List.length]. lia.
Qed.

(** X10. [_findFirstHit] returns on every input, whatever the start, the
    bound and the direction, and it has then matched no more lines against
    the pattern than the store holds. *)
Theorem _findFirstHit_returns_within_the_store reader start pattern before backwards :
  exists result scanned,
    _findFirstHit reader start pattern before backwards = Some (result, scanned) /\
    (List.length scanned <= List.length reader)%nat.
Proof.
  assert (Hahead : 0 <= linesAhead reader start backwards <= GetLineCount reader).
  { unfold linesAhead, GetLineCount.
    destruct ((start <? 0) || (Z.of_nat (List.length reader) <=? start)) eqn:Hout; [lia|].
    apply orb_false_iff in Hout. destruct Hout as [H0 H1].
    apply Z.ltb_ge in H0. apply Z.leb_gt in H1. destruct backwards; lia. }
  unfold _findFirstHit.
  destruct (_findFirstHit_loop_bounded reader pattern before backwards
              (S (List.length reader)) start) as (result & scanned & Hloop & Hcount).
  { unfold GetLineCount in Hahead. lia. }
  exists result, scanned. split; [exact Hloop|]. unfold GetLineCount in Hahead. lia.
Qed.

(** ** Every answer is a hit *)

Lemma _findFirstHit_loop_sound reader pattern before backwards :
  forall fuel position hit scanned,
    _findFirstHit_loop fuel reader position pattern before backwards
    = Some (Some hit, scanned) ->
    isHit reader pattern hit = true.
Proof.
  induction fuel as [|fuel IH]; intros position hit scanned H; cbn [_findFirstHit_loop] in H;
    [discriminate|].
  destruct (GetLine reader position) as [line|] eqn:Hline; [|discriminate].
  destruct (pattern (Plain line)) eqn:Hmatch.
  { inversion H; subst. unfold isHit. rewrite Hline. exact Hmatch. }
  destruct (backwards && (position =? 0)); [discriminate|].
  match type of H with
  | context [if ?atBound then _ else _] => destruct atBound; [discriminate|]
  end.
  match type of H with
  | context [_findFirstHit_loop fuel reader ?next] =>
      destruct (_findFirstHit_loop fuel reader next pattern before backwards)
        as [[result scanned']|] eqn:Hnext; cbn [visit] in H; [|discriminate]
  end.
  inversion H; subst. exact (IH _ _ _ Hnext).
Qed.

Lemma receive_was_sent workers order k finding :
  receive (sent workers order) k = Some finding ->
  nth_error workers k = Some (Some finding).
Proof.
  induction order as [|j order IH]; cbn [sent receive]; [discriminate|].
  destruct (nth_error workers j) as [[found|]|] eqn:Hj; [|exact IH|exact IH].
  cbn [receive]. destruct (Nat.eqb_spec j k) as [->|Hne]; [|exact IH].
  intros H. inversion H; subst. exact Hj.
Qed.

Lemma firstNonNil_received channels :
  forall remaining i hit,
    firstNonNil channels i remaining = Some (Some hit) ->
    exists k scanned, receive channels k = Some (Some hit, scanned).
Proof.
  induction remaining as [|remaining IH]; intros i hit H; cbn [firstNonNil] in H;
    [discriminate|].
  destruct (receive channels i) as [[[found|] scanned]|] eqn:Hreceive; [| |discriminate].
  - inversion H; subst. exists i, scanned. exact Hreceive.
  - exact (IH _ _ H).
Qed.

Lemma findFirstHit_sound numCPU order reader pattern start before backwards hit :
  findFirstHit numCPU order reader pattern start before backwards = Some (Some hit) ->
  isHit reader pattern hit = true.
Proof.
  unfold findFirstHit. cbv zeta. intros H.
  apply firstNonNil_received in H. destruct H as (k & scanned & Hreceive).
  apply receive_was_sent in Hreceive.
  unfold workersOf in Hreceive. cbv zeta in Hreceive.
  rewrite chunkWorkers_map, nth_error_map in Hreceive.
  match type of Hreceive with
  | context [nth_error ?l k] => destruct (nth_error l k) as [[j s]|]; [|discriminate]
  end.
  cbn [option_map fst snd] in Hreceive. inversion Hreceive as [Hworker]; clear Hreceive.
  unfold _findFirstHit in Hworker. exact (_findFirstHit_loop_sound _ _ _ _ _ _ _ _ Hworker).
Qed.

(** X11. [findFirstHit] never answers with a line that does not match: for
    every number of cores, every order in which the workers finish and every
    start and bound, proper range or not, an index it returns is the index
    of an existing line whose text matches the pattern. *)
Theorem findFirstHit_answers_only_with_hits
  numCPU order reader pattern start before backwards hit :
  findFirstHit numCPU order reader pattern start before backwards = Some (Some hit) ->
  0 <= hit < GetLineCount reader /\ isHit reader pattern hit = true.
Proof.
  intros H.
  pose proof (findFirstHit_sound numCPU order reader pattern start before backwards hit H)
    as Hhit.
  split; [|exact Hhit].
  unfold isHit in Hhit.
  destruct (GetLine reader hit) as [line|] eqn:Hline; [|discriminate].
  exact (GetLine_inside _ _ _ Hline).
Qed.

Lemma findFirstHit_answers_only_with_hits_witness :
  findFirstHit 2 [1%nat; 0%nat] store5 containsX 2 (Some 2) false = Some (Some 3) /\
  0 <= 3 < GetLineCount store5 /\ isHit store5 containsX 3 = true.
Proof.
  split; [reflexivity|].
  exact (findFirstHit_answers_only_with_hits 2 [1%nat; 0%nat] store5 containsX 2 (Some 2)
           false 3 eq_refl).
Defined.

(** ** Every call gets its answer *)

(** X12. The caller of [findFirstHit] always gets an answer: whatever the
    start, the bound and the direction, once every chunk worker is among
    those that finish, each of them has sent its finding and the first hit
    or no hit comes back. *)
Theorem findFirstHit_always_answers numCPU order reader pattern start before backwards :
  (forall k, In k (chunkNumbers numCPU reader start before backwards) -> In k order) ->
  exists result,
    findFirstHit numCPU order reader pattern start before backwards = Some result.
Proof.
  exact (findFirstHit_returns numCPU order reader pattern start before backwards).
Qed.

Lemma findFirstHit_always_answers_witness :
  exists result, findFirstHit 2 [1%nat; 0%nat] store5 containsX 4 (Some 4) true = Some result.
Proof.
  apply (findFirstHit_always_answers 2 [1%nat; 0%nat] store5 containsX 4 (Some 4) true).
  intros k Hk. vm_compute in Hk. simpl. tauto.
Defined.

(** ** What the workers look at *)

(** X13. The chunk workers of one call share the work without overlap: for
    a proper range and any number of cores, no line is matched against the
    pattern twice, no line outside the range is ever read, and a line of the
    range with no hit before it in scan order is always looked at. *)
Theorem findFirstHit_workers_share_the_range
  numCPU reader pattern start before backwards :
  1 <= numCPU ->
  properRange reader start before backwards ->
  NoDup (linesScanned numCPU reader pattern start before backwards) /\
  (forall j, In j (linesScanned numCPU reader pattern start before backwards) ->
             inRange reader start before backwards j) /\
  (forall j, inRange reader start before backwards j ->
             (forall i, inRange reader start before backwards i ->
                        scansBefore backwards i j -> isHit reader pattern i = false) ->
             In j (linesScanned numCPU reader pattern start before backwards)).
Proof.
  intros Hcpu Hproper.
  destruct (linesScanned_range numCPU reader pattern start before backwards Hcpu Hproper)
    as (Hnodup & Hin & _).
  split; [exact Hnodup|]. split; [exact Hin|].
  exact (linesScanned_until_hit numCPU reader pattern start before backwards Hcpu Hproper).
Qed.

Lemma findFirstHit_workers_share_the_range_witness :
  linesScanned 2 store5 containsX 0 None false = [0; 1; 2; 3] /\
  NoDup (linesScanned 2 store5 containsX 0 None false) /\
  In 2 (linesScanned 2 store5 containsX 0 None false).
Proof.
  split; [reflexivity|].
  destruct (findFirstHit_workers_share_the_range 2 store5 containsX 0 None false)
    as (Hnodup & _ & Huntil).
  - lia.
  - unfold properRange. split; [lia|]. split; [discriminate|exact I].
  - split; [exact Hnodup|]. simpl. tauto.
Defined.

End SearchMore.

Module PagerMore.

Import Twin Search Pager PagerProps.

(** ** Scrolling right: when it ends and when it does not *)

(** The width of the longest of the input lines on screen, as
    [scrollRightToSearchHits] works it out. *)
Definition longestInputLine (env : Environment) (rendered : renderedScreen) : Z :=
  fold_left (fun longest inputLine => maxZ longest (DisplayWidth env inputLine))
            (inputLines rendered) 0.

(** X14. On a screen exactly one column wider than the gutter,
    [scrollRightToSearchHits] never returns once the view it starts from has
    room to scroll and shows no hit: each iteration scrolls to the column
    the view is at already, so no number of iterations is enough. *)
Theorem scrollRightToSearchHits_goes_nowhere env p rendered q r :
  WrapLongLines p = false ->
  renderLines env p = Ok (rendered, q) ->
  screenWidth env - numberPrefixWidth rendered - 1 = 0 ->
  0 <= leftColumnZeroBased q < longestInputLine env rendered - screenWidth env ->
  searchHitIsVisible env (setLeftColumn (leftColumnZeroBased q) (setShowLineNumbers false q))
  = Ok (false, r) ->
  searchHitIsVisible env r = Ok (false, r) ->
  forall fuel, scrollRightToSearchHits env fuel p = Loops.
Proof.
  intros Hwrap Hrender Hstep Hleft Hfirst Hagain fuel.
  unfold scrollRightToSearchHits. rewrite Hwrap, Hrender. cbn [andThen].
  apply (scrollRightLoop_stuck_after_one env) with (q := r);
    [exact Hstep | exact (proj2 Hleft) | exact (proj1 Hleft) | exact Hfirst | exact Hagain].
Qed.

Lemma scrollRightToSearchHits_goes_nowhere_witness :
  scrollRightToSearchHits (sampleEnv wideStore 5 3) 1000 (samplePager wideStore 0 false)
  = Loops.
Proof.
  eapply (scrollRightToSearchHits_goes_nowhere (sampleEnv wideStore 5 3)
            (samplePager wideStore 0 false)).
  - reflexivity.
  - vm_compute. reflexivity.
  - vm_compute. reflexivity.
  - vm_compute. split; [discriminate|reflexivity].
  - vm_compute. reflexivity.
  - vm_compute. reflexivity.
Defined.

(** X15. On any other screen [scrollRightToSearchHits] comes to an end: when
    the screen is not exactly one column wider than the gutter, every
    iteration moves the view, and within as many iterations as there are
    columns to cross the call returns or panics. *)
Theorem scrollRightToSearchHits_comes_to_an_end env fuel p rendered q :
  renderLines env p = Ok (rendered, q) ->
  screenWidth env - numberPrefixWidth rendered - 1 <> 0 ->
  Z.max 1 (Z.max (longestInputLine env rendered - screenWidth env - leftColumnZeroBased q)
                 (leftColumnZeroBased q + 1)) <= Z.of_nat fuel ->
  halts (scrollRightToSearchHits env fuel p).
Proof.
  intros Hrender Hstep Hfuel. unfold scrollRightToSearchHits.
  destruct (WrapLongLines p); [discriminate|].
  rewrite Hrender. cbn [andThen].
  apply scrollRightLoop_enough_fuel; [exact Hstep|].
  intros _. fold (longestInputLine env rendered).
  destruct (0 <? screenWidth env - numberPrefixWidth rendered - 1); lia.
Qed.

Lemma scrollRightToSearchHits_comes_to_an_end_witness :
  halts (scrollRightToSearchHits (sampleEnv wideStore 6 3) 8 (samplePager wideStore 0 false)).
Proof.
  eapply (scrollRightToSearchHits_comes_to_an_end (sampleEnv wideStore 6 3) 8
            (samplePager wideStore 0 false)).
  - vm_compute. reflexivity.
  - vm_compute. discriminate.
  - vm_compute. discriminate.
Defined.

(** ** Scrolling left *)

Lemma rendered_from_preference p p' :
  rendered_from p p' -> ShowLineNumbers p' = ShowLineNumbers p.
Proof. intros [n ->]. destruct p; reflexivity. Qed.

Lemma scrolled_same' column b p :
  sameSearchState p (setShowLineNumbers b (setLeftColumn column p)).
Proof. destruct p; repeat split. Qed.

(** What the scroll-left loop does, however many iterations it gets. *)
Lemma scrollLeftLoop_spec env screenWidth fullLeft restoreShowLineNumbers restoreLeftColumn :
  forall fuel p found p',
    scrollLeftLoop env fuel screenWidth fullLeft restoreShowLineNumbers restoreLeftColumn p
    = Ok (found, p') ->
    sameSearchState p p' /\
    if found then
      exists shown screen,
        renderLines env shown = Ok (screen, p') /\
        leftColumnZeroBased shown = leftColumnZeroBased p' /\
        showLineNumbers shown = showLineNumbers p' /\
        anyStartsSearchHit (lines screen) = true
    else
      leftColumnZeroBased p' = restoreLeftColumn /\
      showLineNumbers p' = restoreShowLineNumbers.
Proof.
  induction fuel as [|fuel IH]; intros p found p' H; cbn [scrollLeftLoop] in H.
  - destruct ((leftColumnZeroBased p >? 0) ||
              negb (Bool.eqb (showLineNumbers p) (ShowLineNumbers p))); [discriminate|].
    inversion H; subst. split; [apply scrolled_same|]. destruct p; simpl; auto.
  - destruct ((leftColumnZeroBased p >? 0) ||
              negb (Bool.eqb (showLineNumbers p) (ShowLineNumbers p))).
    2:{ inversion H; subst. split; [apply scrolled_same|]. destruct p; simpl; auto. }
    cbv zeta in H.
    match type of H with
    | context [searchHitIsVisible env ?q] =>
        set (scrolled := q) in *;
        destruct (searchHitIsVisible env scrolled) as [[visible q']| |] eqn:Hvisible;
        cbn [andThen] in H; try discriminate
    end.
    apply searchHitIsVisible_spec in Hvisible.
    destruct Hvisible as (Hframe & screen & Hrender & Hhit).
    destruct (rendered_from_view _ _ Hframe) as (Hl & Hs & _).
    assert (Hsame : sameSearchState p q').
    { eapply sameSearchState_trans; [|apply rendered_from_same; exact Hframe].
      subst scrolled.
      destruct (leftColumnZeroBased p <=? fullLeft);
        [apply scrolled_same|apply scrolled_same']. }
    destruct visible.
    + inversion H; subst. split; [exact Hsame|].
      exists scrolled, screen. auto.
    + apply IH in H. destruct H as (Hsame' & Hrest).
      split; [|exact Hrest]. exact (sameSearchState_trans _ _ _ Hsame Hsame').
Qed.

(** X16. [scrollLeftToSearchHits] either finds or restores: whenever it
    returns false, [leftColumnZeroBased] and [showLineNumbers] are what they
    were before the call; after it returns true, the screen rendered at the
    scroll state it returns with has a cell that starts a search hit.  In
    both cases the mode, the pattern, the reader and the scroll position are
    untouched and no search was made. *)
Theorem scrollLeftToSearchHits_finds_or_restores env fuel p found p' :
  scrollLeftToSearchHits env fuel p = Ok (found, p') ->
  sameSearchState p p' /\
  if found then
    exists shown screen row cell,
      renderLines env shown = Ok (screen, p') /\
      leftColumnZeroBased shown = leftColumnZeroBased p' /\
      showLineNumbers shown = showLineNumbers p' /\
      In row (lines screen) /\ In cell (cellsOf row) /\ StartsSearchHit cell = true
  else
    leftColumnZeroBased p' = leftColumnZeroBased p /\
    showLineNumbers p' = showLineNumbers p.
Proof.
  unfold scrollLeftToSearchHits.
  destruct (WrapLongLines p).
  { intros H. inversion H; subst. split; [apply sameSearchState_refl|auto]. }
  cbv zeta.
  match goal with
  | |- context [renderLines env ?q] =>
      set (fullLeft := q);
      destruct (renderLines env fullLeft) as [[rendered q1]| |] eqn:Hrender;
      cbn [andThen]; try discriminate
  end.
  apply renderLines_frame, rendered_from_same in Hrender.
  intros H. apply scrollLeftLoop_spec in H. destruct H as (Hsame & H).
  split.
  - eapply sameSearchState_trans; [|exact Hsame].
    eapply sameSearchState_trans; [|apply scrolled_same'].
    eapply sameSearchState_trans; [|exact Hrender].
    subst fullLeft. apply scrolled_same.
  - destruct found.
    + destruct H as (shown & screen & H1 & H2 & H3 & H4).
      destruct (anyStartsSearchHit_true _ H4) as (row & cell & Hrow & Hcell & Hhit).
      exists shown, screen, row, cell. auto 10.
    + exact H.
Qed.

(** A pager scrolled three columns to the right. *)
Definition scrolledPager (lines : Reader) (left : Z) : Pager :=
  setShowLineNumbers false (setLeftColumn left (samplePager lines 0 false)).

(** One line with its hit in the first column. *)
Definition hitFirstStore : Reader := [mkLine "xaaaaaaaaa"].

Lemma scrollLeftToSearchHits_finds_or_restores_witness :
  exists p',
    scrollLeftToSearchHits (sampleEnv hitFirstStore 6 3) 8 (scrolledPager hitFirstStore 4)
    = Ok (true, p') /\
    leftColumnZeroBased p' = 0 /\
    sameSearchState (scrolledPager hitFirstStore 4) p'.
Proof.
  destruct (scrollLeftToSearchHits (sampleEnv hitFirstStore 6 3) 8 (scrolledPager hitFirstStore 4))
    as [[found p']| |] eqn:Hscroll.
  2,3: vm_compute in Hscroll; discriminate.
  assert (Hfound : found = true /\ leftColumnZeroBased p' = 0).
  { vm_compute in Hscroll. inversion Hscroll. split; reflexivity. }
  destruct Hfound as [-> Hleft].
  exists p'. split; [reflexivity|]. split; [exact Hleft|].
  exact (proj1 (scrollLeftToSearchHits_finds_or_restores _ _ _ _ _ Hscroll)).
Defined.

Lemma scrollLeftLoop_enough_fuel env screenWidth fullLeft restoreShowLineNumbers
  restoreLeftColumn preference :
  2 <= screenWidth ->
  0 <= fullLeft \/ preference = false ->
  forall fuel p,
    ShowLineNumbers p = preference ->
    ((leftColumnZeroBased p >? 0) ||
     negb (Bool.eqb (showLineNumbers p) (ShowLineNumbers p)) = true ->
     Z.max 0 (leftColumnZeroBased p) + 2 <= Z.of_nat fuel) ->
    halts (scrollLeftLoop env fuel screenWidth fullLeft restoreShowLineNumbers
             restoreLeftColumn p).
Proof.
  intros Hwidth Hroom. induction fuel as [|fuel IH]; intros p Hpreference Hfuel;
    cbn [scrollLeftLoop].
  - destruct ((leftColumnZeroBased p >? 0) ||
              negb (Bool.eqb (showLineNumbers p) (ShowLineNumbers p)));
      [specialize (Hfuel eq_refl); lia|discriminate].
  - destruct ((leftColumnZeroBased p >? 0) ||
              negb (Bool.eqb (showLineNumbers p) (ShowLineNumbers p))) eqn:Hcondition;
      [|discriminate].
    specialize (Hfuel eq_refl). cbv zeta.
    match goal with
    | |- context [searchHitIsVisible env ?q] =>
        set (scrolled := q);
        pose proof (searchHitIsVisible_halts env scrolled) as Hhalts;
        destruct (searchHitIsVisible env scrolled) as [[visible q']| |] eqn:Hvisible;
        cbn [andThen]; [|discriminate|exact Hhalts]
    end.
    destruct visible; [discriminate|].
    apply searchHitIsVisible_spec in Hvisible. destruct Hvisible as [Hframe _].
    destruct (rendered_from_view _ _ Hframe) as (Hl & Hs & _).
    pose proof (rendered_from_preference _ _ Hframe) as Hp.
    apply IH.
    + rewrite Hp. subst scrolled.
      destruct (leftColumnZeroBased p <=? fullLeft); destruct p; exact Hpreference.
    + rewrite Hl, Hs, Hp. subst scrolled.
      destruct (Z.leb_spec (leftColumnZeroBased p) fullLeft) as [Hshown|Hhidden].
      * (* at the left margin, numbers as preferred: the loop is over *)
        destruct p; cbn. rewrite Bool.eqb_reflx. cbn. discriminate.
      * destruct (Z.ltb_spec (leftColumnZeroBased p - screenWidth + 1) 0) as [Hneg|Hpos].
        -- destruct (Z.gtb_spec (leftColumnZeroBased p) 0) as [Hright|Hmargin].
           ++ destruct p; cbn in *. intros _. lia.
           ++ (* at the margin already, so the preference is not to show numbers *)
              destruct Hroom as [Hroom|Hnone]; [lia|].
              destruct p; cbn in *. subst. cbn. discriminate.
        -- destruct p; cbn in *. intros _. lia.
Qed.

(** X17. [scrollLeftToSearchHits] comes to an end on a screen at least two
    columns wide that has room for the gutter and two more columns, or whose
    user does not want line numbers: every iteration then moves the view
    left or ends the loop, and the call returns or panics within two
    iterations more than the view is scrolled right. *)
Theorem scrollLeftToSearchHits_comes_to_an_end env fuel p rendered q :
  renderLines env (setLeftColumn 0 (setShowLineNumbers (ShowLineNumbers p) p))
  = Ok (rendered, q) ->
  2 <= screenWidth env ->
  numberPrefixWidth rendered + 2 <= screenWidth env \/ ShowLineNumbers p = false ->
  Z.max 0 (leftColumnZeroBased p) + 2 <= Z.of_nat fuel ->
  halts (scrollLeftToSearchHits env fuel p).
Proof.
  intros Hrender Hwidth Hroom Hfuel. unfold scrollLeftToSearchHits.
  destruct (WrapLongLines p); [discriminate|].
  cbv zeta. rewrite Hrender. cbn [andThen].
  apply renderLines_frame, rendered_from_preference in Hrender.
  apply scrollLeftLoop_enough_fuel with (preference := ShowLineNumbers p).
  - exact Hwidth.
  - destruct Hroom as [Hroom|Hnone]; [left; lia|right; exact Hnone].
  - destruct q; cbn in *. exact Hrender.
  - intros _. destruct q; cbn in *. exact Hfuel.
Qed.

Lemma scrollLeftToSearchHits_comes_to_an_end_witness :
  halts (scrollLeftToSearchHits (sampleEnv wideStore 6 3) 8 (scrolledPager wideStore 4)).
Proof.
  eapply (scrollLeftToSearchHits_comes_to_an_end (sampleEnv wideStore 6 3) 8
            (scrolledPager wideStore 4)).
  - vm_compute. reflexivity.
  - vm_compute. discriminate.
  - left. vm_compute. discriminate.
  - vm_compute. discriminate.
Defined.

Lemma scrollLeftLoop_stuck env screenWidth fullLeft restoreShowLineNumbers restoreLeftColumn p :
  1 <= screenWidth ->
  fullLeft < 0 ->
  leftColumnZeroBased p = 0 ->
  showLineNumbers p = false ->
  ShowLineNumbers p = true ->
  searchHitIsVisible env p = Ok (false, p) ->
  forall fuel,
    scrollLeftLoop env fuel screenWidth fullLeft restoreShowLineNumbers restoreLeftColumn p
    = Loops.
Proof.
  intros Hwidth Hfull Hleft Hshow Hpreference Hvisible.
  assert (Hsame : setShowLineNumbers false (setLeftColumn 0 p) = p).
  { destruct p; cbn in *. subst. reflexivity. }
  induction fuel as [|fuel IH]; cbn [scrollLeftLoop];
    rewrite Hleft, Hshow, Hpreference; cbn [Z.gtb Z.compare Bool.eqb negb orb];
    [reflexivity|].
  cbv zeta. destruct (Z.leb_spec 0 fullLeft) as [Hroom|_]; [lia|].
  replace (if 0 - screenWidth + 1 <? 0 then 0 else 0 - screenWidth + 1) with 0
    by (destruct (Z.ltb_spec (0 - screenWidth + 1) 0); lia).
  rewrite Hsame, Hvisible. cbn [andThen]. exact IH.
Qed.

(** X18. [scrollLeftToSearchHits] can loop forever: on a screen with less
    room than the gutter and two columns, with line numbers wanted but not
    shown, a view at the left margin that shows no hit is scrolled to where
    it is, with the numbers still off, so the loop's condition never
    changes. *)
Theorem scrollLeftToSearchHits_goes_nowhere env p rendered q r :
  WrapLongLines p = false ->
  ShowLineNumbers p = true ->
  showLineNumbers p = false ->
  leftColumnZeroBased p = 0 ->
  renderLines env (setLeftColumn 0 (setShowLineNumbers true p)) = Ok (rendered, q) ->
  1 <= screenWidth env < numberPrefixWidth rendered + 2 ->
  searchHitIsVisible env (setShowLineNumbers false (setLeftColumn 0 q)) = Ok (false, r) ->
  searchHitIsVisible env r = Ok (false, r) ->
  forall fuel, scrollLeftToSearchHits env fuel p = Loops.
Proof.
  intros Hwrap Hpreference Hshow Hleft Hrender Hwidth Hfirst Hagain fuel.
  unfold scrollLeftToSearchHits. rewrite Hwrap, Hpreference, Hshow, Hleft. cbv zeta.
  rewrite Hrender. cbn [andThen].
  pose proof (renderLines_frame _ _ _ _ Hrender) as Hframe.
  pose proof (rendered_from_preference _ _ Hframe) as Hq.
  pose proof (searchHitIsVisible_spec _ _ _ _ Hfirst) as [Hframe' _].
  destruct (rendered_from_view _ _ Hframe') as (Hl & Hs & _).
  pose proof (rendered_from_preference _ _ Hframe') as Hr.
  assert (Hstuck : forall fuel',
             scrollLeftLoop env fuel' (screenWidth env)
               (screenWidth env - 2 - numberPrefixWidth rendered) false 0 r = Loops).
  { apply scrollLeftLoop_stuck; try lia.
    - rewrite Hl. destruct q; reflexivity.
    - rewrite Hs. destruct q; reflexivity.
    - rewrite Hr. destruct q; cbn in *. rewrite Hq. destruct p; exact Hpreference.
    - exact Hagain. }
  destruct fuel as [|fuel]; cbn [scrollLeftLoop].
  - destruct q; cbn in *. rewrite Hq. destruct p; cbn in *. subst. reflexivity.
  - replace ((leftColumnZeroBased (setShowLineNumbers false (setLeftColumn 0 q)) >? 0) ||
             negb (Bool.eqb (showLineNumbers (setShowLineNumbers false (setLeftColumn 0 q)))
                     (ShowLineNumbers (setShowLineNumbers false (setLeftColumn 0 q)))))
      with true
      by (destruct q; cbn in *; rewrite Hq; destruct p; cbn in *; subst; reflexivity).
    cbv zeta.
    replace (leftColumnZeroBased (setShowLineNumbers false (setLeftColumn 0 q))) with 0
      by (destruct q; reflexivity).
    destruct (Z.leb_spec 0 (screenWidth env - 2 - numberPrefixWidth rendered)); [lia|].
    replace (if 0 - screenWidth env + 1 <? 0 then 0 else 0 - screenWidth env + 1) with 0
      by (destruct (Z.ltb_spec (0 - screenWidth env + 1) 0); lia).
    replace (setShowLineNumbers false
               (setLeftColumn 0 (setShowLineNumbers false (setLeftColumn 0 q))))
      with (setShowLineNumbers false (setLeftColumn 0 q))
      by (destruct q; reflexivity).
    rewrite Hfirst. cbn [andThen]. apply Hstuck.
Qed.

Lemma scrollLeftToSearchHits_goes_nowhere_witness :
  scrollLeftToSearchHits (sampleEnv wideStore 5 3) 1000 (scrolledPager wideStore 0) = Loops.
Proof.
  eapply (scrollLeftToSearchHits_goes_nowhere (sampleEnv wideStore 5 3)
            (scrolledPager wideStore 0)).
  - reflexivity.
  - reflexivity.
  - reflexivity.
  - reflexivity.
  - vm_compute. reflexivity.
  - vm_compute. split; [discriminate|reflexivity].
  - vm_compute. reflexivity.
  - vm_compute. reflexivity.
Defined.

(** ** Where the search commands leave the view *)

(** The view is where it was, or at the top of a line that matches. *)
Definition onAHit (p p' : Pager) (source : string) : Prop :=
  position p' = position p \/
  exists pattern hit,
    searchPattern p = Some pattern /\
    SearchProps.isHit (reader p) pattern hit = true /\
    position p' = NewScrollPositionFromIndex hit source.

Lemma pagerFindFirstHit_keeps env start before backwards p result p' :
  pagerFindFirstHit env start before backwards p = Ok (result, p') ->
  mode p' = mode p /\ reader p' = reader p /\ searchPattern p' = searchPattern p /\
  position p' = position p /\
  leftColumnZeroBased p' = leftColumnZeroBased p /\
  showLineNumbers p' = showLineNumbers p /\
  forall hit, result = Some hit ->
    exists pattern,
      searchPattern p = Some pattern /\ SearchProps.isHit (reader p) pattern hit = true.
Proof.
  intros H. apply pagerFindFirstHit_spec in H.
  destruct H as (pattern & Hpattern & Hfind & ->).
  destruct p; cbn in *. repeat split.
  intros hit ->. exists pattern. split; [exact Hpattern|].
  exact (SearchMore.findFirstHit_sound _ _ _ _ _ _ _ _ Hfind).
Qed.

Lemma scrollToSearchHits_lands env fuel p p' :
  scrollToSearchHits env fuel p = Ok (tt, p') ->
  onAHit p p' "scrollToSearchHits" /\ mode p' = mode p.
Proof.
  unfold scrollToSearchHits.
  destruct (searchPattern p) as [pattern|] eqn:Hpattern.
  2:{ intros H. inversion H; subst. split; [left|]; reflexivity. }
  destruct (lineIndex env p) as [top|].
  2:{ intros H. inversion H; subst. split; [left|]; reflexivity. }
  destruct (searchHitIsVisible env p) as [[visible p1]| |] eqn:Hvisible;
    cbn [andThen]; try discriminate.
  apply searchHitIsVisible_same in Hvisible.
  destruct visible.
  { intros H. inversion H; subst. destruct Hvisible as (Hm & _ & _ & _ & Hp).
    split; [left; exact Hp|exact Hm]. }
  destruct (scrollRightToSearchHits env fuel p1) as [[found p2]| |] eqn:Hscroll;
    cbn [andThen]; try discriminate.
  apply scrollRightToSearchHits_same in Hscroll.
  pose proof (sameSearchState_trans _ _ _ Hvisible Hscroll)
    as (Hmode2 & _ & Hreader2 & Hpattern2 & Hposition2).
  destruct found.
  { intros H. inversion H; subst. split; [left; exact Hposition2|exact Hmode2]. }
  destruct (pagerFindFirstHit env top None false p2) as [[result p3]| |] eqn:Hfirst;
    cbn [andThen]; try discriminate.
  apply pagerFindFirstHit_keeps in Hfirst.
  destruct Hfirst as (Hmode3 & Hreader3 & Hpattern3 & Hposition3 & _ & _ & Hhit3).
  assert (Hshown : forall q hit q',
             mode q = mode p ->
             (exists pattern',
                 searchPattern p = Some pattern' /\
                 SearchProps.isHit (reader p) pattern' hit = true) ->
             showHit env fuel
               (setScrollPosition (NewScrollPositionFromIndex hit "scrollToSearchHits") q)
             = Ok (tt, q') ->
             onAHit p q' "scrollToSearchHits" /\ mode q' = mode p).
  { intros q hit q' Hq (pattern' & Hp' & Hhit) Hshow.
    apply showHit_same in Hshow. destruct Hshow as (Hm & _ & _ & _ & Hpos).
    split.
    - right. exists pattern', hit. split; [exact Hp'|]. split; [exact Hhit|].
      rewrite Hpos. destruct q; reflexivity.
    - rewrite Hm. destruct q; exact Hq. }
  destruct result as [hit|]; cbn [andThen].
  - apply Hshown; [congruence|].
    destruct (Hhit3 hit eq_refl) as (pattern' & Hp' & Hhit).
    exists pattern'. split; [congruence|]. rewrite <- Hreader2. exact Hhit.
  - destruct (top =? 0); cbn [andThen].
    + intros H. inversion H; subst. split; [left; congruence|congruence].
    + destruct (pagerFindFirstHit env 0 (Some top) false p3) as [[result p4]| |] eqn:Hretry;
        cbn [andThen]; try discriminate.
      apply pagerFindFirstHit_keeps in Hretry.
      destruct Hretry as (Hmode4 & Hreader4 & Hpattern4 & Hposition4 & _ & _ & Hhit4).
      destruct result as [hit|].
      * apply Hshown; [congruence|].
        destruct (Hhit4 hit eq_refl) as (pattern' & Hp' & Hhit).
        exists pattern'. split; [congruence|].
        rewrite <- Hreader2, <- Hreader3. exact Hhit.
      * intros H. inversion H; subst. split; [left; congruence|congruence].
Qed.


(** [p'] is [p] scrolled sideways: nothing differs but the left column, the
    line numbers being shown, and the longest line length that rendering
    keeps. *)
Definition onlyScrolled (p p' : Pager) : Prop :=
  exists n column shown,
    p' = setLongestLineLength n (setLeftColumn column (setShowLineNumbers shown p)).

Lemma onlyScrolled_refl p : onlyScrolled p p.
Proof.
  exists (longestLineLength p), (leftColumnZeroBased p), (showLineNumbers p).
  destruct p; reflexivity.
Qed.

Lemma onlyScrolled_trans p q r : onlyScrolled p q -> onlyScrolled q r -> onlyScrolled p r.
Proof.
  intros (n & c & b & ->) (n' & c' & b' & ->). exists n', c', b'. destruct p; reflexivity.
Qed.

Lemma rendered_onlyScrolled p p' : rendered_from p p' -> onlyScrolled p p'.
Proof.
  intros [n ->]. exists n, (leftColumnZeroBased p), (showLineNumbers p).
  destruct p; reflexivity.
Qed.

Lemma scrolled_onlyScrolled column shown p :
  onlyScrolled p (setLeftColumn column (setShowLineNumbers shown p)).
Proof. exists (longestLineLength p), column, shown. destruct p; reflexivity. Qed.

Lemma onlyScrolled_keeps p p' :
  onlyScrolled p p' ->
  sameSearchState p p' /\
  TargetLine p' = TargetLine p /\
  ShowLineNumbers p' = ShowLineNumbers p /\
  WrapLongLines p' = WrapLongLines p /\
  ScrollLeftHint p' = ScrollLeftHint p /\
  ScrollRightHint p' = ScrollRightHint p.
Proof. intros (n & c & b & ->). destruct p; repeat split. Qed.

Lemma searchHitIsVisible_onlyScrolled env p visible p' :
  searchHitIsVisible env p = Ok (visible, p') -> onlyScrolled p p'.
Proof.
  intros H. apply searchHitIsVisible_spec in H. destruct H as [H _].
  exact (rendered_onlyScrolled _ _ H).
Qed.

Lemma scrollRightLoop_onlyScrolled env screenWidth maxLeftmostColumn numberPrefixWidth
  restoreShowLineNumbers restoreLeftColumn :
  forall fuel p found p',
    scrollRightLoop env fuel screenWidth maxLeftmostColumn numberPrefixWidth
      restoreShowLineNumbers restoreLeftColumn p = Ok (found, p') ->
    onlyScrolled p p'.
Proof.
  induction fuel as [|fuel IH]; intros p found p' H; cbn [scrollRightLoop] in H.
  - destruct (leftColumnZeroBased p <? maxLeftmostColumn); [discriminate|].
    inversion H; subst. apply scrolled_onlyScrolled.
  - destruct (leftColumnZeroBased p <? maxLeftmostColumn);
      [|inversion H; subst; apply scrolled_onlyScrolled].
    destruct (leftColumnZeroBased p + screenWidth - numberPrefixWidth - 1 <? 0);
      [inversion H; subst; apply scrolled_onlyScrolled|].
    cbv zeta in H.
    match type of H with
    | context [searchHitIsVisible env ?q] =>
        destruct (searchHitIsVisible env q) as [[visible q']| |] eqn:Hvisible;
        cbn [andThen] in H; try discriminate;
        apply searchHitIsVisible_onlyScrolled in Hvisible;
        pose proof (onlyScrolled_trans _ _ _ (scrolled_onlyScrolled _ _ p) Hvisible) as Hstep
    end.
    destruct visible.
    + inversion H; subst. exact Hstep.
    + exact (onlyScrolled_trans _ _ _ Hstep (IH _ _ _ H)).
Qed.

Lemma scrollRightToSearchHits_onlyScrolled env fuel p found p' :
  scrollRightToSearchHits env fuel p = Ok (found, p') -> onlyScrolled p p'.
Proof.
  unfold scrollRightToSearchHits.
  destruct (WrapLongLines p); [intros H; inversion H; subst; apply onlyScrolled_refl|].
  destruct (renderLines env p) as [[rendered q]| |] eqn:Hrender; cbn [andThen];
    try discriminate.
  apply renderLines_frame, rendered_onlyScrolled in Hrender.
  intros H. apply scrollRightLoop_onlyScrolled in H.
  exact (onlyScrolled_trans _ _ _ Hrender H).
Qed.

Lemma showHit_onlyScrolled env fuel p p' :
  showHit env fuel p = Ok (tt, p') -> onlyScrolled p p'.
Proof.
  unfold showHit.
  match goal with
  | |- context [searchHitIsVisible env ?q] =>
      destruct (searchHitIsVisible env q) as [[visible q1]| |] eqn:Hvisible;
      cbn [andThen]; try discriminate;
      apply searchHitIsVisible_onlyScrolled in Hvisible;
      assert (Hstart : onlyScrolled p q)
        by (exists (longestLineLength p), 0, (ShowLineNumbers p); destruct p; reflexivity)
  end.
  pose proof (onlyScrolled_trans _ _ _ Hstart Hvisible) as Hq1.
  destruct visible; cbn [negb].
  - intros H. inversion H; subst. exact Hq1.
  - destruct (scrollRightToSearchHits env fuel q1) as [[found q2]| |] eqn:Hscroll;
      cbn [andThen]; try discriminate.
    apply scrollRightToSearchHits_onlyScrolled in Hscroll.
    intros H. inversion H; subst. exact (onlyScrolled_trans _ _ _ Hq1 Hscroll).
Qed.

Lemma scrollToNextSearchHit_lands env fuel p p' :
  scrollToNextSearchHit env fuel p = Ok (tt, p') ->
  onAHit p p' "scrollToNextSearchHit" /\
  (position p' = position p \/ TargetLine p' = None).
Proof.
  unfold scrollToNextSearchHit.
  destruct (searchPattern p) as [pattern|] eqn:Hpattern.
  2:{ intros H. inversion H; subst. split; left; reflexivity. }
  destruct (GetLineCount (reader p) =? 0).
  { intros H. inversion H; subst. split; left; reflexivity. }
  destruct (scrollRightToSearchHits env fuel p) as [[found p1]| |] eqn:Hscroll;
    cbn [andThen]; try discriminate.
  apply scrollRightToSearchHits_same in Hscroll.
  destruct Hscroll as (Hmode1 & _ & Hreader1 & Hpattern1 & Hposition1).
  destruct found.
  { intros H. inversion H; subst. split; left; exact Hposition1. }
  destruct (isViewing p1 && isScrolledToEnd env p1).
  { intros H. inversion H; subst. split; left; destruct p1; exact Hposition1. }
  assert (Hsearch : forall q first q',
             reader q = reader p -> searchPattern q = searchPattern p ->
             position q = position p ->
             (let! (firstHitIndex, p) := pagerFindFirstHit env first None false q in
              match firstHitIndex with
              | None => Ok (tt, setMode PagerModeNotFound p)
              | Some hit =>
                  showHit env fuel
                    (clearTargetLine
                       (setScrollPosition
                          (NewScrollPositionFromIndex hit "scrollToNextSearchHit") p))
              end) = Ok (tt, q') ->
             onAHit p q' "scrollToNextSearchHit" /\
             (position q' = position p \/ TargetLine q' = None)).
  { intros q first q' Hreader Hpat Hpos.
    destruct (pagerFindFirstHit env first None false q) as [[result q1]| |] eqn:Hfind;
      cbn [andThen]; try discriminate.
    apply pagerFindFirstHit_keeps in Hfind.
    destruct Hfind as (_ & Hreaderq & Hpatternq & Hpositionq & _ & _ & Hhit).
    destruct result as [hit|].
    - intros Hshow. apply showHit_onlyScrolled, onlyScrolled_keeps in Hshow.
      destruct Hshow as ((_ & _ & _ & _ & Hposition) & Htarget & _).
      destruct (Hhit hit eq_refl) as (pattern' & Hp' & Hmatches).
      split; [right|right].
      + exists pattern', hit. split; [congruence|]. split; [congruence|].
        rewrite Hposition. destruct q1; reflexivity.
      + rewrite Htarget. destruct q1; reflexivity.
    - intros H. inversion H; subst. split; left; destruct q1; cbn in *; congruence. }
  destruct (isViewing p1).
  { cbn [andThen]. apply Hsearch; assumption. }
  destruct (isNotFound p1); cbn [andThen]; [|discriminate].
  apply Hsearch; destruct p1; assumption.
Qed.

Lemma scrollToPreviousSearchHit_lands env p p' :
  scrollToPreviousSearchHit env p = Ok (tt, p') ->
  onAHit p p' "scrollToPreviousSearchHit" /\
  leftColumnZeroBased p' = leftColumnZeroBased p /\
  showLineNumbers p' = showLineNumbers p.
Proof.
  unfold scrollToPreviousSearchHit.
  destruct (searchPattern p) as [pattern|] eqn:Hpattern.
  2:{ intros H. inversion H; subst. split; [left|]; auto. }
  destruct (GetLineCount (reader p) =? 0).
  { intros H. inversion H; subst. split; [left|]; auto. }
  assert (Hsearch : forall q first q',
             reader q = reader p -> searchPattern q = searchPattern p ->
             position q = position p ->
             leftColumnZeroBased q = leftColumnZeroBased p ->
             showLineNumbers q = showLineNumbers p ->
             (let! (firstHitIndex, p) := pagerFindFirstHit env first None true q in
              match firstHitIndex with
              | None => Ok (tt, setMode PagerModeNotFound p)
              | Some hit =>
                  Ok (tt, clearTargetLine
                            (setScrollPosition
                               (scrollPositionFromIndex "scrollToPreviousSearchHit" hit) p))
              end) = Ok (tt, q') ->
             onAHit p q' "scrollToPreviousSearchHit" /\
             leftColumnZeroBased q' = leftColumnZeroBased p /\
             showLineNumbers q' = showLineNumbers p).
  { intros q first q' Hreader Hpat Hpos Hleft Hshow.
    destruct (pagerFindFirstHit env first None true q) as [[result q1]| |] eqn:Hfind;
      cbn [andThen]; try discriminate.
    apply pagerFindFirstHit_keeps in Hfind.
    destruct Hfind as (_ & Hreaderq & Hpatternq & Hpositionq & Hleftq & Hshowq & Hhit).
    destruct result as [hit|]; intros H; inversion H; subst q'; clear H.
    - destruct (Hhit hit eq_refl) as (pattern' & Hp' & Hmatches).
      split; [right|destruct q1; cbn in *; split; congruence].
      exists pattern', hit. split; [congruence|]. split; [congruence|].
      destruct q1; reflexivity.
    - split; [left|]; destruct q1; cbn in *; [congruence|split; congruence]. }
  destruct (isViewing p).
  { cbn [andThen]. apply Hsearch; reflexivity. }
  destruct (isNotFound p); cbn [andThen]; [|discriminate].
  apply Hsearch; destruct p; reflexivity.
Qed.

(** X19. The search commands move the view only onto hits: after
    [scrollToSearchHits], [scrollToNextSearchHit] or
    [scrollToPreviousSearchHit] the scroll position is the one before the
    call, or the top of a line that matches the pattern.  Searching while
    typing never changes the mode; next-hit clears the target line whenever
    it moves the view; previous-hit never scrolls sideways. *)
Theorem search_commands_land_on_hits env fuel p :
  (forall p',
      scrollToSearchHits env fuel p = Ok (tt, p') ->
      onAHit p p' "scrollToSearchHits" /\ mode p' = mode p) /\
  (forall p',
      scrollToNextSearchHit env fuel p = Ok (tt, p') ->
      onAHit p p' "scrollToNextSearchHit" /\
      (position p' = position p \/ TargetLine p' = None)) /\
  (forall p',
      scrollToPreviousSearchHit env p = Ok (tt, p') ->
      onAHit p p' "scrollToPreviousSearchHit" /\
      leftColumnZeroBased p' = leftColumnZeroBased p /\
      showLineNumbers p' = showLineNumbers p).
Proof.
  split; [|split]; intros p'.
  - apply scrollToSearchHits_lands.
  - apply scrollToNextSearchHit_lands.
  - apply scrollToPreviousSearchHit_lands.
Qed.

Lemma search_commands_land_on_hits_witness :
  exists p',
    scrollToSearchHits (sampleEnv SearchProps.store5 6 2) 8
      (samplePager SearchProps.store5 4 true) = Ok (tt, p') /\
    onAHit (samplePager SearchProps.store5 4 true) p' "scrollToSearchHits" /\
    position p' <> position (samplePager SearchProps.store5 4 true).
Proof.
  destruct (scrollToSearchHits (sampleEnv SearchProps.store5 6 2) 8
              (samplePager SearchProps.store5 4 true)) as [[[] p']| |] eqn:Hscroll.
  2,3: vm_compute in Hscroll; discriminate.
  exists p'. split; [reflexivity|]. split.
  - exact (proj1 (proj1 (search_commands_land_on_hits (sampleEnv SearchProps.store5 6 2) 8
                           (samplePager SearchProps.store5 4 true)) p' Hscroll)).
  - vm_compute in Hscroll. inversion Hscroll. vm_compute. discriminate.
Defined.


(** ** Rendering the screen *)

Lemma renderAll_longest env numberPrefixLength :
  forall numbered p rows p',
    renderAll env numbered numberPrefixLength p = Ok (rows, p') ->
    longestLineLength p <= longestLineLength p'.
Proof.
  induction numbered as [|line rest IH]; intros p rows p' H; cbn [renderAll] in H.
  - inversion H; subst. lia.
  - destruct (Pager.renderLine env p line numberPrefixLength) as [rendering| |];
      cbn [andThen] in H; try discriminate.
    cbv zeta in H.
    match type of H with
    | context [renderAll env rest numberPrefixLength ?q] =>
        destruct (renderAll env rest numberPrefixLength q) as [[more q']| |] eqn:Hrest;
        cbn [andThen] in H; try discriminate;
        apply IH in Hrest
    end.
    inversion H; subst; clear H.
    match type of Hrest with
    | context [if ?c then _ else _] => destruct c eqn:Hlonger
    end.
    + apply Z.geb_le in Hlonger. destruct p; cbn in *. lia.
    + exact Hrest.
Qed.

(** X20. Rendering has one side effect: [renderLines] changes nothing of
    the pager but [longestLineLength], and never makes that smaller. *)
Theorem renderLines_only_grows_longestLineLength env p screen p' :
  renderLines env p = Ok (screen, p') ->
  exists n, p' = setLongestLineLength n p /\ longestLineLength p <= n.
Proof.
  intros H. pose proof (renderLines_frame env _ _ _ H) as [n Hn].
  exists n. split; [exact Hn|].
  assert (Hgrows : longestLineLength p <= longestLineLength p').
  { unfold renderLines in H.
    destruct (GetLines env (reader p) _ (visibleHeight env p)) as [numbered status].
    destruct numbered as [|line numbered]; [inversion H; subst; lia|].
    match type of H with
    | context [renderAll env ?ls ?k p] =>
        destruct (renderAll env ls k p) as [[allLines q]| |] eqn:Hall;
        cbn [andThen] in H; try discriminate
    end.
    apply renderAll_longest in Hall.
    destruct (firstVisibleIndex env q allLines 0) as [first|]; [|discriminate].
    cbv zeta in H.
    match type of H with
    | context [andThen ?r _] => destruct r; cbn [andThen] in H; try discriminate
    end.
    inversion H; subst. exact Hall. }
  rewrite Hn in Hgrows. destruct p; exact Hgrows.
Qed.

Lemma renderLines_only_grows_longestLineLength_witness :
  exists screen p' n,
    renderLines (sampleEnv wideStore 6 3) (samplePager wideStore 0 false) = Ok (screen, p') /\
    p' = setLongestLineLength n (samplePager wideStore 0 false) /\
    longestLineLength (samplePager wideStore 0 false) <= n.
Proof.
  destruct (renderLines (sampleEnv wideStore 6 3) (samplePager wideStore 0 false))
    as [[screen p']| |] eqn:Hrender.
  2,3: vm_compute in Hrender; discriminate.
  destruct (renderLines_only_grows_longestLineLength _ _ _ _ Hrender) as (n & Hn & Hgrows).
  exists screen, p', n. split; [reflexivity|]. split; [exact Hn|exact Hgrows].
Defined.

Lemma Style_eqb_eq a b : Style_eqb a b = true -> a = b.
Proof.
  unfold Style_eqb. intros H.
  apply andb_prop in H. destruct H as [H Hlink].
  apply andb_prop in H. destruct H as [H Hattrs].
  apply andb_prop in H. destruct H as [Hfg Hbg].
  apply TwinProps.Color_eqb_eq in Hfg, Hbg. apply Z.eqb_eq in Hattrs.
  destruct a as [fa ba aa la], b as [fb bb ab lb]; cbn in *. subst.
  destruct la as [x|], lb as [y|]; cbn in Hlink; try discriminate; [|reflexivity].
  apply String.eqb_eq in Hlink. subst. reflexivity.
Qed.

(** X21. What [renderLines] returns fits the screen from top to bottom: it
    has no more rows than [visibleHeight] allows (or none at all), and every
    row that carries a trailer style other than the default is filled up
    with cells to at least the screen's width. *)
Theorem renderLines_rows_fit env p screen p' :
  renderLines env p = Ok (screen, p') ->
  (lines screen = [] \/ Z.of_nat (List.length (lines screen)) <= visibleHeight env p') /\
  forall row,
    In row (lines screen) -> trailer row <> StyleDefault ->
    screenWidth env <= Z.of_nat (List.length (cellsOf row)).
Proof.
  unfold renderLines.
  destruct (GetLines env (reader p) _ (visibleHeight env p)) as [numbered status].
  destruct numbered as [|line numbered].
  { intros H. inversion H; subst. cbn. split; [left; reflexivity|intros row []]. }
  match goal with
  | |- context [renderAll env ?ls ?k p] =>
      destruct (renderAll env ls k p) as [[allLines q]| |]; cbn [andThen]; try discriminate
  end.
  destruct (firstVisibleIndex env q allLines 0) as [first|]; [|discriminate].
  cbv zeta.
  assert (Hfilled : forall rows row,
             In row (map (fillTrailer env) rows) -> trailer row <> StyleDefault ->
             screenWidth env <= Z.of_nat (List.length (cellsOf row))).
  { intros rows row Hin Htrailer. apply in_map_iff in Hin.
    destruct Hin as (raw & <- & _). unfold fillTrailer in *.
    destruct (Style_eqb (trailer raw) StyleDefault) eqn:Hdefault.
    - apply Style_eqb_eq in Hdefault. contradiction.
    - cbn [cellsOf]. rewrite length_app, repeat_length. lia. }
  destruct (Z.gtb_spec (Z.of_nat (List.length (skipn first allLines))) (visibleHeight env q))
    as [Hmore|Hfew].
  - destruct (Z.ltb_spec (visibleHeight env q) 0) as [Hneg|Hnonneg]; cbn [andThen];
      [discriminate|].
    intros H. inversion H; subst; clear H. cbn [lines]. split; [|apply Hfilled].
    right. rewrite length_map, length_firstn. lia.
  - cbn [andThen]. intros H. inversion H; subst; clear H. cbn [lines].
    split; [|apply Hfilled]. right. rewrite length_map. exact Hfew.
Qed.

Lemma renderLines_rows_fit_witness :
  exists screen p',
    renderLines (sampleEnv SearchProps.store5 6 3) (samplePager SearchProps.store5 1 false)
    = Ok (screen, p') /\
    (lines screen = [] \/
     Z.of_nat (List.length (lines screen))
     <= visibleHeight (sampleEnv SearchProps.store5 6 3) p').
Proof.
  destruct (renderLines (sampleEnv SearchProps.store5 6 3)
              (samplePager SearchProps.store5 1 false)) as [[screen p']| |] eqn:Hrender.
  2,3: vm_compute in Hrender; discriminate.
  exists screen, p'. split; [reflexivity|].
  exact (proj1 (renderLines_rows_fit _ _ _ _ Hrender)).
Defined.

(** ** The gutter *)

Lemma sprintfPadded_length width text :
  Z.of_nat (List.length (sprintfPadded width text))
  = Z.max width (Z.of_nat (List.length text)) + 1.
Proof.
  unfold sprintfPadded. rewrite !length_app, repeat_length. cbn [List.length]. lia.
Qed.

(** X22. The gutter is exactly as wide as asked: whenever
    [createLinePrefix] returns, it returns [numberPrefixLength] cells; for a
    line number whose digits leave room for the space after them these are
    the digits, right-aligned, then the space; and it panics exactly when
    the digits leave no room for that space (or the length is negative). *)
Theorem createLinePrefix_is_exactly_as_wide env lineNumber numberPrefixLength :
  (forall prefix,
      createLinePrefix env lineNumber numberPrefixLength = Ok prefix ->
      Z.of_nat (List.length prefix) = numberPrefixLength) /\
  (forall number,
      lineNumber = Some number ->
      Z.of_nat (List.length (formatNumber env number)) < numberPrefixLength ->
      createLinePrefix env lineNumber numberPrefixLength
      = Ok (map (fun digit => plainCell digit (lineNumbersStyle env))
              (repeat runeSpace
                 (Z.to_nat (numberPrefixLength - 1
                            - Z.of_nat (List.length (formatNumber env number))))
               ++ formatNumber env number ++ [runeSpace]))) /\
  (createLinePrefix env lineNumber numberPrefixLength = Panic <->
   numberPrefixLength < 0 \/
   exists number,
     lineNumber = Some number /\
     0 < numberPrefixLength <= Z.of_nat (List.length (formatNumber env number))).
Proof.
  unfold createLinePrefix.
  destruct (Z.eqb_spec numberPrefixLength 0) as [Hzero|Hnonzero].
  { split; [intros prefix H; inversion H; subst; reflexivity|].
    split; [intros number _ Hfits; lia|].
    split; [discriminate|]. intros [Hneg|(number & _ & Hlong)]; lia. }
  destruct (Z.ltb_spec numberPrefixLength 0) as [Hneg|Hpos].
  { split; [discriminate|]. split; [intros number _ Hfits; lia|].
    split; [intros _; left; exact Hneg|reflexivity]. }
  destruct lineNumber as [number|].
  - pose proof (sprintfPadded_length (numberPrefixLength - 1) (formatNumber env number))
      as Hlength.
    destruct (Z.gtb_spec
                (Z.of_nat (List.length
                             (sprintfPadded (numberPrefixLength - 1) (formatNumber env number))))
                numberPrefixLength) as [Hlong|Hfits].
    + split; [discriminate|]. split; [intros n Hn Hroom; inversion Hn; subst; lia|].
      split; [intros _; right; exists number; split; [reflexivity|lia]|reflexivity].
    + split; [|split].
      * intros prefix H. inversion H; subst.
        rewrite length_map, length_firstn. lia.
      * intros n Hn Hroom. inversion Hn; subst n.
        rewrite firstn_all2 by lia. reflexivity.
      * split; [discriminate|]. intros [Hn|(n & Hn & Hroom)]; [lia|].
        inversion Hn; subst n. lia.
  - split; [intros prefix H; inversion H; subst; rewrite repeat_length; lia|].
    split; [intros number Hn; discriminate|].
    split; [discriminate|]. intros [Hn|(n & Hn & _)]; [lia|discriminate].
Qed.

Lemma createLinePrefix_is_exactly_as_wide_witness :
  createLinePrefix (sampleEnv [] 6 3) (Some 12) 4
  = Ok (map (fun digit => plainCell digit StyleDefault) (runesOf " 12 ")) /\
  createLinePrefix (sampleEnv [] 6 3) (Some 1234) 4 = Panic.
Proof.
  destruct (createLinePrefix_is_exactly_as_wide (sampleEnv [] 6 3) (Some 12) 4)
    as (_ & Hdigits & _).
  destruct (createLinePrefix_is_exactly_as_wide (sampleEnv [] 6 3) (Some 1234) 4)
    as (_ & _ & Hpanic).
  split.
  - rewrite (Hdigits 12 eq_refl); [reflexivity|vm_compute; reflexivity].
  - apply Hpanic. right. exists 1234. split; [reflexivity|]. vm_compute.
    split; [reflexivity|discriminate].
Defined.

(** ** Decorating a line *)

(** On a screen three columns wide or wider the loop of [decorateLine]
    leaves a window that can be cut out of the line: the first visible rune
    is followed by at least one rune that fits, unless the line starts right
    of the screen's last column but one, behind a gutter. *)
Lemma findVisible_window env leftColumn lastColumn :
  leftColumn + 2 <= lastColumn ->
  forall rest previous i column,
    Forall (narrowOrWide env) rest ->
    i = 0%nat \/ column <= leftColumn + 1 ->
    let v' := findVisible env leftColumn lastColumn previous i rest
                (mkVisible None (-1) column false false false) in
    match firstVisibleRuneIndex v' with
    | None => canScrollRight v' = false
    | Some first =>
        (Z.of_nat first <= lastVisibleRuneIndex v' /\
         lastVisibleRuneIndex v' < Z.of_nat (i + List.length rest) /\
         (i <= first)%nat) \/
        (first = 0%nat /\ i = 0%nat /\ lastVisibleRuneIndex v' = -1 /\
         leftColumn + 1 < column)
    end.
Proof.
  intros Hwide. induction rest as [|char rest IH]; intros previous i column Hwidths Hstart v'.
  - subst v'. reflexivity.
  - inversion Hwidths as [|? ? Hchar Hrest]; subst.
    destruct (Z.geb_spec column leftColumn) as [Hreached|Hnot].
    + (* this rune is the first visible one *)
      set (cut := match previous with
                  | Some before => (column >? leftColumn) && (cellWidth env before >? 1)
                  | None => false
                  end).
      destruct (Z.leb_spec (column + cellWidth env char - 1) lastColumn) as [Hfits|Hout].
      * assert (Hv' : v' = findVisible env leftColumn lastColumn (Some char) (S i) rest
                             (mkVisible (Some i) (Z.of_nat i) (column + cellWidth env char)
                                (if cut then true else false) false false)).
        { subst v' cut.
          cbn [findVisible firstVisibleRuneIndex lastVisibleRuneIndex screenColumn
               cutOffRuneToTheLeft cutOffRuneToTheRight canScrollRight].
          destruct (Z.geb_spec column leftColumn); [|lia].
          cbn [firstVisibleRuneIndex lastVisibleRuneIndex screenColumn
               cutOffRuneToTheLeft cutOffRuneToTheRight canScrollRight].
          destruct (Z.leb_spec (column + cellWidth env char - 1) lastColumn); [|lia].
          reflexivity. }
        destruct (findVisible_reached env leftColumn lastColumn rest (Some char) (S i)
                    (mkVisible (Some i) (Z.of_nat i) (column + cellWidth env char)
                       (if cut then true else false) false false)
                    i eq_refl eq_refl Hrest) as (n & Hn & H1 & _ & H3 & _).
        rewrite <- Hv' in H1, H3. rewrite H1. left.
        cbn [lastVisibleRuneIndex] in H3. rewrite H3. cbn [List.length].
        destruct n; cbn [Nat.eqb]; lia.
      * assert (Hv' : firstVisibleRuneIndex v' = Some i /\ lastVisibleRuneIndex v' = -1).
        { subst v' cut.
          cbn [findVisible firstVisibleRuneIndex lastVisibleRuneIndex screenColumn
               cutOffRuneToTheLeft cutOffRuneToTheRight canScrollRight].
          destruct (Z.geb_spec column leftColumn); [|lia].
          cbn [firstVisibleRuneIndex lastVisibleRuneIndex screenColumn
               cutOffRuneToTheLeft cutOffRuneToTheRight canScrollRight].
          destruct (Z.leb_spec (column + cellWidth env char - 1) lastColumn); [lia|].
          cbn. split; reflexivity. }
        destruct Hv' as [Hfirst Hlast]. rewrite Hfirst. right.
        assert (Hwidth : cellWidth env char <= 2) by (destruct Hchar; lia).
        destruct Hstart as [->|Hnear]; [|lia].
        split; [reflexivity|]. split; [reflexivity|]. split; [exact Hlast|lia].
    + (* still left of the screen *)
      assert (Hv' : v' = findVisible env leftColumn lastColumn (Some char) (S i) rest
                           (mkVisible None (-1) (column + cellWidth env char)
                              false false false)).
      { subst v'.
        cbn [findVisible firstVisibleRuneIndex lastVisibleRuneIndex screenColumn
             cutOffRuneToTheLeft cutOffRuneToTheRight canScrollRight].
        destruct (Z.geb_spec column leftColumn); [lia|].
        cbn [firstVisibleRuneIndex lastVisibleRuneIndex screenColumn
             cutOffRuneToTheLeft cutOffRuneToTheRight canScrollRight andb].
        reflexivity. }
      rewrite Hv'.
      assert (Hwidth : cellWidth env char <= 2) by (destruct Hchar; lia).
      specialize (IH (Some char) (S i) (column + cellWidth env char) Hrest
                    ltac:(right; lia)).
      cbv zeta in IH.
      destruct (firstVisibleRuneIndex
                  (findVisible env leftColumn lastColumn (Some char) (S i) rest
                     (mkVisible None (-1) (column + cellWidth env char) false false false)))
        as [first|]; [|exact IH].
      destruct IH as [(H1 & H2 & H3)|(_ & Hi & _)]; [|discriminate].
      left. cbn [List.length]. lia.
Qed.

Lemma addScrollLeft_nonempty env hint row : addScrollLeft env hint row <> [].
Proof.
  unfold addScrollLeft. destruct row as [|first rest].
  - destruct (cellWidth env zeroCell >? 1); discriminate.
  - destruct (cellWidth env first >? 1); discriminate.
Qed.

Lemma addScrollRight_returns env hint row :
  row <> [] -> exists row', addScrollRight env hint row = Ok row'.
Proof.
  intros Hrow. unfold addScrollRight. destruct row as [|first rest]; [contradiction|].
  destruct (cellWidth env (last (first :: rest) zeroCell) >? 1); eauto.
Qed.

(** X23. On a screen at least three columns wide [decorateLine] never
    panics: for every line of single- and double-width runes, every scroll
    offset and every gutter whose number fits, it returns a row. *)
Theorem decorateLine_returns_on_three_columns
  env width leftColumn hintLeft hintRight lineNumber numberPrefixLength contents :
  3 <= width ->
  0 <= leftColumn ->
  0 <= numberPrefixLength ->
  Forall (narrowOrWide env) contents ->
  (forall number,
      lineNumber = Some number ->
      numberPrefixLength = 0 \/
      Z.of_nat (List.length (formatNumber env number)) < numberPrefixLength) ->
  exists row,
    decorateLine env width leftColumn hintLeft hintRight lineNumber numberPrefixLength contents
    = Ok row.
Proof.
  intros Hwidth Hleft HP Hwidths Hnumber. unfold decorateLine.
  destruct (Z.ltb_spec width 0) as [Hneg|_]; [lia|].
  destruct (createLinePrefix env lineNumber numberPrefixLength) as [prefix| |] eqn:Hprefix.
  2:{ exfalso.
      apply (proj2 (proj2 (createLinePrefix_is_exactly_as_wide env lineNumber
                             numberPrefixLength))) in Hprefix.
      destruct Hprefix as [Hneg|(number & Hsome & Hlong)]; [lia|].
      destruct (Hnumber number Hsome); lia. }
  2:{ exfalso. exact (createLinePrefix_halts env lineNumber numberPrefixLength Hprefix). }
  pose proof (proj1 (createLinePrefix_is_exactly_as_wide env lineNumber numberPrefixLength)
                prefix Hprefix) as Hlength.
  cbn [andThen]. cbv zeta.
  pose proof (findVisible_window env leftColumn (leftColumn + width - 1) ltac:(lia)
                contents None 0%nat numberPrefixLength Hwidths (or_introl eq_refl))
    as Hwindow.
  cbv zeta in Hwindow.
  set (v := findVisible env leftColumn (leftColumn + width - 1) None 0 contents
              (mkVisible None (-1) numberPrefixLength false false false)) in *.
  assert (Hslice :
    exists visible,
      match firstVisibleRuneIndex v with
      | Some first => sliceCells contents (Z.of_nat first) (lastVisibleRuneIndex v + 1)
      | None => Ok []
      end = Ok visible /\
      (canScrollRight v = true -> visible <> [] \/ prefix <> [])).
  { destruct (firstVisibleRuneIndex v) as [first|].
    - unfold sliceCells. cbn [Nat.add] in Hwindow.
      destruct Hwindow as [(H1 & H2 & _)|(-> & _ & Hlast & Hgutter)].
      + destruct (Z.leb_spec 0 (Z.of_nat first)); [|lia].
        destruct (Z.leb_spec (Z.of_nat first) (lastVisibleRuneIndex v + 1)); [|lia].
        destruct (Z.leb_spec (lastVisibleRuneIndex v + 1) (Z.of_nat (List.length contents)));
          [|lia].
        cbn [andb]. eexists. split; [reflexivity|]. intros _. left.
        intros Hempty. apply (f_equal (@List.length _)) in Hempty.
        rewrite length_firstn, length_skipn in Hempty. cbn [List.length] in Hempty. lia.
      + rewrite Hlast. cbn.
        destruct (Z.leb_spec 0 (Z.of_nat (List.length contents))); [|lia].
        eexists. split; [reflexivity|]. intros _. right.
        intros ->. cbn in Hlength. lia.
    - exists []. split; [reflexivity|]. intros Hscroll. congruence. }
  destruct Hslice as (visible & Hvisible & Hsome). rewrite Hvisible. cbn [andThen].
  destruct (canScrollRight v); [|eauto].
  apply addScrollRight_returns.
  destruct ((leftColumn >? 0) && (Z.of_nat (List.length contents) >? 0));
    [apply addScrollLeft_nonempty|].
  destruct (Hsome eq_refl) as [Hv|Hp];
    destruct (cutOffRuneToTheLeft v), (cutOffRuneToTheRight v);
    intros Hnil; repeat (apply app_eq_nil in Hnil; destruct Hnil as [Hnil ?]);
    try discriminate; try contradiction;
    try (apply app_eq_nil in Hnil; destruct Hnil; contradiction).
Qed.

Lemma decorateLine_returns_on_three_columns_witness :
  exists row,
    decorateLine (sampleEnv [] 3 3) 3 2 hintLeft hintRight None 0 mixedContents = Ok row.
Proof.
  apply (decorateLine_returns_on_three_columns (sampleEnv [] 3 3) 3 2 hintLeft hintRight
           None 0 mixedContents).
  - lia.
  - lia.
  - lia.
  - apply sample_narrowOrWide.
  - intros number Hnumber. discriminate.
Defined.

Definition wideContents : list CellWithMetadata :=
  map (fun r => plainCell r StyleDefault) [21320; 21320; 21320].

(** The bound is sharp: on a screen two columns wide, scrolled one column to
    the right, a line of double-width runes makes [decorateLine] panic.  The
    first rune is cut in half, the second one starts on screen but does not
    fit, and the line is sliced from index 1 to index 0. *)
Lemma decorateLine_panics_on_two_columns :
  decorateLine (sampleEnv [] 2 3) 2 1 hintLeft hintRight None 0 wideContents = Panic.
Proof. vm_compute. reflexivity. Qed.

(** While every rune fits, the loop of [decorateLine] only moves on. *)
Lemma findVisible_all_fit env leftColumn lastColumn :
  forall rest previous i v first,
    firstVisibleRuneIndex v = Some first ->
    Forall (narrowOrWide env) rest ->
    screenColumn v + rowWidth env rest <= lastColumn + 1 ->
    findVisible env leftColumn lastColumn previous i rest v
    = mkVisible (Some first)
        (match rest with
         | [] => lastVisibleRuneIndex v
         | _ => Z.of_nat (i + List.length rest) - 1
         end)
        (screenColumn v + rowWidth env rest)
        (cutOffRuneToTheLeft v) (cutOffRuneToTheRight v) (canScrollRight v).
Proof.
  induction rest as [|char rest IH]; intros previous i v first Hfirst Hwidths Hfit.
  - destruct v. cbn in *. subst. f_equal. lia.
  - inversion Hwidths as [|? ? Hchar Hrest]; subst.
    destruct v as [fv lv sc cl cr csr]. cbn in Hfirst. subst fv.
    cbn [rowWidth fold_right screenColumn] in Hfit. fold (rowWidth env rest) in Hfit.
    pose proof (rowWidth_nonneg env rest Hrest) as Hnonneg.
    cbn [findVisible firstVisibleRuneIndex lastVisibleRuneIndex screenColumn
         cutOffRuneToTheLeft cutOffRuneToTheRight canScrollRight andb].
    destruct (Z.leb_spec (sc + cellWidth env char - 1) lastColumn) as [_|Hout]; [|lia].
    cbn [negb].
    rewrite (IH (Some char) (S i)
               (mkVisible (Some first) (Z.of_nat i) (sc + cellWidth env char) cl cr csr)
               first eq_refl Hrest)
      by (cbn [screenColumn]; lia).
    cbn [firstVisibleRuneIndex lastVisibleRuneIndex screenColumn
         cutOffRuneToTheLeft cutOffRuneToTheRight canScrollRight
         rowWidth fold_right List.length].
    fold (rowWidth env rest). f_equal.
    + destruct rest; cbn [List.length]; lia.
    + lia.
Qed.

(** X24. A line that fits is shown whole: with the pager not scrolled
    sideways, a line whose runes fit between the gutter and the right edge
    of the screen comes back from [decorateLine] as the gutter followed by
    the line itself, with no indicator and no rune replaced. *)
Theorem decorateLine_shows_a_fitting_line_whole
  env width hintLeft hintRight lineNumber numberPrefixLength contents prefix :
  createLinePrefix env lineNumber numberPrefixLength = Ok prefix ->
  Forall (narrowOrWide env) contents ->
  numberPrefixLength + rowWidth env contents <= width ->
  decorateLine env width 0 hintLeft hintRight lineNumber numberPrefixLength contents
  = Ok (prefix ++ contents).
Proof.
  intros Hprefix Hwidths Hfit.
  pose proof (proj1 (createLinePrefix_is_exactly_as_wide env lineNumber numberPrefixLength)
                prefix Hprefix) as Hlength.
  pose proof (rowWidth_nonneg env contents Hwidths) as Hnonneg.
  unfold decorateLine.
  destruct (Z.ltb_spec width 0) as [Hneg|_]; [lia|].
  rewrite Hprefix. cbn [andThen]. cbv zeta.
  destruct contents as [|char rest].
  - cbn. rewrite app_nil_r. reflexivity.
  - inversion Hwidths as [|? ? Hchar Hrest]; subst.
    cbn [rowWidth fold_right] in Hfit. fold (rowWidth env rest) in Hfit.
    pose proof (rowWidth_nonneg env rest Hrest) as Hrestwidth.
    cbn [findVisible firstVisibleRuneIndex lastVisibleRuneIndex screenColumn
         cutOffRuneToTheLeft cutOffRuneToTheRight canScrollRight].
    destruct (Z.geb_spec (Z.of_nat (List.length prefix)) 0) as [_|Hbefore]; [|lia].
    cbn [firstVisibleRuneIndex lastVisibleRuneIndex screenColumn
         cutOffRuneToTheLeft cutOffRuneToTheRight canScrollRight andb].
    destruct (Z.leb_spec (Z.of_nat (List.length prefix) + cellWidth env char - 1)
                (0 + width - 1)) as [_|Hout]; [|lia].
    cbn [negb].
    rewrite (findVisible_all_fit env 0 (0 + width - 1) rest (Some char) 1
               (mkVisible (Some 0%nat) (Z.of_nat 0)
                  (Z.of_nat (List.length prefix) + cellWidth env char) false false false)
               0%nat eq_refl Hrest)
      by (cbn [screenColumn]; lia).
    cbn [firstVisibleRuneIndex lastVisibleRuneIndex screenColumn
         cutOffRuneToTheLeft cutOffRuneToTheRight canScrollRight].
    assert (Hslice :
      sliceCells (char :: rest) (Z.of_nat 0)
        (match rest with
         | [] => Z.of_nat 0
         | _ :: _ => Z.of_nat (1 + List.length rest) - 1
         end + 1)
      = Ok (char :: rest)).
    { unfold sliceCells.
      replace (match rest with
               | [] => Z.of_nat 0
               | _ :: _ => Z.of_nat (1 + List.length rest) - 1
               end + 1) with (Z.of_nat (List.length (char :: rest)))
        by (destruct rest; cbn [List.length]; lia).
      destruct (Z.leb_spec 0 (Z.of_nat 0)); [|lia].
      destruct (Z.leb_spec (Z.of_nat 0) (Z.of_nat (List.length (char :: rest)))); [|lia].
      destruct (Z.leb_spec (Z.of_nat (List.length (char :: rest)))
                  (Z.of_nat (List.length (char :: rest)))); [|lia].
      cbn [andb]. f_equal.
      replace (Z.to_nat (Z.of_nat (List.length (char :: rest)) - Z.of_nat 0))
        with (List.length (char :: rest)) by lia.
      change (Z.to_nat (Z.of_nat 0)) with 0%nat. cbn [skipn].
      apply firstn_all. }
    rewrite Hslice. cbn [andThen]. reflexivity.
Qed.

Lemma decorateLine_shows_a_fitting_line_whole_witness :
  decorateLine (sampleEnv [] 12 3) 12 0 hintLeft hintRight (Some 12) 4 mixedContents
  = Ok (map (fun r => plainCell r (lineNumbersStyle (sampleEnv [] 12 3))) [32; 49; 50; 32]
        ++ mixedContents).
Proof.
  apply (decorateLine_shows_a_fitting_line_whole (sampleEnv [] 12 3) 12 hintLeft hintRight
           (Some 12) 4 mixedContents).
  - vm_compute. reflexivity.
  - apply sample_narrowOrWide.
  - vm_compute. discriminate.
Defined.

(** ** The rows of one input line *)

(** The rows [rows] are numbered [wrapIndex], [wrapIndex + 1], ..., all come
    from input line [index] and none has a trailer. *)
Fixpoint numberedFrom (index : Index) (wrapIndex : Z) (rows : list renderedLine) : Prop :=
  match rows with
  | [] => True
  | row :: rest =>
      inputLineIndex row = index /\ Pager.wrapIndex row = wrapIndex /\
      trailer row = StyleDefault /\
      numberedFrom index (wrapIndex + 1) rest
  end.

Lemma decorateParts_numbered env p line numberPrefixLength :
  forall wrapped wrapIndex rows,
    decorateParts env p line numberPrefixLength wrapIndex wrapped = Ok rows ->
    List.length rows = List.length wrapped /\
    numberedFrom (lineIndexOf line) wrapIndex rows.
Proof.
  induction wrapped as [|part rest IH]; intros wrapIndex rows Hrows.
  - cbn in Hrows. injection Hrows as <-. cbn. auto.
  - cbn [decorateParts] in Hrows.
    destruct (decorateLine env (screenWidth env) (leftColumnZeroBased p) (ScrollLeftHint p)
                (ScrollRightHint p) (if wrapIndex >? 0 then None else Some (lineNumberOf line))
                numberPrefixLength part) as [decorated| |]; try discriminate.
    cbn [andThen] in Hrows.
    destruct (decorateParts env p line numberPrefixLength (wrapIndex + 1) rest)
      as [more| |] eqn:Hmore; try discriminate.
    cbn [andThen] in Hrows. injection Hrows as <-.
    destruct (IH (wrapIndex + 1) more Hmore) as [Hlength Hnumbered].
    cbn [List.length numberedFrom inputLineIndex Pager.wrapIndex trailer].
    repeat split; [congruence|exact Hnumbered].
Qed.

Lemma numberedFrom_nth index :
  forall rows wrapIndex k row,
    numberedFrom index wrapIndex rows ->
    nth_error rows k = Some row ->
    inputLineIndex row = index /\ Pager.wrapIndex row = wrapIndex + Z.of_nat k /\
    trailer row = StyleDefault.
Proof.
  induction rows as [|first rest IH]; intros wrapIndex k row Hnumbered Hrow.
  - destruct k; discriminate.
  - destruct Hnumbered as (H1 & H2 & H3 & Hrest). destruct k as [|k].
    + cbn in Hrow. injection Hrow as <-. repeat split; [exact H1|lia|exact H3].
    + cbn [nth_error] in Hrow. destruct (IH _ _ _ Hrest Hrow) as (? & ? & ?).
      repeat split; [assumption|lia|assumption].
Qed.

Lemma setLastTrailer_spec style :
  forall rows rows',
    setLastTrailer rows style = Ok rows' ->
    List.length rows' = List.length rows /\
    forall k row,
      nth_error rows k = Some row ->
      nth_error rows' k
      = Some (mkRenderedLine (inputLineIndex row) (Pager.wrapIndex row) (cellsOf row)
                (if (S k =? List.length rows)%nat then style else trailer row)).
Proof.
  induction rows as [|first rest IH]; intros rows' Hrows'.
  - discriminate.
  - destruct rest as [|second rest].
    + cbn in Hrows'. injection Hrows' as <-. split; [reflexivity|].
      intros [|k] row Hrow; cbn in Hrow.
      * injection Hrow as <-. reflexivity.
      * destruct k; discriminate.
    + change (setLastTrailer (first :: second :: rest) style)
        with (let! rest' := setLastTrailer (second :: rest) style in Ok (first :: rest'))
        in Hrows'.
      destruct (setLastTrailer (second :: rest) style) as [rest'| |] eqn:Hrest;
        try discriminate.
      cbn [andThen] in Hrows'. injection Hrows' as <-.
      destruct (IH rest' eq_refl) as [Hlength Hnth].
      split; [cbn [List.length] in *; congruence|].
      intros [|k] row Hrow.
      * cbn in Hrow. injection Hrow as <-. cbn [nth_error].
        destruct first; reflexivity.
      * cbn [nth_error] in Hrow |- *. rewrite (Hnth k row Hrow).
        reflexivity.
Qed.

(** X25. The rows that [renderLine] makes of one input line: there is one
    row per wrapped part, the row at position [k] has wrap index [k] and the
    index of the input line, and only the last row carries the trailer style
    of the highlighted line; every row before it has the default one. *)
Theorem renderLine_numbers_its_rows env p line numberPrefixLength rows :
  renderLine env p line numberPrefixLength = Ok rows ->
  List.length rows
  = (if WrapLongLines p
     then List.length (wrapLine env (screenWidth env - numberPrefixLength)
                         (fst (HighlightedTokens env line (searchPattern p))))
     else 1%nat) /\
  forall k row,
    nth_error rows k = Some row ->
    inputLineIndex row = lineIndexOf line /\
    Pager.wrapIndex row = Z.of_nat k /\
    trailer row
    = (if (S k =? List.length rows)%nat
       then snd (HighlightedTokens env line (searchPattern p))
       else StyleDefault).
Proof.
  unfold renderLine.
  destruct (HighlightedTokens env line (searchPattern p)) as [styledRunes highlightedTrailer].
  cbn [fst snd].
  set (wrapped := if WrapLongLines p
                  then wrapLine env (screenWidth env - numberPrefixLength) styledRunes
                  else [styledRunes]).
  intros Hrows.
  destruct (decorateParts env p line numberPrefixLength 0 wrapped) as [rendered| |] eqn:Hparts;
    try discriminate.
  cbn [andThen] in Hrows.
  destruct (decorateParts_numbered env p line numberPrefixLength wrapped 0 rendered Hparts)
    as [Hlength Hnumbered].
  assert (Hcount : List.length rendered
                   = if WrapLongLines p
                     then List.length (wrapLine env (screenWidth env - numberPrefixLength)
                                         styledRunes)
                     else 1%nat).
  { rewrite Hlength. subst wrapped. destruct (WrapLongLines p); reflexivity. }
  destruct (Style_eqb highlightedTrailer StyleDefault) eqn:Hdefault; cbn [negb] in Hrows.
  - injection Hrows as <-. split; [exact Hcount|].
    intros k row Hrow.
    destruct (numberedFrom_nth _ _ _ _ _ Hnumbered Hrow) as (H1 & H2 & H3).
    repeat split; [exact H1|lia|].
    rewrite H3. apply Style_eqb_eq in Hdefault. rewrite Hdefault.
    destruct (S k =? List.length rendered)%nat; reflexivity.
  - destruct (setLastTrailer_spec _ _ _ Hrows) as [Hsame Hnth].
    split; [congruence|].
    intros k row Hrow.
    assert (Hk : (k < List.length rendered)%nat).
    { rewrite <- Hsame. apply nth_error_Some. congruence. }
    destruct (nth_error rendered k) as [before|] eqn:Hbefore;
      [|apply nth_error_None in Hbefore; lia].
    rewrite (Hnth k before Hbefore) in Hrow. injection Hrow as <-.
    destruct (numberedFrom_nth _ _ _ _ _ Hnumbered Hbefore) as (H1 & H2 & H3).
    cbn [inputLineIndex Pager.wrapIndex trailer]. rewrite Hsame.
    repeat split; [exact H1|lia|].
    rewrite H3. reflexivity.
Qed.

Lemma renderLine_numbers_its_rows_witness :
  exists rows,
    renderLine (sampleEnv wideStore 6 3) (samplePager wideStore 0 true)
      (mkNumberedLine 0 1 (mkLine "aaaaaaaxaa")) 0 = Ok rows /\
    List.length rows = 2%nat /\
    forall k row,
      nth_error rows k = Some row ->
      inputLineIndex row = 0 /\ Pager.wrapIndex row = Z.of_nat k.
Proof.
  destruct (renderLine (sampleEnv wideStore 6 3) (samplePager wideStore 0 true)
              (mkNumberedLine 0 1 (mkLine "aaaaaaaxaa")) 0) as [rows| |] eqn:Hrows.
  2,3: vm_compute in Hrows; discriminate.
  exists rows. split; [reflexivity|].
  destruct (renderLine_numbers_its_rows _ _ _ _ _ Hrows) as [Hlength Hnth].
  split.
  - rewrite Hlength. vm_compute. reflexivity.
  - intros k row Hrow. destruct (Hnth k row Hrow) as (H1 & H2 & _).
    split; [exact H1|exact H2].
Defined.


(** ** Drawing the rows on a cleared screen *)

(** The cell [Clear] fills the grid with. *)
Definition blank : StyledRune := NewStyledRune runeSpace StyleDefault.

(** [screen] with another grid. *)
Definition withCells (screen : UnixScreen) (grid : list (list StyledRune)) : UnixScreen :=
  mkUnixScreen (widthAccessFromSizeOnly screen) (heightAccessFromSizeOnly screen) grid
    (sigwinch screen) (termGetSize screen) (terminalColorCount screen).

Lemma storeAt_middle {A : Type} (a : list A) x b y :
  storeAt (a ++ x :: b) (List.length a) y = Ok (a ++ y :: b).
Proof.
  induction a as [|z a IH]; [reflexivity|].
  cbn [app List.length storeAt]. rewrite IH. reflexivity.
Qed.

Lemma storeCell_middle screen above a x b below y :
  cells screen = above ++ (a ++ x :: b) :: below ->
  storeCell screen (Z.of_nat (List.length above)) (Z.of_nat (List.length a)) y
  = Ok (withCells screen (above ++ (a ++ y :: b) :: below)).
Proof.
  intros Hgrid. unfold storeCell. rewrite !Nat2Z.id, Hgrid.
  rewrite nth_error_app2 by lia. rewrite Nat.sub_diag. cbn [nth_error].
  rewrite storeAt_middle. cbn [andThen]. rewrite storeAt_middle. reflexivity.
Qed.

Lemma Size_quiet screen :
  sigwinch screen = false ->
  0 < widthAccessFromSizeOnly screen -> 0 < heightAccessFromSizeOnly screen ->
  Size screen = Ok (widthAccessFromSizeOnly screen, heightAccessFromSizeOnly screen, screen).
Proof.
  intros Hs Hw Hh. unfold Size. rewrite Hs. cbn [negb].
  destruct (Z.eqb_spec (widthAccessFromSizeOnly screen) 0); [lia|].
  destruct (Z.eqb_spec (heightAccessFromSizeOnly screen) 0); [lia|].
  reflexivity.
Qed.

(** The cells a row of the pager takes in the grid: a wide rune is followed
    by the cell it hides, which keeps the blank of the cleared screen. *)
Fixpoint layout (env : Environment) (row : list CellWithMetadata) : list StyledRune :=
  match row with
  | [] => []
  | cell :: rest =>
      if cellWidth env cell =? 2
      then ToStyledRune cell :: blank :: layout env rest
      else ToStyledRune cell :: layout env rest
  end.

Lemma drawCells_layout env :
  forall row screen above done n below,
    sigwinch screen = false ->
    0 < widthAccessFromSizeOnly screen ->
    Z.of_nat (List.length above) < heightAccessFromSizeOnly screen ->
    cells screen = above ++ (done ++ repeat blank n) :: below ->
    Z.of_nat (List.length done + n) = widthAccessFromSizeOnly screen ->
    Forall (narrowOrWide env) row ->
    rowWidth env row <= Z.of_nat n ->
    drawCells env (Z.of_nat (List.length above)) row (Z.of_nat (List.length done)) screen
    = Ok (Z.of_nat (List.length done) + rowWidth env row,
          withCells screen
            (above ++
             (done ++ layout env row ++ repeat blank (n - Z.to_nat (rowWidth env row)))
             :: below)).
Proof.
  induction row as [|cell rest IH];
    intros screen above done n below Hquiet Hwidth Hrow Hgrid Hline Hwidths Hfits.
  - cbn [drawCells rowWidth fold_right layout app]. rewrite Z.add_0_r, Nat.sub_0_r.
    rewrite <- Hgrid. destruct screen; reflexivity.
  - inversion Hwidths as [|? ? Hcell Hrest]; subst.
    cbn [rowWidth fold_right] in Hfits |- *. fold (rowWidth env rest) in Hfits |- *.
    pose proof (rowWidth_nonneg env rest Hrest) as Hnonneg.
    cbn [drawCells]. unfold SetCell.
    destruct (Z.ltb_spec (Z.of_nat (List.length done)) 0) as [Hneg|_]; [lia|].
    destruct (Z.ltb_spec (Z.of_nat (List.length above)) 0) as [Hneg|_]; [lia|].
    rewrite (Size_quiet screen Hquiet Hwidth ltac:(lia)). cbn [andThen].
    assert (Hcw : Width (runeWidth env) (ToStyledRune cell) = cellWidth env cell) by reflexivity.
    rewrite Hcw.
    destruct (Z.geb_spec (Z.of_nat (List.length done)) (widthAccessFromSizeOnly screen))
      as [Hout|_]; [destruct Hcell; lia|].
    destruct (Z.geb_spec (Z.of_nat (List.length above)) (heightAccessFromSizeOnly screen))
      as [Hout|_]; [lia|].
    destruct (Z.gtb_spec (Z.of_nat (List.length done) + cellWidth env cell)
                (widthAccessFromSizeOnly screen)) as [Hout|_]; [destruct Hcell; lia|].
    destruct n as [|n]; [destruct Hcell; lia|].
    cbn [repeat] in Hgrid.
    rewrite (storeCell_middle screen above done blank (repeat blank n) below
               (ToStyledRune cell) Hgrid).
    cbn [andThen].
    set (screen1 := withCells screen
                      (above ++ (done ++ ToStyledRune cell :: repeat blank n) :: below)).
    cbn [layout].
    destruct Hcell as [Hnarrow|Hwide]; rewrite ?Hnarrow, ?Hwide in *.
    + change (1 =? 2) with false. cbv iota.
      replace (Z.of_nat (List.length done) + 1)
        with (Z.of_nat (List.length (done ++ [ToStyledRune cell])))
        by (rewrite length_app; cbn [List.length]; lia).
      rewrite (IH screen1 above (done ++ [ToStyledRune cell]) n below);
        try assumption.
      * replace (S n - Z.to_nat (1 + rowWidth env rest))%nat
          with (n - Z.to_nat (rowWidth env rest))%nat by lia.
        rewrite <- app_assoc. cbn [app]. f_equal. f_equal.
        rewrite length_app. cbn [List.length]. lia.
      * unfold screen1, withCells. cbn [cells]. rewrite <- app_assoc. reflexivity.
      * unfold screen1, withCells. cbn [widthAccessFromSizeOnly].
        rewrite length_app. cbn [List.length]. lia.
      * lia.
    + change (2 =? 2) with true. cbv iota.
      destruct n as [|n]; [lia|]. cbn [repeat] in screen1.
      replace (Z.of_nat (List.length done) + 2)
        with (Z.of_nat (List.length (done ++ [ToStyledRune cell; blank])))
        by (rewrite length_app; cbn [List.length]; lia).
      rewrite (IH screen1 above (done ++ [ToStyledRune cell; blank]) n below);
        try assumption.
      * replace (S (S n) - Z.to_nat (2 + rowWidth env rest))%nat
          with (n - Z.to_nat (rowWidth env rest))%nat by lia.
        rewrite <- app_assoc. cbn [app]. f_equal. f_equal.
        rewrite length_app. cbn [List.length]. lia.
      * unfold screen1, withCells. cbn [cells]. rewrite <- app_assoc. reflexivity.
      * unfold screen1, withCells. cbn [widthAccessFromSizeOnly].
        rewrite length_app. cbn [List.length]. lia.
      * lia.
Qed.

Definition notWide (env : Environment) (previous : option StyledRune) : Prop :=
  match previous with
  | Some before => Width (runeWidth env) before <> 2
  | None => True
  end.

Lemma blanks_shown env :
  runeWidth env runeSpace = 1 ->
  forall n previous,
    notWide env previous ->
    withoutHiddenRunesFrom (runeWidth env) previous (repeat blank n) = repeat blank n.
Proof.
  intros Hspace. induction n as [|n IH]; intros previous Hprevious; [reflexivity|].
  cbn [repeat withoutHiddenRunesFrom].
  assert (Hshown : match previous with
                   | Some before => Width (runeWidth env) before =? 2
                   | None => false
                   end = false).
  { destruct previous as [before|]; [|reflexivity]. apply Z.eqb_neq. exact Hprevious. }
  rewrite Hshown. f_equal. apply IH. unfold notWide, Width, blank. cbn [Rune]. lia.
Qed.

Lemma layout_shown env :
  runeWidth env runeSpace = 1 ->
  forall row previous n,
    notWide env previous ->
    Forall (narrowOrWide env) row ->
    withoutHiddenRunesFrom (runeWidth env) previous (layout env row ++ repeat blank n)
    = map ToStyledRune row ++ repeat blank n.
Proof.
  intros Hspace. induction row as [|cell rest IH]; intros previous n Hprevious Hwidths.
  - cbn [layout app map]. apply blanks_shown; assumption.
  - inversion Hwidths as [|? ? Hcell Hrest]; subst.
    assert (Hshown : match previous with
                     | Some before => Width (runeWidth env) before =? 2
                     | None => false
                     end = false).
    { destruct previous as [before|]; [|reflexivity]. apply Z.eqb_neq. exact Hprevious. }
    assert (Hcw : Width (runeWidth env) (ToStyledRune cell) = cellWidth env cell)
      by reflexivity.
    cbn [layout map]. destruct Hcell as [Hnarrow|Hwide].
    + rewrite Hnarrow. change (1 =? 2) with false. cbv iota.
      cbn [app withoutHiddenRunesFrom]. rewrite Hshown. f_equal.
      apply IH; [|exact Hrest]. unfold notWide. rewrite Hcw. lia.
    + rewrite Hwide. change (2 =? 2) with true. cbv iota.
      cbn [app withoutHiddenRunesFrom]. rewrite Hshown, Hcw, Hwide.
      change (2 =? 2) with true. cbv iota. f_equal.
      apply IH; [|exact Hrest]. unfold notWide, Width, blank. cbn [Rune]. lia.
Qed.

(** The grid rows the lines of the pager take. *)
Definition gridRows (env : Environment) (width : nat) (lines : list renderedLine)
  : list (list StyledRune) :=
  map (fun line =>
         layout env (cellsOf line) ++
         repeat blank (width - Z.to_nat (rowWidth env (cellsOf line))))
      lines.

Lemma drawLines_layout env width :
  forall rows screen above blanks lastUpdated,
    sigwinch screen = false ->
    Z.of_nat width = widthAccessFromSizeOnly screen ->
    (0 < width)%nat ->
    Z.of_nat (List.length above + blanks) = heightAccessFromSizeOnly screen ->
    cells screen = above ++ repeat (repeat blank width) blanks ->
    (List.length rows <= blanks)%nat ->
    Forall (fun line => Forall (narrowOrWide env) (cellsOf line) /\
                        rowWidth env (cellsOf line) <= Z.of_nat width) rows ->
    drawLines env (Z.of_nat (List.length above)) rows lastUpdated screen
    = Ok (match rows with
          | [] => lastUpdated
          | _ => Z.of_nat (List.length above + List.length rows) - 1
          end,
          withCells screen
            (above ++ gridRows env width rows ++
             repeat (repeat blank width) (blanks - List.length rows))).
Proof.
  induction rows as [|line rest IH];
    intros screen above blanks lastUpdated Hquiet Hwidth Hpositive Hheight Hgrid Hcount Hlines.
  - cbn [drawLines gridRows map app List.length]. rewrite Nat.sub_0_r, <- Hgrid.
    destruct screen; reflexivity.
  - inversion Hlines as [|? ? [Hwidths Hfits] Hrest]; subst.
    cbn [List.length] in Hcount. destruct blanks as [|blanks]; [lia|].
    cbn [repeat] in Hgrid. cbn [drawLines].
    change (0) with (Z.of_nat (List.length (@nil StyledRune))) at 1.
    rewrite (drawCells_layout env (cellsOf line) screen above [] width
               (repeat (repeat blank width) blanks));
      try assumption; try lia.
    cbn [andThen app].
    set (row := layout env (cellsOf line) ++
                repeat blank (width - Z.to_nat (rowWidth env (cellsOf line)))).
    set (screen1 := withCells screen (above ++ row :: repeat (repeat blank width) blanks)).
    replace (Z.of_nat (List.length above) + 1)
      with (Z.of_nat (List.length (above ++ [row])))
      by (rewrite length_app; cbn [List.length]; lia).
    rewrite (IH screen1 (above ++ [row]) blanks (Z.of_nat (List.length above)));
      try assumption.
    + f_equal. f_equal.
      * rewrite length_app. cbn [List.length]. destruct rest; cbn [List.length]; lia.
      * unfold screen1, withCells. cbn [widthAccessFromSizeOnly heightAccessFromSizeOnly
          sigwinch termGetSize terminalColorCount].
        f_equal. rewrite <- app_assoc. cbn [app gridRows map List.length Nat.sub].
        reflexivity.
    + unfold screen1, withCells. cbn [heightAccessFromSizeOnly].
      rewrite length_app. cbn [List.length]. lia.
    + unfold screen1, withCells. cbn [cells]. rewrite <- app_assoc. reflexivity.
    + lia.
Qed.

Lemma layout_length env row :
  Forall (narrowOrWide env) row ->
  Z.of_nat (List.length (layout env row)) = rowWidth env row.
Proof.
  induction 1 as [|cell rest Hcell _ IH]; [reflexivity|].
  cbn [layout rowWidth fold_right]. fold (rowWidth env rest).
  destruct Hcell as [Hnarrow|Hwide].
  - rewrite Hnarrow. change (1 =? 2) with false. cbv iota. cbn [List.length]. lia.
  - rewrite Hwide. change (2 =? 2) with true. cbv iota. cbn [List.length]. lia.
Qed.

Lemma blank_grid screen :
  TwinProps.steady screen ->
  (forall row column,
      0 <= row < heightAccessFromSizeOnly screen ->
      0 <= column < widthAccessFromSizeOnly screen ->
      TwinProps.cellAt screen row column = Some blank) ->
  cells screen
  = repeat (repeat blank (Z.to_nat (widthAccessFromSizeOnly screen)))
           (Z.to_nat (heightAccessFromSizeOnly screen)).
Proof.
  intros (_ & Hwidth & Hheight & Hrows & Hcolumns) Hblank.
  apply nth_error_ext. intros r.
  destruct (Nat.lt_ge_cases r (Z.to_nat (heightAccessFromSizeOnly screen))) as [Hin|Hout].
  - rewrite nth_error_repeat by exact Hin.
    destruct (nth_error (cells screen) r) as [line|] eqn:Hline;
      [|apply nth_error_None in Hline; lia].
    f_equal. apply nth_error_ext. intros c.
    assert (Hlength : List.length line = Z.to_nat (widthAccessFromSizeOnly screen)).
    { rewrite Forall_forall in Hcolumns. apply Hcolumns. eapply nth_error_In; eauto. }
    destruct (Nat.lt_ge_cases c (Z.to_nat (widthAccessFromSizeOnly screen))) as [Hc|Hc].
    + rewrite nth_error_repeat by exact Hc.
      specialize (Hblank (Z.of_nat r) (Z.of_nat c) ltac:(lia) ltac:(lia)).
      unfold TwinProps.cellAt in Hblank.
      destruct (Z.ltb_spec (Z.of_nat r) 0); [lia|].
      destruct (Z.ltb_spec (Z.of_nat c) 0); [lia|].
      cbn [orb] in Hblank. rewrite !Nat2Z.id, Hline in Hblank. exact Hblank.
    + transitivity (@None StyledRune); [|symmetry]; apply nth_error_None;
        rewrite ?repeat_length; lia.
  - transitivity (@None (list StyledRune)); [|symmetry]; apply nth_error_None;
      rewrite ?repeat_length; lia.
Qed.

Lemma Clear_blank_grid screen cleared :
  TwinProps.steady screen ->
  Clear screen = Ok cleared ->
  sigwinch cleared = false /\
  widthAccessFromSizeOnly cleared = widthAccessFromSizeOnly screen /\
  heightAccessFromSizeOnly cleared = heightAccessFromSizeOnly screen /\
  cells cleared
  = repeat (repeat blank (Z.to_nat (widthAccessFromSizeOnly screen)))
           (Z.to_nat (heightAccessFromSizeOnly screen)).
Proof.
  intros Hsteady Hclear. unfold Clear in Hclear. cbv zeta in Hclear.
  rewrite (TwinProps.Size_steady _ Hsteady) in Hclear. cbn [andThen] in Hclear.
  pose proof Hsteady as (_ & _ & Hheight & _).
  destruct (TwinMore.clearRows_spec blank (widthAccessFromSizeOnly screen)
              (Z.to_nat (heightAccessFromSizeOnly screen)) screen 0 Hsteady
              eq_refl ltac:(lia) ltac:(lia))
    as (screen' & Hrows & Hsteady' & Hw & Hh & Hcleared & _).
  fold blank in Hclear. rewrite Hrows in Hclear. injection Hclear as <-.
  split; [apply Hsteady'|]. split; [exact Hw|]. split; [exact Hh|].
  rewrite <- Hw, <- Hh. apply blank_grid; [exact Hsteady'|].
  intros row column Hrow Hcolumn. apply Hcleared; lia.
Qed.

(** X26. What [redraw] draws is what [Show] serialises: on a screen that
    [Clear] has just blanked, the two loops of [redraw] put every rendered
    line that fits the screen on the grid row of its position, and what
    [withoutHiddenRunes] keeps of that row are the runes of the line in
    their styles, followed by the blanks left of the cleared row.  The
    loops return the number of the last row drawn. *)
Theorem redraw_shows_the_rendered_lines env screen cleared rows :
  TwinProps.steady screen ->
  runeWidth env runeSpace = 1 ->
  Clear screen = Ok cleared ->
  Z.of_nat (List.length rows) <= heightAccessFromSizeOnly screen ->
  Forall (fun line => Forall (narrowOrWide env) (cellsOf line) /\
                      rowWidth env (cellsOf line) <= widthAccessFromSizeOnly screen) rows ->
  exists drawn,
    drawLines env 0 rows (-1) cleared = Ok (Z.of_nat (List.length rows) - 1, drawn) /\
    TwinProps.steady drawn /\
    forall k line,
      nth_error rows k = Some line ->
      exists gridRow,
        nth_error (cells drawn) k = Some gridRow /\
        withoutHiddenRunes (runeWidth env) gridRow
        = map ToStyledRune (cellsOf line) ++
          repeat blank
            (Z.to_nat (widthAccessFromSizeOnly screen - rowWidth env (cellsOf line))).
Proof.
  intros Hsteady Hspace Hclear Hcount Hrows.
  destruct (Clear_blank_grid screen cleared Hsteady Hclear) as (Hquiet & Hw & Hh & Hgrid).
  pose proof Hsteady as (_ & Hwidth & Hheight & _).
  set (width := Z.to_nat (widthAccessFromSizeOnly screen)) in *.
  set (height := Z.to_nat (heightAccessFromSizeOnly screen)) in *.
  assert (Hrows' : Forall (fun line => Forall (narrowOrWide env) (cellsOf line) /\
                                       rowWidth env (cellsOf line) <= Z.of_nat width) rows).
  { eapply Forall_impl; [|exact Hrows]. cbv beta. intros line [H1 H2].
    split; [exact H1|]. subst width. lia. }
  pose proof (drawLines_layout env width rows cleared [] height (-1) Hquiet
                ltac:(subst width; lia) ltac:(subst width; lia)
                ltac:(cbn [List.length]; subst height; lia) Hgrid
                ltac:(subst height; lia) Hrows') as Hdrawn.
  cbn [List.length app Nat.add] in Hdrawn. change (Z.of_nat 0) with 0 in Hdrawn.
  eexists. split.
  { rewrite Hdrawn. f_equal. f_equal. destruct rows; cbn [List.length]; lia. }
  assert (Hshape : Forall (fun gridRow => List.length gridRow = width)
                     (gridRows env width rows)).
  { unfold gridRows. apply Forall_forall. intros gridRow Hin.
    apply in_map_iff in Hin. destruct Hin as (line & <- & Hline).
    rewrite Forall_forall in Hrows'. destruct (Hrows' line Hline) as [Hwidths Hfits].
    pose proof (layout_length env (cellsOf line) Hwidths) as Hlength.
    pose proof (rowWidth_nonneg env (cellsOf line) Hwidths) as Hnonneg.
    rewrite length_app, repeat_length. lia. }
  split.
  - unfold TwinProps.steady, withCells.
    cbn [sigwinch widthAccessFromSizeOnly heightAccessFromSizeOnly cells].
    split; [exact Hquiet|]. split; [lia|]. split; [lia|]. split.
    + rewrite length_app, repeat_length. unfold gridRows. rewrite length_map.
      rewrite Hh. fold height. lia.
    + rewrite Hw. fold width. apply Forall_app. split; [exact Hshape|].
      apply Forall_forall. intros gridRow Hin. apply repeat_spec in Hin. subst gridRow.
      apply repeat_length.
  - intros k line Hline. unfold withCells. cbn [cells].
    eexists. split.
    + rewrite nth_error_app1
        by (unfold gridRows; rewrite length_map; apply nth_error_Some; congruence).
      unfold gridRows. apply map_nth_error. exact Hline.
    + cbv beta. rewrite Forall_forall in Hrows'.
      destruct (Hrows' line (nth_error_In _ _ Hline)) as [Hwidths Hfits].
      unfold withoutHiddenRunes.
      rewrite (layout_shown env Hspace (cellsOf line) None _ I Hwidths).
      pose proof (rowWidth_nonneg env (cellsOf line) Hwidths) as Hnonneg.
      replace (width - Z.to_nat (rowWidth env (cellsOf line)))%nat
        with (Z.to_nat (widthAccessFromSizeOnly screen - rowWidth env (cellsOf line)))
        by (subst width; lia).
      reflexivity.
Qed.

Definition sampleRows : list renderedLine :=
  [mkRenderedLine 0 0 (map (fun r => plainCell r StyleDefault) [21320; 97]) StyleDefault;
   mkRenderedLine 1 0 [plainCell 98 StyleDefault] StyleDefault].

Lemma redraw_shows_the_rendered_lines_witness :
  exists cleared drawn gridRow,
    Clear TwinProps.sampleScreen = Ok cleared /\
    drawLines (sampleEnv [] 3 2) 0 sampleRows (-1) cleared = Ok (1, drawn) /\
    nth_error (cells drawn) 0 = Some gridRow /\
    withoutHiddenRunes TwinProps.sampleWidth gridRow
    = [NewStyledRune 21320 StyleDefault; NewStyledRune 97 StyleDefault].
Proof.
  destruct (Clear TwinProps.sampleScreen) as [cleared| |] eqn:Hclear.
  2,3: vm_compute in Hclear; discriminate.
  assert (Hrows : Forall (fun line =>
                            Forall (narrowOrWide (sampleEnv [] 3 2)) (cellsOf line) /\
                            rowWidth (sampleEnv [] 3 2) (cellsOf line) <= 3) sampleRows).
  { repeat (constructor; [split; [apply sample_narrowOrWide|vm_compute; discriminate]|]).
    constructor. }
  destruct (redraw_shows_the_rendered_lines (sampleEnv [] 3 2) TwinProps.sampleScreen cleared
              sampleRows TwinProps.sampleScreen_steady eq_refl Hclear
              ltac:(vm_compute; discriminate) Hrows)
    as (drawn & Hdrawn & _ & Hshown).
  destruct (Hshown 0%nat _ eq_refl) as (gridRow & Hrow & Hvisible).
  exists cleared, drawn, gridRow.
  split; [reflexivity|]. split; [exact Hdrawn|]. split; [exact Hrow|exact Hvisible].
Defined.

End PagerMore.
